(** * VitalSense project-manifest tooling: a shallow embedding

    The development follows two scripts of the repository:

    - [scripts/Recovery/deduplicate_project.py] (the repair engine), and
    - [scripts/Recovery/smart_project_import.py] (classifier, identifier
      allocator and manifest builder).

    Python values are modelled as follows.  A [str] is the list of its
    code points ([list N]); a list is a [list]; a dict is a finite map;
    the file system is a finite map from paths to texts together with a
    description of which writes fail.  Regular expressions are kept as
    syntax and run by a backtracking matcher that follows the order in
    which Python's [re] explores alternatives. *)

From Stdlib Require Import NArith List String Ascii Bool Lia.
From stdpp Require Import base option list gmap.

Set Default Proof Using "Type".

(* ===================================================================== *)
(** * Python strings                                                      *)
(* ===================================================================== *)

Module Py.

(** A Python [str]: a sequence of Unicode code points. *)
Abbreviation str := (list N).

(** String literals of the sources (all of them are ASCII). *)
Definition lit (s : string) : str :=
  map N_of_ascii (list_ascii_of_string s).

Definition nl : N := 10%N.      (* '\n' *)
Definition tab : N := 9%N.      (* '\t' *)
Definition dq : N := 34%N.      (* the double quote *)
Definition slash : N := 47%N.   (* '/' *)
Definition dot : N := 46%N.     (* '.' *)

(** [str] equality, [a == b]. *)
Definition str_eqb (a b : str) : bool := bool_decide (a = b).

(** Unicode white space, as tested by [str.isspace], [str.strip] and the
    [\s] class of [re] on [str] patterns. *)
Definition is_space (c : N) : bool :=
  ((9 <=? c) && (c <=? 13) || (28 <=? c) && (c <=? 32)
   || (c =? 133) || (c =? 160) || (c =? 5760)
   || (8192 <=? c) && (c <=? 8202)
   || (c =? 8232) || (c =? 8233) || (c =? 8239) || (c =? 8287)
   || (c =? 12288))%N.

(** [s.strip()] *)
Fixpoint lstrip (s : str) : str :=
  match s with
  | c :: s' => if is_space c then lstrip s' else s
  | [] => []
  end.
Definition rstrip (s : str) : str := rev (lstrip (rev s)).
Definition strip (s : str) : str := rstrip (lstrip s).

(** [s.startswith(p)] *)
Fixpoint startswith (p s : str) : bool :=
  match p, s with
  | [], _ => true
  | _ :: _, [] => false
  | a :: p', b :: s' => (a =? b)%N && startswith p' s'
  end.

(** [p in s] for strings: [p] occurs in [s] as a contiguous block. *)
Fixpoint contains (p s : str) : bool :=
  startswith p s ||
  match s with
  | [] => false
  | _ :: s' => contains p s'
  end.

(** [s.split(sep)] for a one-character separator. *)
Fixpoint split_on (sep : N) (s : str) : list str :=
  match s with
  | [] => [[]]
  | c :: s' =>
      if (c =? sep)%N then [] :: split_on sep s'
      else match split_on sep s' with
           | [] => [[c]]
           | w :: ws => (c :: w) :: ws
           end
  end.

(** [sep.join(l)] *)
Fixpoint join (sep : str) (l : list str) : str :=
  match l with
  | [] => []
  | [x] => x
  | x :: l' => x ++ sep ++ join sep l'
  end.

(** What [f.read()] returns for a file opened in text mode: every line
    ending, be it CR LF or a lone CR, is read as one line feed. *)
Definition cr : N := 13%N.

Fixpoint universal_newlines (s : str) : str :=
  match s with
  | [] => []
  | c :: s' =>
      if (c =? cr)%N then
        match s' with
        | c' :: s'' =>
            if (c' =? nl)%N then nl :: universal_newlines s''
            else nl :: universal_newlines s'
        | [] => [nl]
        end
      else c :: universal_newlines s'
  end.

(** [s.count(c)] for a one-character needle. *)
Definition count_char (c : N) (s : str) : nat :=
  length (filter (fun x => x = c) s).

(** [s.replace(old, '')] for a non-empty [old]: every occurrence found
    scanning from the left is removed, without overlap.  [skip] counts
    the characters of the current occurrence still to be dropped. *)
Fixpoint remove_all_go (old : str) (skip : nat) (s : str) : str :=
  match s with
  | [] => []
  | c :: s' =>
      match skip with
      | S k => remove_all_go old k s'
      | O =>
          if startswith old s then remove_all_go old (length old - 1) s'
          else c :: remove_all_go old O s'
      end
  end.

Definition remove_all (old s : str) : str := remove_all_go old 0 s.

End Py.

(* ===================================================================== *)
(** * Regular expressions, as Python's [re] runs them                     *)
(* ===================================================================== *)

Module Re.
Import Py.

(** The fragment of the pattern language that the scripts use. *)
Inductive regex : Type :=
| Eps                                  (* the empty pattern *)
| Chr (c : N)                          (* a literal character *)
| Cls (p : N -> bool)                  (* a character class *)
| Seq (r1 r2 : regex)                  (* r1 r2 *)
| Star (greedy : bool) (r : regex)     (* r*  and  r*? *)
| Opt (r : regex)                      (* r? *)
| Grp (i : nat) (r : regex).           (* the capture group number i+1 *)

(** [r+] and [r+?] *)
Definition Plus (greedy : bool) (r : regex) : regex := Seq r (Star greedy r).

(** a literal word *)
Fixpoint Lit (w : str) : regex :=
  match w with
  | [] => Eps
  | [c] => Chr c
  | c :: w' => Seq (Chr c) (Lit w')
  end.

(** concatenation of a list of patterns *)
Fixpoint Cat (rs : list regex) : regex :=
  match rs with
  | [] => Eps
  | [r] => r
  | r :: rs' => Seq r (Cat rs')
  end.

(** [\s], [[A-F0-9]] and [.] *)
Definition ws : regex := Cls is_space.
Definition is_hex (c : N) : bool :=
  ((65 <=? c) && (c <=? 70) || (48 <=? c) && (c <=? 57))%N.
Definition hex : regex := Cls is_hex.
Definition any : regex := Cls (fun c => negb (c =? nl)%N).

(** The captured groups of a match: position [i] holds group [i+1],
    [None] for a group that took no part in the match. *)
Abbreviation groups := (list (option str)).

Section Matcher.
Context {A : Type}.

(** What remains to be matched after a pattern: a continuation that
    receives the rest of the subject and the groups so far. *)
Local Abbreviation cont := (str -> groups -> option A).

(** The repetition loop.  A greedy loop tries one more iteration before
    it tries what follows; a lazy loop does the opposite.  An iteration
    that consumes nothing is not repeated.  [fuel] bounds the number of
    iterations and is never exhausted when it exceeds the length of the
    subject, since every repeated iteration consumes a character. *)
Fixpoint star_loop (body : str -> groups -> cont -> option A)
    (greedy : bool) (fuel : nat) (s : str) (g : groups) (k : cont)
    : option A :=
  match fuel with
  | O => k s g
  | S fuel' =>
      let again s' g' :=
        if (length s' <? length s)%nat
        then star_loop body greedy fuel' s' g' k
        else None in
      if greedy then
        match body s g again with
        | Some x => Some x
        | None => k s g
        end
      else
        match k s g with
        | Some x => Some x
        | None => body s g again
        end
  end.

(** The backtracking matcher, anchored at the start of [s]. *)
Fixpoint run (r : regex) (s : str) (g : groups) (k : cont) : option A :=
  match r with
  | Eps => k s g
  | Chr c =>
      match s with
      | x :: s' => if (x =? c)%N then k s' g else None
      | [] => None
      end
  | Cls p =>
      match s with
      | x :: s' => if p x then k s' g else None
      | [] => None
      end
  | Seq r1 r2 => run r1 s g (fun s' g' => run r2 s' g' k)
  | Star greedy r' => star_loop (run r') greedy (S (length s)) s g k
  | Opt r' =>
      match run r' s g k with
      | Some x => Some x
      | None => k s g
      end
  | Grp i r' =>
      run r' s g (fun s' g' =>
        k s' (<[i := Some (take (length s - length s') s)]> g'))
  end.
End Matcher.

(** [re.match(r, s)]: the groups of the first match found, for a
    pattern with [n] groups. *)
Definition re_match (n : nat) (r : regex) (s : str) : option groups :=
  run r s (replicate n None) (fun _ g => Some g).

(** [re.search] from the start of [s]: the text skipped before the match
    and the text left after it.  With [must_advance] an empty match at
    the very first position is refused (this is how [re.sub] resumes
    after an empty match). *)
Fixpoint search (r : regex) (must_advance : bool) (s : str)
    : option (str * str) :=
  match
    run r s [] (fun s' _ =>
      if must_advance && (length s' =? length s)%nat then None else Some s')
  with
  | Some rest => Some ([], rest)
  | None =>
      match s with
      | [] => None
      | c :: s' =>
          match search r false s' with
          | Some (skipped, rest) => Some (c :: skipped, rest)
          | None => None
          end
      end
  end.

(** [re.sub(r, repl, s)] for a replacement without group references:
    the matches are found from left to right without overlap and each
    is replaced by [repl]. *)
Fixpoint sub_loop (fuel : nat) (r : regex) (repl : str)
    (must_advance : bool) (s : str) : str :=
  match fuel with
  | O => s
  | S fuel' =>
      match search r must_advance s with
      | None => s
      | Some (skipped, rest) =>
          skipped ++ repl ++
          sub_loop fuel' r repl
            (length skipped + length rest =? length s)%nat rest
      end
  end.

Definition re_sub (r : regex) (repl s : str) : str :=
  sub_loop (2 * length s + 2) r repl false s.

(** ** Closed forms used to reason about the matcher *)

(** A greedy repetition of one class followed by [k]: the longest run is
    tried first, then shorter and shorter ones. *)
Fixpoint greedy_cls {A : Type} (p : N -> bool) (s : str)
    (k : str -> option A) : option A :=
  match s with
  | c :: s' =>
      if p c then
        match greedy_cls p s' k with
        | Some x => Some x
        | None => k s
        end
      else k s
  | [] => k []
  end.

End Re.


(* ===================================================================== *)
(** * The repair engine: [deduplicate_project.py]                         *)
(* ===================================================================== *)

Module Dedup.
Import Py Re.

(** ** The three line patterns *)

(** [(\s+)([A-F0-9]+)\s+/\*\s+(.+?)\s+\*/\s+=\s+\{isa\s+=\s+PBXFileReference;] *)
Definition fileref_re : regex :=
  Cat [ Grp 0 (Plus true ws); Grp 1 (Plus true hex); Plus true ws;
        Lit (lit "/*"); Plus true ws; Grp 2 (Plus false any); Plus true ws;
        Lit (lit "*/"); Plus true ws; Lit (lit "="); Plus true ws;
        Lit (lit "{isa"); Plus true ws; Lit (lit "="); Plus true ws;
        Lit (lit "PBXFileReference;") ].

(** [(\s+)([A-F0-9]+)\s+/\*\s+(.+?)\s+(in\s+Sources)?\s*\*/\s+=\s+\{isa\s+=\s+PBXBuildFile;] *)
Definition buildfile_re : regex :=
  Cat [ Grp 0 (Plus true ws); Grp 1 (Plus true hex); Plus true ws;
        Lit (lit "/*"); Plus true ws; Grp 2 (Plus false any); Plus true ws;
        Opt (Grp 3 (Cat [Lit (lit "in"); Plus true ws; Lit (lit "Sources")]));
        Star true ws;
        Lit (lit "*/"); Plus true ws; Lit (lit "="); Plus true ws;
        Lit (lit "{isa"); Plus true ws; Lit (lit "="); Plus true ws;
        Lit (lit "PBXBuildFile;") ].

(** [(\s+)([A-F0-9]+)\s+/\*\s+(.+?)\s+in\s+Sources\s+\*/,?] *)
Definition build_phase_re : regex :=
  Cat [ Grp 0 (Plus true ws); Grp 1 (Plus true hex); Plus true ws;
        Lit (lit "/*"); Plus true ws; Grp 2 (Plus false any); Plus true ws;
        Lit (lit "in"); Plus true ws; Lit (lit "Sources"); Plus true ws;
        Lit (lit "*/"); Opt (Chr 44) ].

(** [\n\s*\n\s*\n] *)
Definition blank_lines_re : regex :=
  Cat [ Chr nl; Star true ws; Chr nl; Star true ws; Chr nl ].

(** Group [i+1] of a match ([None] is read as the empty string; the
    groups used below always take part in the match). *)
Definition group (g : groups) (i : nat) : str :=
  match g !! i with
  | Some (Some x) => x
  | _ => []
  end.

(** ** The scan over the lines *)

(** The local variables of the loop. *)
Record scan_state : Type := ScanState {
  seen_refs : gmap str str;
  seen_build_refs : gmap str str;
  duplicate_count : nat;
  new_lines : list str
}.

Definition scan_init : scan_state :=
  ScanState ∅ ∅ 0 [].

Definition drop_line (st : scan_state) : scan_state :=
  ScanState (seen_refs st) (seen_build_refs st)
            (duplicate_count st + 1) (new_lines st).

Definition keep_line (st : scan_state) (line : str) : scan_state :=
  ScanState (seen_refs st) (seen_build_refs st)
            (duplicate_count st) (new_lines st ++ [line]).

(** One iteration of [for line in lines]. *)
Definition process_line (st : scan_state) (line : str) : scan_state :=
  match re_match 3 fileref_re line with
  | Some g =>
      let ref_id := group g 1 in
      let filename := group g 2 in
      let key := strip filename in
      match seen_refs st !! key with
      | Some _ => drop_line st
      | None =>
          ScanState (<[key := ref_id]> (seen_refs st)) (seen_build_refs st)
                    (duplicate_count st) (new_lines st ++ [line])
      end
  | None =>
  match re_match 4 buildfile_re line with
  | Some g =>
      let ref_id := group g 1 in
      let filename := group g 2 in
      let key := strip filename in
      match seen_build_refs st !! key with
      | Some _ => drop_line st
      | None =>
          ScanState (seen_refs st) (<[key := ref_id]> (seen_build_refs st))
                    (duplicate_count st) (new_lines st ++ [line])
      end
  | None =>
  match re_match 3 build_phase_re line with
  | Some g =>
      let ref_id := group g 1 in
      let filename := group g 2 in
      let key := strip filename in
      match seen_build_refs st !! key with
      | Some seen_id =>
          if negb (str_eqb seen_id ref_id) then drop_line st
          else keep_line st line
      | None => keep_line st line
      end
  | None => keep_line st line
  end end end.

Definition scan (lines : list str) : scan_state :=
  foldl process_line scan_init lines.

(** The text part of [deduplicate_project_file]: from the content read
    to [new_content] and [duplicate_count]. *)
Definition dedup_text (content : str) : str * nat :=
  let lines := split_on nl content in
  let st := scan lines in
  let new_content := join [nl] (new_lines st) in
  let new_content := re_sub blank_lines_re [nl; nl] new_content in
  (new_content, duplicate_count st).

(** ** Files *)

(** How [with open(p, 'w') as f: f.write(data)] can go wrong at a path:
    the file cannot be opened, or it is opened (and so truncated) and
    the write stops after [written] characters. *)
Inductive write_fault : Type :=
| NoFault
| OpenFails
| WriteFails (written : nat).

Inductive event : Type :=
| Wrote (path data : str)
| WriteFailed (path : str).

(** The files and the history of the writes attempted so far.  A file
    is kept as the text that its bytes decode to; a path without an
    entry cannot be read (the file is missing or is not UTF-8). *)
Record world : Type := World {
  files : gmap str str;
  trace : list event
}.

(** How a call ends: it returns a value or an exception leaves it. *)
Inductive outcome : Type :=
| Returned (b : bool)
| Raised.

Section Files.
(** The paths at which writing fails. *)
Variable fault : str -> write_fault.

Definition write_file (w : world) (path data : str) : world * bool :=
  match fault path with
  | NoFault =>
      (World (<[path := data]> (files w)) (trace w ++ [Wrote path data]),
       true)
  | OpenFails =>
      (World (files w) (trace w ++ [WriteFailed path]), false)
  | WriteFails n =>
      (World (<[path := take n data]> (files w))
             (trace w ++ [WriteFailed path]), false)
  end.

Definition backup_path (file_path : str) : str :=
  file_path ++ lit ".pre_dedup_backup".

(** [deduplicate_project_file(file_path)].  A failed read is caught and
    answered with [False]; nothing catches a failed write.  Writing
    stores the text as it is (the scripts run where the line separator
    is the line feed). *)
Definition deduplicate_project_file (w : world) (file_path : str)
    : world * outcome :=
  match files w !! file_path with
  | None => (w, Returned false)
  | Some stored =>
      let content := universal_newlines stored in
      let '(new_content, duplicate_count) := dedup_text content in
      if (0 <? duplicate_count)%nat then
        let '(w1, ok) := write_file w (backup_path file_path) content in
        if ok then
          let '(w2, ok) := write_file w1 file_path new_content in
          if ok then (w2, Returned true) else (w2, Raised)
        else (w1, Raised)
      else (w, Returned true)
  end.
End Files.

(** ** Vocabulary for the statements about the repair *)

(** What the three patterns, tried in order, make of one line. *)
Inductive line_kind : Type :=
| FileRefDecl (key ref_id : str)
| BuildFileDecl (key ref_id : str)
| PhaseEntry (key ref_id : str)
| Plain.

Definition classify (line : str) : line_kind :=
  match re_match 3 fileref_re line with
  | Some g => FileRefDecl (strip (group g 2)) (group g 1)
  | None =>
  match re_match 4 buildfile_re line with
  | Some g => BuildFileDecl (strip (group g 2)) (group g 1)
  | None =>
  match re_match 3 build_phase_re line with
  | Some g => PhaseEntry (strip (group g 2)) (group g 1)
  | None => Plain
  end end end.

(** Whether the loop keeps a line, given what it has seen. *)
Definition kept_by (st : scan_state) (line : str) : bool :=
  match classify line with
  | FileRefDecl key _ => bool_decide (seen_refs st !! key = None)
  | BuildFileDecl key _ => bool_decide (seen_build_refs st !! key = None)
  | PhaseEntry key ref_id =>
      match seen_build_refs st !! key with
      | Some seen_id => str_eqb seen_id ref_id
      | None => true
      end
  | Plain => true
  end.

(** What the loop records when it keeps a line. *)
Definition learn (st : scan_state) (line : str) : scan_state :=
  match classify line with
  | FileRefDecl key ref_id =>
      ScanState (<[key := ref_id]> (seen_refs st)) (seen_build_refs st)
                (duplicate_count st) (new_lines st ++ [line])
  | BuildFileDecl key ref_id =>
      ScanState (seen_refs st) (<[key := ref_id]> (seen_build_refs st))
                (duplicate_count st) (new_lines st ++ [line])
  | _ => keep_line st line
  end.

(** The labels declared in a list of lines. *)
Definition fileref_keys (ls : list str) : list str :=
  omap (fun l => match classify l with
                 | FileRefDecl key _ => Some key
                 | _ => None
                 end) ls.

Definition build_decls (ls : list str) : list (str * str) :=
  omap (fun l => match classify l with
                 | BuildFileDecl key ref_id => Some (key, ref_id)
                 | _ => None
                 end) ls.

Definition phase_entries (ls : list str) : list (str * str) :=
  omap (fun l => match classify l with
                 | PhaseEntry key ref_id => Some (key, ref_id)
                 | _ => None
                 end) ls.

(** A manifest without duplicate labels: no label is declared twice as
    a FileReference, none twice as a BuildFileEntry, and no membership
    line carries the label of a BuildFileEntry declared under another
    identifier. *)
Definition no_duplicate_labels (ls : list str) : Prop :=
  NoDup (fileref_keys ls)
  /\ NoDup (build_decls ls).*1
  /\ (forall key ref_id declared_id,
        (key, ref_id) ∈ phase_entries ls ->
        (key, declared_id) ∈ build_decls ls ->
        declared_id = ref_id).

(** The lines that the loop keeps when it starts from [st]. *)
Fixpoint survivors (st : scan_state) (ls : list str) : list str :=
  match ls with
  | [] => []
  | l :: ls' =>
      if kept_by st l then l :: survivors (learn st l) ls'
      else survivors st ls'
  end.

(** Two states of the loop that have seen the same declarations. *)
Definition same_seen (st st' : scan_state) : Prop :=
  seen_refs st = seen_refs st' /\ seen_build_refs st = seen_build_refs st'.


(** A blank line holds white space only. *)
Definition is_blank (line : str) : bool := forallb is_space line.

(** The number of line breaks in the white space that opens [s]. *)
Fixpoint leading_breaks (s : str) : nat :=
  match s with
  | c :: s' =>
      if (c =? nl)%N then S (leading_breaks s')
      else if is_space c then leading_breaks s'
      else O
  | [] => O
  end.

(** [s] without its opening white space up to the last line break of
    that white space. *)
Fixpoint after_breaks (s : str) : str :=
  match s with
  | c :: s' => if (0 <? leading_breaks s)%nat then after_breaks s' else s
  | [] => []
  end.

(** A line break followed by two blank lines that end in a line break
    starts at the head of [s]: what [blank_lines_re] matches. *)
Definition blank_run_at (s : str) : bool :=
  match s with
  | c :: s' => (c =? nl)%N && (2 <=? leading_breaks s')%nat
  | [] => false
  end.

Fixpoint has_blank_run (s : str) : bool :=
  blank_run_at s ||
  match s with
  | _ :: s' => has_blank_run s'
  | [] => false
  end.

(** The substitution of [blank_lines_re] by two line breaks as one pass
    over the text; [skipping] holds while the pass is inside a match. *)
Fixpoint collapse (skipping : bool) (s : str) : str :=
  match s with
  | [] => []
  | c :: s' =>
      if skipping && (0 <? leading_breaks s)%nat then collapse true s'
      else if blank_run_at s then nl :: nl :: collapse true s'
      else c :: collapse false s'
  end.

(** A check that decides [no_duplicate_labels]. *)
Definition labels_ok (ls : list str) : bool :=
  bool_decide (NoDup (fileref_keys ls))
  && bool_decide (NoDup (build_decls ls).*1)
  && forallb (fun entry =>
       forallb (fun decl => negb (str_eqb decl.1 entry.1)
                            || str_eqb decl.2 entry.2)
               (build_decls ls))
       (phase_entries ls).

(** Two blank lines in a row somewhere in a list of lines. *)
Fixpoint consecutive_blank_lines (ls : list str) : bool :=
  match ls with
  | a :: ls' =>
      match ls' with
      | b :: _ => is_blank a && is_blank b || consecutive_blank_lines ls'
      | [] => false
      end
  | [] => false
  end.

(** ** Sample manifests *)

(** A FileReference declaration for [Utils.swift]. *)
Definition utils_declaration (ref_id folder : string) : str :=
  [tab; tab] ++ lit ref_id
  ++ lit " /* Utils.swift */ = {isa = PBXFileReference; lastKnownFileType = sourcecode.swift; path = "
  ++ [dq] ++ lit folder ++ lit "/Utils.swift" ++ [dq]
  ++ lit "; sourceTree = " ++ [dq] ++ lit "<group>" ++ [dq] ++ lit "; };".

Definition first_utils : str :=
  utils_declaration "AB0000000000000000002010" "Core".
Definition second_utils : str :=
  utils_declaration "AB0000000000000000002012" "UI".

(** Two declarations of [Utils.swift] under different identifiers. *)
Definition duplicated_manifest : str :=
  join [nl] [ lit "/* Begin PBXFileReference section */";
              first_utils; second_utils;
              lit "/* End PBXFileReference section */"; [] ].

(** The two declarations again, with a line that holds one tab before
    the second and another after it; no line break ends the text. *)
Definition indented_tail_manifest : str :=
  join [nl] [ first_utils; lit "/* kept */"; [tab]; second_utils; [tab] ].

(** The duplicated manifest after its repair by hand: one declaration. *)
Definition repaired_manifest : str :=
  join [nl] [ lit "/* Begin PBXFileReference section */";
              first_utils;
              lit "/* End PBXFileReference section */"; [] ].

(** A path at which the duplicated manifest is stored. *)
Definition sample_path : str := lit "VitalSense.xcodeproj/project.pbxproj".

Definition sample_world : world :=
  World {[ sample_path := duplicated_manifest ]} [].

(** Writing the backup of the sample fails; every other write works. *)
Definition backup_unwritable (p : str) : write_fault :=
  if str_eqb p (backup_path sample_path) then OpenFails else NoFault.

End Dedup.

(* ===================================================================== *)
(** * Classifier, allocator and builder: [smart_project_import.py]        *)
(* ===================================================================== *)

Module Smart.
Import Py.

(** ** Paths, as [pathlib] splits them *)

(** [Path(p).parts] for a POSIX path: the components between slashes,
    without the empty ones and the single dots; an absolute path starts
    with its root. *)
Definition path_root (p : str) : list str :=
  match p with
  | 47 :: 47 :: 47 :: _ => [[slash]]
  | 47 :: 47 :: _ => [[slash; slash]]
  | 47 :: _ => [[slash]]
  | _ => []
  end%N.

Definition path_parts (p : str) : list str :=
  path_root p ++
  filter (fun x => x <> [] /\ x <> [dot]) (split_on slash p).

(** [Path(p).name]: the last component, empty for a bare root. *)
Definition path_name (p : str) : str :=
  match path_root p, last (filter (fun x => x <> [] /\ x <> [dot])
                                  (split_on slash p)) with
  | _, Some x => x
  | _, None => []
  end.

(** [name.rfind('.')]: the index of the last dot. *)
Fixpoint rfind_dot (name : str) : option nat :=
  match name with
  | [] => None
  | c :: name' =>
      match rfind_dot name' with
      | Some i => Some (S i)
      | None => if (c =? dot)%N then Some 0%nat else None
      end
  end.

(** [Path(p).suffix]: the name from its last dot on, unless that dot
    opens or closes the name. *)
Definition path_suffix (p : str) : str :=
  let name := path_name p in
  match rfind_dot name with
  | Some i =>
      if (0 <? i)%nat && (i <? length name - 1)%nat then drop i name else []
  | None => []
  end.

(** [s.lower()] on the letters A to Z.  (No other character lowers to a
    letter of the suffixes tested below.) *)
Definition lower_char (c : N) : N :=
  if ((65 <=? c) && (c <=? 90))%N then (c + 32)%N else c.
Definition lower (s : str) : str := map lower_char s.

(** [x in l] for a list of strings *)
Definition in_list (x : str) (l : list str) : bool := bool_decide (x ∈ l).

(** ** [should_include_file] *)

Definition excluded_patterns : list str :=
  [ lit "Test"; lit "UITest"; lit "Watch"; lit "Widget"; lit "Bridge";
    lit "build_"; lit "audit."; lit ".log"; lit "README";
    lit "Bridging-Header"; lit "sample"; lit "Sample" ].

Definition excluded_dirs : list str :=
  [ lit "VitalSenseTests"; lit "VitalSenseUITests";
    lit "VitalSenseTests"; lit "VitalSenseUITests";
    lit "VitalSense"; lit "VitalSenseWatch";
    lit "VitalSenseWidgets"; lit "Generated"; lit "scripts" ].

Definition main_dirs : list str :=
  [ lit "Core"; lit "Features"; lit "UI"; lit "Configuration" ].

Definition main_app_files : list str :=
  [ lit "VitalSenseApp.swift"; lit "VitalSenseBrand.swift";
    lit "VitalSenseComponents.swift" ].

Definition should_include_file (file_path file_name : str) : bool :=
  let path_parts := path_parts file_path in
  if existsb (fun excluded_dir => in_list excluded_dir path_parts)
             excluded_dirs then false
  else if existsb (fun pattern => contains pattern file_name)
                  excluded_patterns then false
  else
    let suffix := lower (path_suffix file_name) in
    if str_eqb suffix (lit ".swift") then
      if existsb (fun part => in_list part main_dirs) path_parts then true
      else if in_list file_name main_app_files then true
      else false
    else if in_list suffix [lit ".plist"] then
      str_eqb file_name (lit "Info.plist")
      && negb (contains (lit "VitalSense")
                        (remove_all (lit "VitalSense/") file_path))
    else if str_eqb suffix (lit ".entitlements") then
      str_eqb file_name (lit "VitalSense.entitlements")
    else if str_eqb file_name (lit "Assets.xcassets") then
      negb (contains (lit "VitalSense/") file_path)
      || (count_char slash file_path <=? 1)%nat
    else false.

(** ** [scan_smart_files] *)

(** The dictionaries that the scan produces. *)
Record file_info : Type := FileInfo {
  path : str;
  name : str;
  type : str;
  category : str
}.

(** A directory as [os.walk] reads it: the entries in the order in which
    the system lists them. *)
#[warnings="-register-all"]
Inductive entry : Type :=
| File (file : str)
| Dir (dir : str) (entries : list entry).

Definition noise_files : list str :=
  [ lit ".DS_Store"; lit "build.log"; lit "audit.out";
    lit "build_fix.log"; lit "build_full.log" ].

(** The body of [for file in files], for the directory whose path
    relative to the source root has the components [root]. *)
Definition scan_file (root : list str) (file : str) : list file_info :=
  if in_list file noise_files then []
  else
    let relative_path := join [slash] (root ++ [file]) in
    if negb (should_include_file relative_path file) then []
    else
      let suffix := lower (path_suffix relative_path) in
      if str_eqb suffix (lit ".swift") then
        [FileInfo relative_path file (lit "sourcecode.swift") (lit "source")]
      else if str_eqb suffix (lit ".plist")
              && str_eqb file (lit "Info.plist") then
        [FileInfo relative_path file (lit "text.plist.xml") (lit "resource")]
      else if str_eqb suffix (lit ".entitlements") then
        [FileInfo relative_path file (lit "text.plist.entitlements")
                  (lit "entitlements")]
      else if str_eqb file (lit "Assets.xcassets") then
        [FileInfo relative_path file (lit "folder.assetcatalog")
                  (lit "resource")]
      else [].

(** The directories that the walk still enters after
    [dirs[:] = [d for d in dirs if ...]]. *)
Definition walk_into (d : str) : bool :=
  negb (startswith [dot] d)
  && negb (in_list d [lit "build"; lit "DerivedData"]).

(** The walk, top down: the files of a directory come before the files
    of its subdirectories, which are entered in the order listed. *)
Definition scan_files_of (root : list str) (es : list entry)
    : list file_info :=
  flat_map (fun e => match e with
                     | File f => scan_file root f
                     | Dir _ _ => []
                     end) es.

Fixpoint scan_below (root : list str) (e : entry) : list file_info :=
  match e with
  | File _ => []
  | Dir d sub =>
      if walk_into d then
        scan_files_of (root ++ [d]) sub
        ++ flat_map (scan_below (root ++ [d])) sub
      else []
  end.

Definition scan_smart_files (source_tree : list entry) : list file_info :=
  scan_files_of [] source_tree ++ flat_map (scan_below []) source_tree.

(** ** [generate_id] *)

(** The fields of the builder that the methods change.  [issued] is not
    a field of the class: it records, oldest first, the identifiers that
    [generate_id] has returned, so that statements can speak of them. *)
Record builder : Type := Builder {
  file_refs : gmap str str;
  build_files : gmap str str;
  id_counter : N;
  issued : list str
}.

(** [SmartXcodeProjectBuilder(...)] *)
Definition new_builder : builder := Builder ∅ ∅ 0x2000 [].

(** Methods run in a state monad over the builder. *)
Definition M (A : Type) : Type := builder -> A * builder.
Definition ret {A} (x : A) : M A := fun b => (x, b).
Definition bind {A B} (c : M A) (k : A -> M B) : M B :=
  fun b => let '(x, b') := c b in k x b'.

Notation "'let!' x ':=' c 'in' k" := (bind c (fun x => k))
  (at level 10, x name, c at level 100, k at level 200).

(** [format(n, 'X')]: upper-case hexadecimal digits *)
Definition hex_digit (d : N) : N :=
  if (d <? 10)%N then (48 + d)%N else (55 + d)%N.

Fixpoint to_hex_go (fuel : nat) (n : N) (acc : str) : str :=
  match fuel with
  | O => acc
  | S fuel' =>
      let acc' := hex_digit (n mod 16) :: acc in
      if (n / 16 =? 0)%N then acc' else to_hex_go fuel' (n / 16) acc'
  end.

Definition to_hex (n : N) : str := to_hex_go (S (N.size_nat n)) n [].

(** [f"{n:022X}"]: padded with zeros on the left to 22 characters *)
Definition format_022X (n : N) : str :=
  let digits := to_hex n in
  replicate (22 - length digits) 48%N ++ digits.

Definition generate_id : M str := fun b =>
  let counter := (id_counter b + 1)%N in
  let id := lit "AB" ++ format_022X counter in
  (id, Builder (file_refs b) (build_files b) counter (issued b ++ [id])).

(** ** [build_smart_project] *)

Definition tabs (n : nat) : str := replicate n tab.

(** The four lists that the loop over the files fills. *)
Record sections : Type := Sections {
  file_references : list str;
  build_file_entries : list str;
  source_build_files : list str;
  resource_build_files : list str
}.

Definition product_reference (main_product_id : str) : str :=
  tabs 2 ++ main_product_id ++ lit " /* VitalSense.app */ = {isa = PBXFileReference; explicitFileType = wrapper.application; includeInIndex = 0; path = VitalSense.app; sourceTree = BUILT_PRODUCTS_DIR; };".

Definition file_reference_line (file_ref_id : str) (f : file_info) : str :=
  tabs 2 ++ file_ref_id ++ lit " /* " ++ name f
  ++ lit " */ = {isa = PBXFileReference; lastKnownFileType = " ++ type f
  ++ lit "; path = " ++ [dq] ++ path f ++ [dq]
  ++ lit "; sourceTree = " ++ [dq] ++ lit "<group>" ++ [dq] ++ lit "; };".

Definition build_file_line (phase build_file_id file_ref_id : str)
    (f : file_info) : str :=
  tabs 2 ++ build_file_id ++ lit " /* " ++ name f ++ lit " in " ++ phase
  ++ lit " */ = {isa = PBXBuildFile; fileRef = " ++ file_ref_id
  ++ lit " /* " ++ name f ++ lit " */; };".

Definition phase_member_line (phase build_file_id : str) (f : file_info)
    : str :=
  tabs 4 ++ build_file_id ++ lit " /* " ++ name f ++ lit " in " ++ phase
  ++ lit " */,".

(** [self.file_refs[file_info['path']] = file_ref_id] *)
Definition remember_file_ref (p file_ref_id : str) : M unit := fun b =>
  (tt, Builder (<[p := file_ref_id]> (file_refs b)) (build_files b)
               (id_counter b) (issued b)).

(** The body of [for file_info in files]. *)
Definition process_file (acc : sections) (f : file_info) : M sections :=
  let! file_ref_id := generate_id in
  let! stored := remember_file_ref (path f) file_ref_id in
  let file_references :=
    file_references acc ++ [file_reference_line file_ref_id f] in
  if str_eqb (category f) (lit "source") then
    (let! build_file_id := generate_id in
     ret (Sections file_references
            (build_file_entries acc
             ++ [build_file_line (lit "Sources") build_file_id file_ref_id f])
            (source_build_files acc
             ++ [phase_member_line (lit "Sources") build_file_id f])
            (resource_build_files acc)))
  else if str_eqb (category f) (lit "resource") then
    (let! build_file_id := generate_id in
     ret (Sections file_references
            (build_file_entries acc
             ++ [build_file_line (lit "Resources") build_file_id file_ref_id f])
            (source_build_files acc)
            (resource_build_files acc
             ++ [phase_member_line (lit "Resources") build_file_id f])))
  else
    ret (Sections file_references (build_file_entries acc)
           (source_build_files acc) (resource_build_files acc)).

Fixpoint process_files (acc : sections) (files : list file_info)
    : M sections :=
  match files with
  | [] => ret acc
  | f :: files' =>
      let! acc' := process_file acc f in
      process_files acc' files'
  end.

(** [self.file_refs[f["path"]]]; every path of [files] has been stored
    by the loop when this is read. *)
Definition file_ref_of (b : builder) (p : str) : str :=
  default [] (file_refs b !! p).

Definition file_child_line (b : builder) (f : file_info) : str :=
  tabs 4 ++ file_ref_of b (path f) ++ lit " /* " ++ name f ++ lit " */,".

(** The text of the manifest. *)
Definition project_content
    (main_group_id products_group_id vitalsense_group_id main_target_id
     main_product_id sources_phase_id frameworks_phase_id resources_phase_id
     target_config_list_id project_config_list_id target_debug_config_id
     target_release_config_id project_debug_config_id
     project_release_config_id project_object_id : str)
    (build_file_entries file_references file_children
     resource_build_files source_build_files : list str) : str :=
  join [nl] [
    lit "// !$*UTF8*$!";
    lit "{";
    tabs 1 ++ lit "archiveVersion = 1;";
    tabs 1 ++ lit "classes = {";
    tabs 1 ++ lit "};";
    tabs 1 ++ lit "objectVersion = 77;";
    tabs 1 ++ lit "objects = {";
    [];
    lit "/* Begin PBXBuildFile section */";
    join [nl] build_file_entries;
    lit "/* End PBXBuildFile section */";
    [];
    lit "/* Begin PBXFileReference section */";
    join [nl] file_references;
    lit "/* End PBXFileReference section */";
    [];
    lit "/* Begin PBXFrameworksBuildPhase section */";
    tabs 2 ++ frameworks_phase_id ++ lit " /* Frameworks */ = {";
    tabs 3 ++ lit "isa = PBXFrameworksBuildPhase;";
    tabs 3 ++ lit "buildActionMask = 2147483647;";
    tabs 3 ++ lit "files = (";
    tabs 3 ++ lit ");";
    tabs 3 ++ lit "runOnlyForDeploymentPostprocessing = 0;";
    tabs 2 ++ lit "};";
    lit "/* End PBXFrameworksBuildPhase section */";
    [];
    lit "/* Begin PBXGroup section */";
    tabs 2 ++ main_group_id ++ lit " = {";
    tabs 3 ++ lit "isa = PBXGroup;";
    tabs 3 ++ lit "children = (";
    tabs 4 ++ vitalsense_group_id ++ lit " /* VitalSense */,";
    tabs 4 ++ products_group_id ++ lit " /* Products */,";
    tabs 3 ++ lit ");";
    tabs 3 ++ lit "sourceTree = " ++ [dq] ++ lit "<group>" ++ [dq] ++ lit ";";
    tabs 2 ++ lit "};";
    tabs 2 ++ products_group_id ++ lit " /* Products */ = {";
    tabs 3 ++ lit "isa = PBXGroup;";
    tabs 3 ++ lit "children = (";
    tabs 4 ++ main_product_id ++ lit " /* VitalSense.app */,";
    tabs 3 ++ lit ");";
    tabs 3 ++ lit "name = Products;";
    tabs 3 ++ lit "sourceTree = " ++ [dq] ++ lit "<group>" ++ [dq] ++ lit ";";
    tabs 2 ++ lit "};";
    tabs 2 ++ vitalsense_group_id ++ lit " /* VitalSense */ = {";
    tabs 3 ++ lit "isa = PBXGroup;";
    tabs 3 ++ lit "children = (";
    join [nl] file_children;
    tabs 3 ++ lit ");";
    tabs 3 ++ lit "path = VitalSense;";
    tabs 3 ++ lit "sourceTree = " ++ [dq] ++ lit "<group>" ++ [dq] ++ lit ";";
    tabs 2 ++ lit "};";
    lit "/* End PBXGroup section */";
    [];
    lit "/* Begin PBXNativeTarget section */";
    tabs 2 ++ main_target_id ++ lit " /* VitalSense */ = {";
    tabs 3 ++ lit "isa = PBXNativeTarget;";
    tabs 3 ++ lit "buildConfigurationList = " ++ target_config_list_id ++ lit " /* Build configuration list for PBXNativeTarget " ++ [dq] ++ lit "VitalSense" ++ [dq] ++ lit " */;";
    tabs 3 ++ lit "buildPhases = (";
    tabs 4 ++ sources_phase_id ++ lit " /* Sources */,";
    tabs 4 ++ frameworks_phase_id ++ lit " /* Frameworks */,";
    tabs 4 ++ resources_phase_id ++ lit " /* Resources */,";
    tabs 3 ++ lit ");";
    tabs 3 ++ lit "buildRules = (";
    tabs 3 ++ lit ");";
    tabs 3 ++ lit "dependencies = (";
    tabs 3 ++ lit ");";
    tabs 3 ++ lit "name = VitalSense;";
    tabs 3 ++ lit "productName = VitalSense;";
    tabs 3 ++ lit "productReference = " ++ main_product_id ++ lit " /* VitalSense.app */;";
    tabs 3 ++ lit "productType = " ++ [dq] ++ lit "com.apple.product-type.application" ++ [dq] ++ lit ";";
    tabs 2 ++ lit "};";
    lit "/* End PBXNativeTarget section */";
    [];
    lit "/* Begin PBXProject section */";
    tabs 2 ++ project_object_id ++ lit " /* Project object */ = {";
    tabs 3 ++ lit "isa = PBXProject;";
    tabs 3 ++ lit "attributes = {";
    tabs 4 ++ lit "BuildIndependentTargetsInParallel = 1;";
    tabs 4 ++ lit "LastSwiftUpdateCheck = 1600;";
    tabs 4 ++ lit "LastUpgradeCheck = 1600;";
    tabs 4 ++ lit "TargetAttributes = {";
    tabs 5 ++ main_target_id ++ lit " = {";
    tabs 6 ++ lit "CreatedOnToolsVersion = 16.0;";
    tabs 5 ++ lit "};";
    tabs 4 ++ lit "};";
    tabs 3 ++ lit "};";
    tabs 3 ++ lit "buildConfigurationList = " ++ project_config_list_id ++ lit " /* Build configuration list for PBXProject " ++ [dq] ++ lit "VitalSense" ++ [dq] ++ lit " */;";
    tabs 3 ++ lit "developmentRegion = en;";
    tabs 3 ++ lit "hasScannedForEncodings = 0;";
    tabs 3 ++ lit "knownRegions = (";
    tabs 4 ++ lit "en,";
    tabs 4 ++ lit "Base,";
    tabs 3 ++ lit ");";
    tabs 3 ++ lit "mainGroup = " ++ main_group_id ++ lit ";";
    tabs 3 ++ lit "productRefGroup = " ++ products_group_id ++ lit " /* Products */;";
    tabs 3 ++ lit "projectDirPath = " ++ [dq] ++ [dq] ++ lit ";";
    tabs 3 ++ lit "projectRoot = " ++ [dq] ++ [dq] ++ lit ";";
    tabs 3 ++ lit "targets = (";
    tabs 4 ++ main_target_id ++ lit " /* VitalSense */,";
    tabs 3 ++ lit ");";
    tabs 2 ++ lit "};";
    lit "/* End PBXProject section */";
    [];
    lit "/* Begin PBXResourcesBuildPhase section */";
    tabs 2 ++ resources_phase_id ++ lit " /* Resources */ = {";
    tabs 3 ++ lit "isa = PBXResourcesBuildPhase;";
    tabs 3 ++ lit "buildActionMask = 2147483647;";
    tabs 3 ++ lit "files = (";
    join [nl] resource_build_files;
    tabs 3 ++ lit ");";
    tabs 3 ++ lit "runOnlyForDeploymentPostprocessing = 0;";
    tabs 2 ++ lit "};";
    lit "/* End PBXResourcesBuildPhase section */";
    [];
    lit "/* Begin PBXSourcesBuildPhase section */";
    tabs 2 ++ sources_phase_id ++ lit " /* Sources */ = {";
    tabs 3 ++ lit "isa = PBXSourcesBuildPhase;";
    tabs 3 ++ lit "buildActionMask = 2147483647;";
    tabs 3 ++ lit "files = (";
    join [nl] source_build_files;
    tabs 3 ++ lit ");";
    tabs 3 ++ lit "runOnlyForDeploymentPostprocessing = 0;";
    tabs 2 ++ lit "};";
    lit "/* End PBXSourcesBuildPhase section */";
    [];
    lit "/* Begin XCBuildConfiguration section */";
    tabs 2 ++ project_debug_config_id ++ lit " /* Debug */ = {";
    tabs 3 ++ lit "isa = XCBuildConfiguration;";
    tabs 3 ++ lit "buildSettings = {";
    tabs 4 ++ lit "ALWAYS_SEARCH_USER_PATHS = NO;";
    tabs 4 ++ lit "CLANG_ANALYZER_NONNULL = YES;";
    tabs 4 ++ lit "CLANG_ANALYZER_NUMBER_OBJECT_CONVERSION = YES_AGGRESSIVE;";
    tabs 4 ++ lit "CLANG_CXX_LANGUAGE_STANDARD = " ++ [dq] ++ lit "gnu++20" ++ [dq] ++ lit ";";
    tabs 4 ++ lit "CLANG_ENABLE_MODULES = YES;";
    tabs 4 ++ lit "CLANG_ENABLE_OBJC_ARC = YES;";
    tabs 4 ++ lit "CLANG_ENABLE_OBJC_WEAK = YES;";
    tabs 4 ++ lit "CLANG_WARN_DOCUMENTATION_COMMENTS = YES;";
    tabs 4 ++ lit "COPY_PHASE_STRIP = NO;";
    tabs 4 ++ lit "DEBUG_INFORMATION_FORMAT = dwarf;";
    tabs 4 ++ lit "ENABLE_STRICT_OBJC_MSGSEND = YES;";
    tabs 4 ++ lit "ENABLE_TESTABILITY = YES;";
    tabs 4 ++ lit "GCC_C_LANGUAGE_STANDARD = gnu17;";
    tabs 4 ++ lit "GCC_DYNAMIC_NO_PIC = NO;";
    tabs 4 ++ lit "GCC_NO_COMMON_BLOCKS = YES;";
    tabs 4 ++ lit "GCC_OPTIMIZATION_LEVEL = 0;";
    tabs 4 ++ lit "GCC_PREPROCESSOR_DEFINITIONS = (";
    tabs 5 ++ [dq] ++ lit "DEBUG=1" ++ [dq] ++ lit ",";
    tabs 5 ++ [dq] ++ lit "$$(inherited)" ++ [dq] ++ lit ",";
    tabs 4 ++ lit ");";
    tabs 4 ++ lit "IPHONEOS_DEPLOYMENT_TARGET = 18.0;";
    tabs 4 ++ lit "MTL_ENABLE_DEBUG_INFO = INCLUDE_SOURCE;";
    tabs 4 ++ lit "MTL_FAST_MATH = YES;";
    tabs 4 ++ lit "ONLY_ACTIVE_ARCH = YES;";
    tabs 4 ++ lit "SDKROOT = iphoneos;";
    tabs 4 ++ lit "SWIFT_ACTIVE_COMPILATION_CONDITIONS = " ++ [dq] ++ lit "DEBUG $$(inherited)" ++ [dq] ++ lit ";";
    tabs 4 ++ lit "SWIFT_OPTIMIZATION_LEVEL = " ++ [dq] ++ lit "-Onone" ++ [dq] ++ lit ";";
    tabs 4 ++ lit "SWIFT_VERSION = 6.0;";
    tabs 3 ++ lit "};";
    tabs 3 ++ lit "name = Debug;";
    tabs 2 ++ lit "};";
    tabs 2 ++ project_release_config_id ++ lit " /* Release */ = {";
    tabs 3 ++ lit "isa = XCBuildConfiguration;";
    tabs 3 ++ lit "buildSettings = {";
    tabs 4 ++ lit "ALWAYS_SEARCH_USER_PATHS = NO;";
    tabs 4 ++ lit "CLANG_ANALYZER_NONNULL = YES;";
    tabs 4 ++ lit "CLANG_ANALYZER_NUMBER_OBJECT_CONVERSION = YES_AGGRESSIVE;";
    tabs 4 ++ lit "CLANG_CXX_LANGUAGE_STANDARD = " ++ [dq] ++ lit "gnu++20" ++ [dq] ++ lit ";";
    tabs 4 ++ lit "CLANG_ENABLE_MODULES = YES;";
    tabs 4 ++ lit "CLANG_ENABLE_OBJC_ARC = YES;";
    tabs 4 ++ lit "CLANG_ENABLE_OBJC_WEAK = YES;";
    tabs 4 ++ lit "CLANG_WARN_DOCUMENTATION_COMMENTS = YES;";
    tabs 4 ++ lit "COPY_PHASE_STRIP = NO;";
    tabs 4 ++ lit "DEBUG_INFORMATION_FORMAT = " ++ [dq] ++ lit "dwarf-with-dsym" ++ [dq] ++ lit ";";
    tabs 4 ++ lit "ENABLE_NS_ASSERTIONS = NO;";
    tabs 4 ++ lit "ENABLE_STRICT_OBJC_MSGSEND = YES;";
    tabs 4 ++ lit "GCC_C_LANGUAGE_STANDARD = gnu17;";
    tabs 4 ++ lit "GCC_NO_COMMON_BLOCKS = YES;";
    tabs 4 ++ lit "IPHONEOS_DEPLOYMENT_TARGET = 18.0;";
    tabs 4 ++ lit "MTL_ENABLE_DEBUG_INFO = NO;";
    tabs 4 ++ lit "MTL_FAST_MATH = YES;";
    tabs 4 ++ lit "SDKROOT = iphoneos;";
    tabs 4 ++ lit "SWIFT_COMPILATION_MODE = wholemodule;";
    tabs 4 ++ lit "SWIFT_VERSION = 6.0;";
    tabs 4 ++ lit "VALIDATE_PRODUCT = YES;";
    tabs 3 ++ lit "};";
    tabs 3 ++ lit "name = Release;";
    tabs 2 ++ lit "};";
    tabs 2 ++ target_debug_config_id ++ lit " /* Debug */ = {";
    tabs 3 ++ lit "isa = XCBuildConfiguration;";
    tabs 3 ++ lit "buildSettings = {";
    tabs 4 ++ lit "ASSETCATALOG_COMPILER_APPICON_NAME = AppIcon;";
    tabs 4 ++ lit "ASSETCATALOG_COMPILER_GLOBAL_ACCENT_COLOR_NAME = AccentColor;";
    tabs 4 ++ lit "CODE_SIGN_ENTITLEMENTS = VitalSense/VitalSense.entitlements;";
    tabs 4 ++ lit "CODE_SIGN_STYLE = Automatic;";
    tabs 4 ++ lit "CURRENT_PROJECT_VERSION = 1;";
    tabs 4 ++ lit "GENERATE_INFOPLIST_FILE = NO;";
    tabs 4 ++ lit "INFOPLIST_FILE = VitalSense/Info.plist;";
    tabs 4 ++ lit "INFOPLIST_KEY_UIApplicationSupportsIndirectInputEvents = YES;";
    tabs 4 ++ lit "INFOPLIST_KEY_UILaunchStoryboardName = LaunchScreen;";
    tabs 4 ++ lit "INFOPLIST_KEY_UISupportedInterfaceOrientations_iPad = " ++ [dq] ++ lit "UIInterfaceOrientationPortrait UIInterfaceOrientationPortraitUpsideDown UIInterfaceOrientationLandscapeLeft UIInterfaceOrientationLandscapeRight" ++ [dq] ++ lit ";";
    tabs 4 ++ lit "INFOPLIST_KEY_UISupportedInterfaceOrientations_iPhone = " ++ [dq] ++ lit "UIInterfaceOrientationPortrait UIInterfaceOrientationLandscapeLeft UIInterfaceOrientationLandscapeRight" ++ [dq] ++ lit ";";
    tabs 4 ++ lit "LD_RUNPATH_SEARCH_PATHS = (";
    tabs 5 ++ [dq] ++ lit "$$(inherited)" ++ [dq] ++ lit ",";
    tabs 5 ++ [dq] ++ lit "@executable_path/Frameworks" ++ [dq] ++ lit ",";
    tabs 4 ++ lit ");";
    tabs 4 ++ lit "MARKETING_VERSION = 1.0;";
    tabs 4 ++ lit "PRODUCT_BUNDLE_IDENTIFIER = com.vitalsense.app;";
    tabs 4 ++ lit "PRODUCT_NAME = " ++ [dq] ++ lit "$$(TARGET_NAME)" ++ [dq] ++ lit ";";
    tabs 4 ++ lit "SWIFT_EMIT_LOC_STRINGS = YES;";
    tabs 4 ++ lit "TARGETED_DEVICE_FAMILY = " ++ [dq] ++ lit "1,2" ++ [dq] ++ lit ";";
    tabs 3 ++ lit "};";
    tabs 3 ++ lit "name = Debug;";
    tabs 2 ++ lit "};";
    tabs 2 ++ target_release_config_id ++ lit " /* Release */ = {";
    tabs 3 ++ lit "isa = XCBuildConfiguration;";
    tabs 3 ++ lit "buildSettings = {";
    tabs 4 ++ lit "ASSETCATALOG_COMPILER_APPICON_NAME = AppIcon;";
    tabs 4 ++ lit "ASSETCATALOG_COMPILER_GLOBAL_ACCENT_COLOR_NAME = AccentColor;";
    tabs 4 ++ lit "CODE_SIGN_ENTITLEMENTS = VitalSense/VitalSense.entitlements;";
    tabs 4 ++ lit "CODE_SIGN_STYLE = Automatic;";
    tabs 4 ++ lit "CURRENT_PROJECT_VERSION = 1;";
    tabs 4 ++ lit "GENERATE_INFOPLIST_FILE = NO;";
    tabs 4 ++ lit "INFOPLIST_FILE = VitalSense/Info.plist;";
    tabs 4 ++ lit "INFOPLIST_KEY_UIApplicationSupportsIndirectInputEvents = YES;";
    tabs 4 ++ lit "INFOPLIST_KEY_UILaunchStoryboardName = LaunchScreen;";
    tabs 4 ++ lit "INFOPLIST_KEY_UISupportedInterfaceOrientations_iPad = " ++ [dq] ++ lit "UIInterfaceOrientationPortrait UIInterfaceOrientationPortraitUpsideDown UIInterfaceOrientationLandscapeLeft UIInterfaceOrientationLandscapeRight" ++ [dq] ++ lit ";";
    tabs 4 ++ lit "INFOPLIST_KEY_UISupportedInterfaceOrientations_iPhone = " ++ [dq] ++ lit "UIInterfaceOrientationPortrait UIInterfaceOrientationLandscapeLeft UIInterfaceOrientationLandscapeRight" ++ [dq] ++ lit ";";
    tabs 4 ++ lit "LD_RUNPATH_SEARCH_PATHS = (";
    tabs 5 ++ [dq] ++ lit "$$(inherited)" ++ [dq] ++ lit ",";
    tabs 5 ++ [dq] ++ lit "@executable_path/Frameworks" ++ [dq] ++ lit ",";
    tabs 4 ++ lit ");";
    tabs 4 ++ lit "MARKETING_VERSION = 1.0;";
    tabs 4 ++ lit "PRODUCT_BUNDLE_IDENTIFIER = com.vitalsense.app;";
    tabs 4 ++ lit "PRODUCT_NAME = " ++ [dq] ++ lit "$$(TARGET_NAME)" ++ [dq] ++ lit ";";
    tabs 4 ++ lit "SWIFT_EMIT_LOC_STRINGS = YES;";
    tabs 4 ++ lit "TARGETED_DEVICE_FAMILY = " ++ [dq] ++ lit "1,2" ++ [dq] ++ lit ";";
    tabs 3 ++ lit "};";
    tabs 3 ++ lit "name = Release;";
    tabs 2 ++ lit "};";
    lit "/* End XCBuildConfiguration section */";
    [];
    lit "/* Begin XCConfigurationList section */";
    tabs 2 ++ project_config_list_id ++ lit " /* Build configuration list for PBXProject " ++ [dq] ++ lit "VitalSense" ++ [dq] ++ lit " */ = {";
    tabs 3 ++ lit "isa = XCConfigurationList;";
    tabs 3 ++ lit "buildConfigurations = (";
    tabs 4 ++ project_debug_config_id ++ lit " /* Debug */,";
    tabs 4 ++ project_release_config_id ++ lit " /* Release */,";
    tabs 3 ++ lit ");";
    tabs 3 ++ lit "defaultConfigurationIsVisible = 0;";
    tabs 3 ++ lit "defaultConfigurationName = Release;";
    tabs 2 ++ lit "};";
    tabs 2 ++ target_config_list_id ++ lit " /* Build configuration list for PBXNativeTarget " ++ [dq] ++ lit "VitalSense" ++ [dq] ++ lit " */ = {";
    tabs 3 ++ lit "isa = XCConfigurationList;";
    tabs 3 ++ lit "buildConfigurations = (";
    tabs 4 ++ target_debug_config_id ++ lit " /* Debug */,";
    tabs 4 ++ target_release_config_id ++ lit " /* Release */,";
    tabs 3 ++ lit ");";
    tabs 3 ++ lit "defaultConfigurationIsVisible = 0;";
    tabs 3 ++ lit "defaultConfigurationName = Release;";
    tabs 2 ++ lit "};";
    lit "/* End XCConfigurationList section */";
    [];
    tabs 1 ++ lit "};";
    tabs 1 ++ lit "rootObject = " ++ project_object_id ++ lit " /* Project object */;";
    lit "}" ].

(** The fifteen identifiers of the fixed objects, in allocation order. *)
Record fixed_ids : Type := FixedIds {
  main_group_id : str;
  products_group_id : str;
  vitalsense_group_id : str;
  main_target_id : str;
  main_product_id : str;
  sources_phase_id : str;
  frameworks_phase_id : str;
  resources_phase_id : str;
  target_config_list_id : str;
  project_config_list_id : str;
  target_debug_config_id : str;
  target_release_config_id : str;
  project_debug_config_id : str;
  project_release_config_id : str;
  project_object_id : str
}.

Definition generate_fixed_ids : M fixed_ids :=
  let! main_group_id := generate_id in
  let! products_group_id := generate_id in
  let! vitalsense_group_id := generate_id in
  let! main_target_id := generate_id in
  let! main_product_id := generate_id in
  let! sources_phase_id := generate_id in
  let! frameworks_phase_id := generate_id in
  let! resources_phase_id := generate_id in
  let! target_config_list_id := generate_id in
  let! project_config_list_id := generate_id in
  let! target_debug_config_id := generate_id in
  let! target_release_config_id := generate_id in
  let! project_debug_config_id := generate_id in
  let! project_release_config_id := generate_id in
  let! project_object_id := generate_id in
  ret (FixedIds main_group_id products_group_id vitalsense_group_id
         main_target_id main_product_id sources_phase_id frameworks_phase_id
         resources_phase_id target_config_list_id project_config_list_id
         target_debug_config_id target_release_config_id
         project_debug_config_id project_release_config_id
         project_object_id).

(** The lists built by [build_smart_project] before the text is laid
    out: the identifiers, the four sections and the children of the
    content group. *)
Definition build_sections (files : list file_info)
    : M (fixed_ids * sections * list str) :=
  let! ids := generate_fixed_ids in
  let start :=
    Sections [product_reference (main_product_id ids)] [] [] [] in
  let! secs := process_files start files in
  fun b => (ids, secs, map (file_child_line b) files, b).

Definition build_smart_project (files : list file_info) : M str :=
  let! built := build_sections files in
  let '(ids, secs, file_children) := built in
  ret (project_content
         (main_group_id ids) (products_group_id ids)
         (vitalsense_group_id ids) (main_target_id ids)
         (main_product_id ids) (sources_phase_id ids)
         (frameworks_phase_id ids) (resources_phase_id ids)
         (target_config_list_id ids) (project_config_list_id ids)
         (target_debug_config_id ids) (target_release_config_id ids)
         (project_debug_config_id ids) (project_release_config_id ids)
         (project_object_id ids)
         (build_file_entries secs) (file_references secs) file_children
         (resource_build_files secs) (source_build_files secs)).

(** [import_project]: scan, build, and the text written to
    [project.pbxproj]. *)
Definition import_project (source_tree : list entry) : M str :=
  build_smart_project (scan_smart_files source_tree).

(** ** Vocabulary for the statements about the builder *)

(** The identifier that [generate_id] returns when it moves the counter
    to [counter]. *)
Definition id_of (counter : N) : str := lit "AB" ++ format_022X counter.

(** The number that a string of hexadecimal digits writes. *)
Definition hex_val (c : N) : N :=
  if (c <? 58)%N then (c - 48)%N else (c - 55)%N.

Definition hex_value (s : str) : N :=
  foldl (fun acc c => (acc * 16 + hex_val c)%N) 0%N s.

(** [n] calls of [generate_id] in a row, and what they return. *)
Fixpoint generate_ids (n : nat) : M (list str) :=
  match n with
  | O => ret []
  | S n' =>
      let! id := generate_id in
      let! rest := generate_ids n' in
      ret (id :: rest)
  end.

(** The identifier that a declaration line of the manifest opens with:
    the hexadecimal token after the two tabs. *)
Fixpoint hex_prefix (s : str) : str :=
  match s with
  | c :: s' => if Re.is_hex c then c :: hex_prefix s' else []
  | [] => []
  end.

Definition declared_id (line : str) : str := hex_prefix (drop 2 line).

Definition fixed_list (ids : fixed_ids) : list str :=
  [ main_group_id ids; products_group_id ids; vitalsense_group_id ids;
    main_target_id ids; main_product_id ids; sources_phase_id ids;
    frameworks_phase_id ids; resources_phase_id ids;
    target_config_list_id ids; project_config_list_id ids;
    target_debug_config_id ids; target_release_config_id ids;
    project_debug_config_id ids; project_release_config_id ids;
    project_object_id ids ].

(** Whether an item goes to a build phase. *)
Definition is_source (f : file_info) : bool :=
  str_eqb (category f) (lit "source").
Definition is_resource (f : file_info) : bool :=
  negb (is_source f) && str_eqb (category f) (lit "resource").
Definition in_build_phase (f : file_info) : bool :=
  is_source f || is_resource f.

(** The counter values [start + 1], ..., [start + n]. *)
Definition counters (start : N) (n : nat) : list N :=
  map (fun i => (start + N.of_nat (S i))%N) (seq 0 n).

(** The identifiers issued so far are those of consecutive counter
    values, the last of which is the counter. *)
Definition well_issued (b : builder) : Prop :=
  exists start n,
    id_counter b = (start + N.of_nat n)%N
    /\ issued b = map id_of (counters start n).

Definition no_sections : sections := Sections [] [] [] [].

Definition sections_app (a d : sections) : sections :=
  Sections (file_references a ++ file_references d)
           (build_file_entries a ++ build_file_entries d)
           (source_build_files a ++ source_build_files d)
           (resource_build_files a ++ resource_build_files d).

(** The build phase of an item that has one. *)
Definition phase_of (f : file_info) : str :=
  if is_source f then lit "Sources" else lit "Resources".

(** ** Sample directories *)

(** The directory of the example in the specification. *)
Definition spec_tree : list entry :=
  [ File (lit "App.swift");
    Dir (lit "Core") [File (lit "Model.swift")];
    Dir (lit "Tests") [File (lit "ModelTests.swift")];
    File (lit "Assets.xcassets");
    File (lit "App.entitlements") ].

(** The same directory with the entry point and the entitlements under
    the names that the classifier knows. *)
Definition app_tree : list entry :=
  [ File (lit "VitalSenseApp.swift");
    Dir (lit "Core") [File (lit "Model.swift")];
    Dir (lit "Tests") [File (lit "ModelTests.swift")];
    File (lit "Assets.xcassets");
    File (lit "VitalSense.entitlements") ].

End Smart.

(* ===================================================================== *)
(** * The objects that a manifest declares                                *)
(* ===================================================================== *)

(** [build_smart_project] builds text only.  This module names the
    objects that its two declaration sections declare, as records, and
    reads them back from the text.  The reader is no part of the
    repository: it is the means to show what the text determines. *)
Module Graph.
Import Py Re Smart.

Record file_reference : Type := FileReference {
  fr_id : str;
  fr_name : str;
  fr_type : str;
  fr_path : str
}.

Record build_file_entry : Type := BuildFileEntry {
  bf_id : str;
  bf_name : str;
  bf_phase : str;
  bf_file_ref : str
}.

Record objects : Type := Objects {
  product : str;
  references : list file_reference;
  entries : list build_file_entry
}.

(** The objects that the loop of [build_smart_project] declares when the
    counter stands at [counter]: a FileReference for every item and,
    after it, a BuildFileEntry for an item of a build phase. *)
Fixpoint declare (counter : N) (files : list file_info)
    : list file_reference * list build_file_entry :=
  match files with
  | [] => ([], [])
  | f :: files' =>
      let rid := id_of (counter + 1) in
      let r := FileReference rid (name f) (type f) (path f) in
      if in_build_phase f then
        let bid := id_of (counter + 1 + 1) in
        let '(rs, es) := declare (counter + 1 + 1) files' in
        (r :: rs, BuildFileEntry bid (name f) (phase_of f) rid :: es)
      else
        let '(rs, es) := declare (counter + 1) files' in
        (r :: rs, es)
  end.

(** The objects of a run from a new builder: the product is the fifth
    identifier, the items start after the fifteenth. *)
Definition object_graph (files : list file_info) : objects :=
  let '(rs, es) := declare (0x2000 + 15) files in
  Objects (id_of (0x2000 + 5)) rs es.

(** The lines that declare them. *)
Definition reference_line (r : file_reference) : str :=
  file_reference_line (fr_id r)
    (FileInfo (fr_path r) (fr_name r) (fr_type r) []).

Definition entry_line (e : build_file_entry) : str :=
  build_file_line (bf_phase e) (bf_id e) (bf_file_ref e)
    (FileInfo [] (bf_name e) [] []).

(** What the text shows of an item: its name, type and path, and the
    build phase it is a member of, if any. *)
Definition item_view (f : file_info) : str * str * str * option str :=
  (name f, type f, path f,
   if in_build_phase f then Some (phase_of f) else None).

(** ** A reader of the declaration sections *)

(** [s] without the prefix [p] *)
Fixpoint strip_prefix (p s : str) : option str :=
  match p, s with
  | [], _ => Some s
  | _ :: _, [] => None
  | a :: p', b :: s' => if (a =? b)%N then strip_prefix p' s' else None
  end.

(** [s] without the character [c] at its end *)
Definition strip_last (c : N) (s : str) : option str :=
  match rev s with
  | x :: r => if (x =? c)%N then Some (rev r) else None
  | [] => None
  end.

(** [s] cut at its first [c] *)
Fixpoint split_first (c : N) (s : str) : option (str * str) :=
  match s with
  | [] => None
  | x :: s' =>
      if (x =? c)%N then Some ([], s')
      else match split_first c s' with
           | Some (a, b) => Some (x :: a, b)
           | None => None
           end
  end.

Definition star : N := 42%N.        (* '*' *)
Definition semicolon : N := 59%N.   (* ';' *)
Definition space : N := 32%N.

(** The identifier that opens a declaration line, and what follows the
    comment opener after it. *)
Definition read_id (line : str) : option (str * str) :=
  s ← strip_prefix [tab; tab] line;
  let id := hex_prefix s in
  s ← strip_prefix (lit " /* ") (drop (length id) s);
  Some (id, s).

Definition read_file_reference (line : str) : option file_reference :=
  '(id, s) ← read_id line;
  '(name_sp, s) ← split_first star s;
  name ← strip_last space name_sp;
  s ← strip_prefix
        (lit "/ = {isa = PBXFileReference; lastKnownFileType = ") s;
  '(type, s) ← split_first semicolon s;
  s ← strip_prefix (lit " path = " ++ [dq]) s;
  '(path, s) ← split_first dq s;
  if str_eqb s (lit "; sourceTree = " ++ [dq] ++ lit "<group>" ++ [dq]
                ++ lit "; };")
  then Some (FileReference id name type path) else None.

Definition read_build_file (line : str) : option build_file_entry :=
  '(id, s) ← read_id line;
  '(label_sp, s) ← split_first star s;
  s ← strip_prefix (lit "/ = {isa = PBXBuildFile; fileRef = ") s;
  let rid := hex_prefix s in
  s ← strip_prefix (lit " /* ") (drop (length rid) s);
  '(name_sp, s) ← split_first star s;
  name ← strip_last space name_sp;
  phase_sp ← strip_prefix (name ++ lit " in ") label_sp;
  phase ← strip_last space phase_sp;
  if str_eqb s (lit "/; };")
     && (str_eqb phase (lit "Sources") || str_eqb phase (lit "Resources"))
  then Some (BuildFileEntry id name phase rid) else None.

Definition read_product (line : str) : option str :=
  s ← strip_prefix [tab; tab] line;
  let id := hex_prefix s in
  if str_eqb (drop (length id) s)
       (lit " /* VitalSense.app */ = {isa = PBXFileReference; explicitFileType = wrapper.application; includeInIndex = 0; path = VitalSense.app; sourceTree = BUILT_PRODUCTS_DIR; };")
  then Some id else None.

(** The lines after the first line equal to [marker], and the lines
    before it. *)
Fixpoint after_line (marker : str) (ls : list str) : option (list str) :=
  match ls with
  | [] => None
  | l :: ls' => if str_eqb l marker then Some ls' else after_line marker ls'
  end.

Fixpoint before_line (marker : str) (ls : list str) : option (list str) :=
  match ls with
  | [] => None
  | l :: ls' =>
      if str_eqb l marker then Some []
      else match before_line marker ls' with
           | Some before => Some (l :: before)
           | None => None
           end
  end.

(** The lines of a section of the manifest, between its two markers. *)
Definition begin_marker (isa : string) : str :=
  lit "/* Begin " ++ lit isa ++ lit " section */".
Definition end_marker (isa : string) : str :=
  lit "/* End " ++ lit isa ++ lit " section */".

Definition section (isa : string) (ls : list str) : option (list str) :=
  ls' ← after_line (begin_marker isa) ls;
  before_line (end_marker isa) ls'.

Definition read_objects (text : str) : option objects :=
  let ls := split_on nl text in
  bs ← section "PBXBuildFile" ls;
  rs ← section "PBXFileReference" ls;
  match rs with
  | [] => None
  | first :: rs' =>
      p ← read_product first;
      rs'' ← mapM read_file_reference rs';
      bs' ← mapM read_build_file (filter (fun l => l <> []) bs);
      Some (Objects p rs'' bs')
  end.

(** The eight lines that open the template. *)
Definition preamble : list str :=
  [ lit "// !$*UTF8*$!"; lit "{"; tabs 1 ++ lit "archiveVersion = 1;";
    tabs 1 ++ lit "classes = {"; tabs 1 ++ lit "};";
    tabs 1 ++ lit "objectVersion = 77;"; tabs 1 ++ lit "objects = {"; [] ].

(** A line that does not open with a slash is no marker of a section. *)
Definition unmarked (l : str) : Prop := head l <> Some slash.

(** What the reader needs of a line: it reads back as the object, it is
    one line, it is no marker and it is not empty. *)
Definition reads_as {A} (read : str -> option A) (line : str) (x : A)
    : Prop :=
  read line = Some x /\ (nl ∉ line) /\ unmarked line /\ line <> [].

(** ** Plain items *)

(** Items whose fields hold none of the characters that close them in
    a declaration line: no line break anywhere, no star in the name, no
    semicolon in the type, no double quote in the path. *)
Definition has (c : N) (s : str) : bool := existsb (N.eqb c) s.

Definition plain_item (f : file_info) : bool :=
  negb (has nl (name f)) && negb (has star (name f))
  && negb (has nl (type f)) && negb (has semicolon (type f))
  && negb (has nl (path f)) && negb (has dq (path f)).

(** ** Sample directories *)

(** Two directories with a directory whose name holds the end of a
    FileReference declaration and the start of the next one.  The pieces
    between slashes are names of directories. *)
Definition declaration_seam (folder : string) : list str :=
  [ lit "Model.swift" ++ [dq] ++ lit "; sourceTree = " ++ [dq]
      ++ lit "<group>" ++ [dq] ++ lit "; };" ++ [nl] ++ tabs 2
      ++ lit "AB0000000000000000002012 ";
    lit "* View.swift *";
    lit " = {isa = PBXFileReference; lastKnownFileType = sourcecode.swift; path = "
      ++ [dq] ++ lit folder ].

Fixpoint nest (dirs : list str) (inner : list entry) : list entry :=
  match dirs with
  | [] => inner
  | d :: dirs' => [Dir d (nest dirs' inner)]
  end.

Definition seam_in_first_path : list entry :=
  [ Dir (lit "Core")
      (nest (declaration_seam "Core") [File (lit "Model.swift")]);
    Dir (lit "Features") [File (lit "View.swift")] ].

Definition seam_in_second_path : list entry :=
  [ Dir (lit "Core")
      (File (lit "Model.swift")
       :: nest (declaration_seam "Features") [File (lit "View.swift")]) ].

(** The items of [app_tree] as the scan lists them, and the same items
    with the category of the entitlements file replaced. *)
Definition recategorized (files : list file_info) : list file_info :=
  map (fun f => if str_eqb (category f) (lit "entitlements")
                then FileInfo (path f) (name f) (type f) (lit "other")
                else f) files.

End Graph.

(* ===================================================================== *)
(** * The allocators of the other builders                                *)
(* ===================================================================== *)

(** [generate_id] is the same method, word for word, in the four builder
    classes of the repository ([SmartXcodeProjectBuilder],
    [XcodeProjectBuilder], [FinalXcodeProjectBuilder] and
    [WorkingProjectBuilder]); the classes differ in the value from which
    the counter starts.  The method reads and writes the counter only, so
    that the record of the smart builder serves for all of them. *)
Module Allocators.
Import Py Smart.

(** [XcodeProjectBuilder(...)], in [automated_project_import.py] *)
Definition automated_builder : builder := Builder ∅ ∅ 0x1000 [].

(** [FinalXcodeProjectBuilder(...)], in [final_project_fix.py] *)
Definition final_builder : builder := Builder ∅ ∅ 0x3000 [].

(** [WorkingProjectBuilder(...)], in [working_project_builder.py] *)
Definition working_builder : builder := Builder ∅ ∅ 0x5000 [].

End Allocators.

(* ===================================================================== *)
(** * References between the lines of a manifest                          *)
(* ===================================================================== *)

Module Links.
Import Py Smart.

(** The line of a child of the content group:
    [f'\t\t\t\t{rid} /* {f["name"]} */,']. *)
Definition child_line (rid : str) (f : file_info) : str :=
  tabs 4 ++ rid ++ lit " /* " ++ name f ++ lit " */,".

(** Sections in which every reference resolves: a BuildFileEntry names
    the FileReference of its own item, and a member of a phase is a
    BuildFileEntry of that phase. *)
Definition entry_resolves (s : sections) (line : str) : Prop :=
  exists f bid rid,
    line = build_file_line (phase_of f) bid rid f
    /\ file_reference_line rid f ∈ file_references s.

Definition member_resolves (phase : str) (s : sections) (line : str)
    : Prop :=
  exists f bid rid,
    line = phase_member_line phase bid f
    /\ build_file_line phase bid rid f ∈ build_file_entries s.

Definition linked (s : sections) : Prop :=
  Forall (entry_resolves s) (build_file_entries s)
  /\ Forall (member_resolves (lit "Sources") s) (source_build_files s)
  /\ Forall (member_resolves (lit "Resources") s) (resource_build_files s).

(** The number of identifiers that a run allocates for [files]. *)
Definition identifiers_needed (files : list file_info) : nat :=
  15 + length files + length (filter (fun f => in_build_phase f = true) files).

End Links.

(* ===================================================================== *)
(** * Vocabulary for the walk over the source directory                   *)
(* ===================================================================== *)

Module Walk.
Import Py Smart.

(** [file] is listed in the directory that the components [dirs] lead
    to from the entries [es]. *)
Fixpoint holds (es : list entry) (dirs : list str) (file : str) : Prop :=
  match dirs with
  | [] => File file ∈ es
  | d :: dirs' => exists sub, Dir d sub ∈ es /\ holds sub dirs' file
  end.

(** No name on the way to a file of the tree has a slash. *)
Definition plain_names (es : list entry) : Prop :=
  forall dirs file,
    holds es dirs file -> Forall (fun x => slash ∉ x) (dirs ++ [file]).

(** A name that a file can have: not empty, not a single dot, without
    a slash. *)
Definition file_name_ok (file : str) : Prop :=
  file <> [] /\ file <> [dot] /\ (slash ∉ file).

(** The four kinds of items that [scan_smart_files] builds: the type
    and the category that go together. *)
Definition item_kinds : list (str * str) :=
  [ (lit "sourcecode.swift", lit "source");
    (lit "text.plist.xml", lit "resource");
    (lit "text.plist.entitlements", lit "entitlements");
    (lit "folder.assetcatalog", lit "resource") ].

End Walk.

(* ===================================================================== *)
(** * Vocabulary for further statements about the repair                  *)
(* ===================================================================== *)

Module Repaired.
Import Py Re Dedup.

(** A line that none of the three patterns matches. *)
Definition matches_no_pattern (line : str) : bool :=
  match classify line with
  | Plain => true
  | _ => false
  end.

(** A BuildFileEntry declaration and the membership line of the
    Sources phase that refers to it. *)
Definition model_declaration : str :=
  [tab; tab] ++ lit "AB0000000000000000002011 /* Model.swift in Sources */ = {isa = PBXBuildFile; fileRef = AB0000000000000000002010 /* Model.swift */; };".

Definition model_member : str :=
  [tab; tab; tab; tab]
  ++ lit "AB0000000000000000002011 /* Model.swift in Sources */,".

Definition sources_manifest : str :=
  join [nl] [ model_declaration; lit "files = ("; model_member; lit ");" ].

(** ** Manifests that the repair leaves alone *)

(** No label comes twice under one of the three patterns: none is
    declared twice as a FileReference, none twice as a BuildFileEntry,
    and none stands on two membership lines. *)
Definition no_label_twice (ls : list str) : Prop :=
  NoDup (fileref_keys ls)
  /\ NoDup (build_decls ls).*1
  /\ NoDup (phase_entries ls).*1.

(** Every membership line carries the identifier under which a line
    before it declared its label as a BuildFileEntry, if one did: the
    test of the third branch of the loop never fires. *)
Definition members_agree (ls : list str) : Prop :=
  forall before line after key ref_id declared_id,
    ls = before ++ line :: after ->
    classify line = PhaseEntry key ref_id ->
    (key, declared_id) ∈ build_decls before ->
    declared_id = ref_id.

(** The lines of which the loop drops none. *)
Definition nothing_to_remove (ls : list str) : Prop :=
  NoDup (fileref_keys ls)
  /\ NoDup (build_decls ls).*1
  /\ members_agree ls.

(** The same for a loop that starts from [st]: the labels that [st]
    has seen count as declared. *)
Definition nothing_to_remove_from (st : scan_state) (ls : list str) : Prop :=
  NoDup (fileref_keys ls)
  /\ (forall key, key ∈ fileref_keys ls -> seen_refs st !! key = None)
  /\ NoDup (build_decls ls).*1
  /\ (forall key, key ∈ (build_decls ls).*1 ->
        seen_build_refs st !! key = None)
  /\ (forall before line after key ref_id declared_id,
        ls = before ++ line :: after ->
        classify line = PhaseEntry key ref_id ->
        seen_build_refs st !! key = Some declared_id
        \/ (key, declared_id) ∈ build_decls before ->
        declared_id = ref_id).

(** The membership line of [Model.swift] under an identifier that no
    declaration has. *)
Definition stray_member : str :=
  [tab; tab; tab; tab]
  ++ lit "AB0000000000000000002013 /* Model.swift in Sources */,".

(** One BuildFileEntry declaration and one membership line of the same
    label under another identifier. *)
Definition stray_member_manifest : str :=
  join [nl] [ model_declaration; lit "files = ("; stray_member; lit ");" ].

(** [stray_member_manifest] without its membership line. *)
Definition stray_member_removed : str :=
  join [nl] [ model_declaration; lit "files = ("; lit ");" ].

(** ** The collapse of blank lines, line by line *)

(** The blank lines that open [ls] and are followed by a further line:
    the lines that [leading_breaks] counts in the text of [ls]. *)
Fixpoint leading_blank_lines (ls : list str) : nat :=
  match ls with
  | l :: ((_ :: _) as rest) =>
      if is_blank l then S (leading_blank_lines rest) else 0
  | _ => 0
  end.

(** What the collapse is to do, told on lines.  A line followed by two
    or more blank lines that are each followed by a further line is
    kept, one empty line is put after it, and these blank lines are
    passed over ([skipping]); every other line is kept as it is. *)
Fixpoint squeeze (skipping : bool) (ls : list str) : list str :=
  match ls with
  | [] => []
  | l :: rest =>
      if skipping && (0 <? leading_blank_lines ls)%nat then squeeze true rest
      else if (2 <=? leading_blank_lines rest)%nat
           then l :: [] :: squeeze true rest
           else l :: squeeze false rest
  end.

(** Two declarations of [Utils.swift] with an empty line between them
    and a line of one tab after the second. *)
Definition spaced_manifest : str :=
  join [nl] [ first_utils; []; second_utils; [tab];
              lit "/* End PBXFileReference section */" ].

End Repaired.

(* ===================================================================== *)
(** * The targeted repair: [fix_specific_duplicates.py]                   *)
(* ===================================================================== *)

Module Targeted.
Import Py Re Dedup.

(** [f.readlines()] on a file opened in text mode: the text cut after
    every line feed, each line with its line feed; a last line without
    one is kept as it is. *)
Fixpoint readlines (s : str) : list str :=
  match s with
  | [] => []
  | c :: s' =>
      if (c =? nl)%N then [nl] :: readlines s'
      else match readlines s' with
           | [] => [[c]]
           | l :: ls => (c :: l) :: ls
           end
  end.

Definition duplicate_refs : list str :=
  [ lit "AB020020"; lit "AB02005E"; lit "AB020061" ].

(** The first reference of the list for which [f'fileRef = {ref}'] occurs
    in the line: the one at which the inner loop breaks. *)
Definition first_hit (line : str) : option str :=
  List.find (fun ref => contains (lit "fileRef = " ++ ref) line)
            duplicate_refs.

(** The local variables of the loop over the lines. *)
Record pass : Type := Pass {
  seen : gset str;
  kept : list str;
  removed_count : nat
}.

Definition pass_init : pass := Pass ∅ [] 0.

(** One iteration of [for line in lines]. *)
Definition visit (st : pass) (line : str) : pass :=
  match first_hit line with
  | Some ref =>
      if bool_decide (ref ∈ seen st)
      then Pass (seen st) (kept st) (removed_count st + 1)
      else Pass ({[ ref ]} ∪ seen st) (kept st ++ [line]) (removed_count st)
  | None => Pass (seen st) (kept st ++ [line]) (removed_count st)
  end.

Section Files.
Variable fault : str -> write_fault.

(** [remove_specific_duplicates(file_path)].  Nothing catches a failed
    read or a failed write; the file is written in every run, with the
    lines kept one after the other ([f.writelines]). *)
Definition remove_specific_duplicates (w : world) (file_path : str)
    : world * outcome :=
  match files w !! file_path with
  | None => (w, Raised)
  | Some stored =>
      let lines := readlines (universal_newlines stored) in
      let st := foldl visit pass_init lines in
      let '(w1, ok) := write_file fault w file_path (concat (kept st)) in
      if ok then (w1, Returned (0 <? removed_count st)%nat)
      else (w1, Raised)
  end.
End Files.

(** The lines that a pass keeps when it has seen [s]. *)
Fixpoint retained (s : gset str) (ls : list str) : list str :=
  match ls with
  | [] => []
  | l :: ls' =>
      match first_hit l with
      | Some ref =>
          if bool_decide (ref ∈ s) then retained s ls'
          else l :: retained ({[ ref ]} ∪ s) ls'
      | None => l :: retained s ls'
      end
  end.

(** A line without any of the targeted references. *)
Definition untargeted (line : str) : bool :=
  match first_hit line with
  | Some _ => false
  | None => true
  end.

(** Lines as [readlines] cuts them: every line but the last ends in
    its only line feed, and the last either does so as well or is not
    empty and holds no line feed. *)
Definition terminated (l : str) : Prop :=
  exists body, l = body ++ [nl] /\ (nl ∉ body).

Definition unterminated (l : str) : Prop := l <> [] /\ (nl ∉ l).

Fixpoint well_cut (ls : list str) : Prop :=
  match ls with
  | [] => True
  | l :: ls' =>
      match ls' with
      | [] => terminated l \/ unterminated l
      | _ :: _ => terminated l /\ well_cut ls'
      end
  end.

(** A manifest in which two entries point to [AB020020]. *)
Definition twice_referenced : str :=
  lit "1 = {isa = PBXBuildFile; fileRef = AB020020; };" ++ [nl]
  ++ lit "2 = {isa = PBXBuildFile; fileRef = AB020099; };" ++ [nl]
  ++ lit "3 = {isa = PBXBuildFile; fileRef = AB020020; };" ++ [nl].

(** A text with CR LF line ends and without targeted references. *)
Definition dos_text : str :=
  lit "objects = {" ++ [cr; nl] ++ lit "};" ++ [cr; nl].

Definition project_path : str := lit "VitalSense.xcodeproj/project.pbxproj".

End Targeted.

(* ===================================================================== *)
(** * The scan of [automated_project_import.py]                           *)
(* ===================================================================== *)

Module Automated.
Import Py Smart.

Definition excluded_dirs : list str :=
  [ lit ".git"; lit "build"; lit "DerivedData"; lit ".DS_Store";
    lit "__pycache__"; lit "VitalSense.xcodeproj" ].

Definition excluded_files : list str :=
  [ lit ".DS_Store"; lit "build.log"; lit "audit.out";
    lit "build_fix.log"; lit "build_full.log" ].

(** The body of [for file in files], for the directory whose path
    relative to the source root has the components [root]. *)
Definition scan_file (root : list str) (file : str) : list file_info :=
  if in_list file excluded_files then []
  else
    let relative_path := join [slash] (root ++ [file]) in
    let suffix := lower (path_suffix relative_path) in
    if str_eqb suffix (lit ".swift") then
      [FileInfo relative_path file (lit "sourcecode.swift") (lit "source")]
    else if in_list suffix [lit ".plist"] then
      [FileInfo relative_path file (lit "text.plist.xml") (lit "resource")]
    else if str_eqb suffix (lit ".entitlements") then
      [FileInfo relative_path file (lit "text.plist.entitlements")
                (lit "resource")]
    else if str_eqb file (lit "Assets.xcassets") then
      [FileInfo relative_path file (lit "folder.assetcatalog")
                (lit "resource")]
    else [].

(** [dirs[:] = [d for d in dirs if d not in excluded_dirs]] *)
Definition walk_into (d : str) : bool := negb (in_list d excluded_dirs).

Definition scan_files_of (root : list str) (es : list entry)
    : list file_info :=
  flat_map (fun e => match e with
                     | File f => scan_file root f
                     | Dir _ _ => []
                     end) es.

Fixpoint scan_below (root : list str) (e : entry) : list file_info :=
  match e with
  | File _ => []
  | Dir d sub =>
      if walk_into d then
        scan_files_of (root ++ [d]) sub
        ++ flat_map (scan_below (root ++ [d])) sub
      else []
  end.

Definition scan_source_files (source_tree : list entry) : list file_info :=
  scan_files_of [] source_tree ++ flat_map (scan_below []) source_tree.

End Automated.

(* ===================================================================== *)
(** * The scan of [final_project_fix.py]                                  *)
(* ===================================================================== *)

Module Final.
Import Py Smart.

(** [s.endswith(p)] *)
Definition endswith (p s : str) : bool := startswith (rev p) (rev s).

Definition core_swift_files : list str :=
  [ lit "VitalSenseApp.swift"; lit "VitalSenseBrand.swift";
    lit "VitalSenseComponents.swift";
    lit "Core/Logging/Log.swift"; lit "Core/Logging/RollingLogWriter.swift";
    lit "Core/Extensions/HealthKitExtensions.swift";
    lit "Core/Managers/HealthKitManager.swift";
    lit "Core/Managers/SecurityManager.swift";
    lit "Core/Managers/ApiClient.swift";
    lit "Core/Models/GaitAnalysisModels.swift";
    lit "Core/Models/AdvancedHealthMetrics.swift";
    lit "Configuration/AppConfig.swift";
    lit "Configuration/EnhancedAppConfig.swift";
    lit "Features/GaitAnalysis/GaitAnalysisView.swift";
    lit "Features/HealthDashboard/HealthDashboardView.swift" ].

Definition skipped_dirs : list str :=
  [ lit "VitalSense"; lit "VitalSenseWatch"; lit "VitalSenseWidgets";
    lit "VitalSenseTests"; lit "VitalSenseUITests"; lit ".git"; lit "build" ].

Definition side_markers : list str :=
  [ lit "Test"; lit "Watch"; lit "Widget"; lit "Bridge" ].

(** The condition under which a Swift file is taken. *)
Definition is_core_file (path_str file : str) : bool :=
  in_list file main_app_files
  || existsb (fun core_file => contains core_file path_str) core_swift_files
  || (startswith (lit "Core/") path_str
      && negb (existsb (fun x => contains x path_str) side_markers)).

(** The body of [for file in files]. *)
Definition scan_file (root : list str) (file : str) : list file_info :=
  if endswith (lit ".swift") file then
    let path_str := join [slash] (root ++ [file]) in
    if is_core_file path_str file then
      [FileInfo path_str file (lit "sourcecode.swift") (lit "source")]
    else []
  else [].

Definition walk_into (d : str) : bool := negb (in_list d skipped_dirs).

Definition scan_files_of (root : list str) (es : list entry)
    : list file_info :=
  flat_map (fun e => match e with
                     | File f => scan_file root f
                     | Dir _ _ => []
                     end) es.

Fixpoint scan_below (root : list str) (e : entry) : list file_info :=
  match e with
  | File _ => []
  | Dir d sub =>
      if walk_into d then
        scan_files_of (root ++ [d]) sub
        ++ flat_map (scan_below (root ++ [d])) sub
      else []
  end.

(** [(self.source_path / 'Assets.xcassets').exists()]: a file or a
    directory of that name in the source directory. *)
Definition has_entry (name : str) (es : list entry) : bool :=
  existsb (fun e => match e with
                    | File f => str_eqb f name
                    | Dir d _ => str_eqb d name
                    end) es.

Definition assets_item : file_info :=
  FileInfo (lit "Assets.xcassets") (lit "Assets.xcassets")
           (lit "folder.assetcatalog") (lit "resource").

Definition scan_core_files (source_tree : list entry) : list file_info :=
  scan_files_of [] source_tree ++ flat_map (scan_below []) source_tree
  ++ (if has_entry (lit "Assets.xcassets") source_tree
      then [assets_item] else []).

(** A source directory with the entry point, a file of the core, a
    property list and the asset catalogue as a directory. *)
Definition core_tree : list entry :=
  [ File (lit "VitalSenseApp.swift");
    File (lit "Info.plist");
    Dir (lit "Core") [ Dir (lit "Models") [File (lit "Gait.swift")];
                       File (lit "WatchLink.swift") ];
    Dir (lit "Assets.xcassets") [File (lit "Contents.json")] ].

End Final.

(* ===================================================================== *)
(** * Proofs                                                              *)
(* ===================================================================== *)

Module ModelChecks.
Import Py Re Dedup Smart.

(** The model on concrete inputs, against what Python gives. *)

(** ['a\n\nb\n'.split('\n') == ['a', '', 'b', '']] *)
Example split_lines :
  split_on nl (lit "a" ++ [nl; nl] ++ lit "b" ++ [nl])
  = [lit "a"; []; lit "b"; []].
Proof. reflexivity. Qed.

(** ['\n'.join(['a', '', 'b', '']) == 'a\n\nb\n'] *)
Example join_lines :
  join [nl] [lit "a"; []; lit "b"; []]
  = lit "a" ++ [nl; nl] ++ lit "b" ++ [nl].
Proof. reflexivity. Qed.

(** ['  Utils.swift \t'.strip() == 'Utils.swift'] *)
Example strip_label : strip (lit "  Utils.swift " ++ [tab]) = lit "Utils.swift".
Proof. reflexivity. Qed.

(** ['a/VitalSense/b/VitalSense/'.replace('VitalSense/', '') == 'a/b/'] *)
Example replace_twice :
  remove_all (lit "VitalSense/") (lit "a/VitalSense/b/VitalSense/")
  = lit "a/b/".
Proof. reflexivity. Qed.

(** A file with CR LF line ends and a lone CR is read with line feeds. *)
Example read_crlf :
  universal_newlines (lit "a" ++ [cr; nl] ++ lit "b" ++ [cr] ++ lit "c")
  = lit "a" ++ [nl] ++ lit "b" ++ [nl] ++ lit "c".
Proof. reflexivity. Qed.

(** The groups of the FileReference pattern on a declaration line. *)
Example fileref_groups :
  re_match 3 fileref_re first_utils
  = Some [ Some [tab; tab]; Some (lit "AB0000000000000000002010");
           Some (lit "Utils.swift") ].
Proof. vm_compute. reflexivity. Qed.

(** A BuildFileEntry of the Sources phase is keyed by the file name; one
    of the Resources phase by the whole comment, since the optional
    group of the pattern only knows [in Sources]. *)
Example buildfile_keys :
  classify (build_file_line (lit "Sources") (id_of 0x2011) (id_of 0x2010)
              (FileInfo (lit "Core/Model.swift") (lit "Model.swift")
                        (lit "sourcecode.swift") (lit "source")))
  = BuildFileDecl (lit "Model.swift") (id_of 0x2011)
  /\ classify (build_file_line (lit "Resources") (id_of 0x2013) (id_of 0x2012)
                 (FileInfo (lit "Assets.xcassets") (lit "Assets.xcassets")
                           (lit "folder.assetcatalog") (lit "resource")))
     = BuildFileDecl (lit "Assets.xcassets in Resources") (id_of 0x2013).
Proof. vm_compute. split; reflexivity. Qed.

(** A member line of the Sources phase, and one of the Resources phase,
    which the third pattern does not match. *)
Example phase_lines :
  classify (tabs 4 ++ id_of 0x2011 ++ lit " /* Model.swift in Sources */,")
  = PhaseEntry (lit "Model.swift") (id_of 0x2011)
  /\ classify (tabs 4 ++ id_of 0x2013
               ++ lit " /* Assets.xcassets in Resources */,")
     = Plain.
Proof. vm_compute. split; reflexivity. Qed.

(** [re.sub(r'\n\s*\n\s*\n', '\n\n', 'a\n \n\n\n b\n\n') == 'a\n\n b\n\n'] *)
Example collapse_blank_lines :
  re_sub blank_lines_re [nl; nl]
    (lit "a" ++ [nl; 32%N; nl; nl; nl; 32%N] ++ lit "b" ++ [nl; nl])
  = lit "a" ++ [nl; nl; 32%N] ++ lit "b" ++ [nl; nl].
Proof. vm_compute. reflexivity. Qed.

(** [Path('Core/Views/Main.View.SWIFT')]: parts and suffix. *)
Example path_pieces :
  path_parts (lit "Core/Views/Main.View.SWIFT")
  = [lit "Core"; lit "Views"; lit "Main.View.SWIFT"]
  /\ lower (path_suffix (lit "Core/Views/Main.View.SWIFT")) = lit ".swift"
  /\ path_suffix (lit ".gitignore") = []
  /\ path_suffix (lit "notes.") = [].
Proof. vm_compute. repeat split; reflexivity. Qed.

(** The first identifier of a new builder. *)
Example first_identifier :
  fst (generate_id new_builder) = lit "AB0000000000000000002001".
Proof. vm_compute. reflexivity. Qed.

(** The manifest that the builder writes for [app_tree] has 275 lines
    and the repair leaves it as it is. *)
Example generated_manifest_is_clean :
  let text := fst (import_project app_tree new_builder) in
  length (split_on nl text) = 275%nat /\ dedup_text text = (text, 0%nat).
Proof. vm_compute. split; reflexivity. Qed.

End ModelChecks.

Module ReFacts.
Import Py Re.

Section Greedy.
Context {A : Type}.
Implicit Types (k : str -> groups -> option A) (s : str) (g : groups).

Lemma star_loop_greedy_cls p fuel s g k :
  length s < fuel ->
  star_loop (run (Cls p)) true fuel s g k = greedy_cls p s (fun s' => k s' g).
Proof.
  revert s. induction fuel as [|fuel IH]; intros s Hlen; [lia|].
  destruct s as [|c s]; simpl.
  - reflexivity.
  - destruct (p c); [|reflexivity].
    assert (Hlt : (length s <? S (length s))%nat = true) by (apply Nat.ltb_lt; lia).
    rewrite Hlt. rewrite IH by (simpl in Hlen; lia). reflexivity.
Qed.

Lemma run_star_cls p s g k :
  run (Star true (Cls p)) s g k = greedy_cls p s (fun s' => k s' g).
Proof. exact (star_loop_greedy_cls p (S (length s)) s g k (Nat.lt_succ_diag_r _)). Qed.

Lemma greedy_cls_none {B} p s (k : str -> option B) :
  (forall s', s' `suffix_of` s -> k s' = None) ->
  greedy_cls p s k = None.
Proof.
  induction s as [|c s IH]; intros Hk; simpl.
  - apply Hk. reflexivity.
  - rewrite IH.
    + destruct (p c); apply Hk; reflexivity.
    + intros s' Hs'. apply Hk. by apply suffix_cons_r.
Qed.

Lemma greedy_cls_ext {B} p s (k k' : str -> option B) :
  (forall s', s' `suffix_of` s -> k s' = k' s') ->
  greedy_cls p s k = greedy_cls p s k'.
Proof.
  induction s as [|c s IH]; intros Hk; simpl.
  - apply Hk. reflexivity.
  - rewrite (IH (fun s' Hs' => Hk s' (suffix_cons_r _ _ _ Hs'))).
    rewrite (Hk (c :: s)) by reflexivity. reflexivity.
Qed.

(** *** The fuel of the repetition loop is never what ends it *)

Lemma star_loop_ext (body : str -> groups -> _ -> option A) greedy fuel :
  (forall s g k k', (forall s' g', k s' g' = k' s' g') ->
                    body s g k = body s g k') ->
  forall s g k k', (forall s' g', k s' g' = k' s' g') ->
  star_loop body greedy fuel s g k = star_loop body greedy fuel s g k'.
Proof.
  intros Hbody. induction fuel as [|fuel IH]; intros s g k k' Hk.
  - apply Hk.
  - cbn [star_loop]. rewrite (Hk s g).
    rewrite (Hbody s g _ (fun s' g' =>
      if (length s' <? length s)%nat
      then star_loop body greedy fuel s' g' k' else None)).
    + reflexivity.
    + intros s' g'. destruct (length s' <? length s)%nat; [|reflexivity].
      by apply IH.
Qed.

Lemma run_ext r : forall s g k k',
  (forall s' g', k s' g' = k' s' g') -> run r s g k = run r s g k'.
Proof.
  induction r as [|c|p|r1 IH1 r2 IH2|greedy r IH|r IH|i r IH];
    intros s g k k' Hk; cbn [run].
  - apply Hk.
  - destruct s as [|x s]; [reflexivity|]. by rewrite Hk.
  - destruct s as [|x s]; [reflexivity|]. by rewrite Hk.
  - apply IH1. intros s' g'. by apply IH2.
  - by apply star_loop_ext.
  - by rewrite (IH s g k k' Hk), Hk.
  - apply IH. intros s' g'. apply Hk.
Qed.

Lemma star_loop_fuel r greedy fuel1 : forall fuel2 s g k,
  length s < fuel1 -> length s < fuel2 ->
  star_loop (run r) greedy fuel1 s g k = star_loop (run r) greedy fuel2 s g k.
Proof.
  induction fuel1 as [|fuel1 IH]; intros fuel2 s g k H1 H2; [lia|].
  destruct fuel2 as [|fuel2]; [lia|]. cbn [star_loop].
  rewrite (run_ext r s g _ (fun s' g' =>
    if (length s' <? length s)%nat
    then star_loop (run r) greedy fuel2 s' g' k else None)).
  - reflexivity.
  - intros s' g'. destruct (Nat.ltb_spec (length s') (length s)); [|done].
    apply IH; lia.
Qed.

(** More fuel than the subject is long gives what [run] gives. *)
Lemma star_loop_enough r greedy fuel s g k :
  length s < fuel ->
  star_loop (run r) greedy fuel s g k = run (Star greedy r) s g k.
Proof. intros H. apply star_loop_fuel; [done|]. lia. Qed.
End Greedy.

End ReFacts.

Module CollapseFacts.
Import Py Re Dedup ReFacts.

Lemma is_space_nl : is_space nl = true.
Proof. reflexivity. Qed.

Lemma not_space_not_nl c : is_space c = false -> (c =? nl)%N = false.
Proof.
  intros H. destruct (N.eqb_spec c nl) as [->|]; [|reflexivity].
  rewrite is_space_nl in H. discriminate.
Qed.

Lemma leading_breaks_cons c s :
  leading_breaks (c :: s) =
  if (c =? nl)%N then S (leading_breaks s)
  else if is_space c then leading_breaks s else O.
Proof. reflexivity. Qed.

Lemma after_breaks_cons c s :
  after_breaks (c :: s) =
  if (0 <? leading_breaks (c :: s))%nat then after_breaks s else c :: s.
Proof. reflexivity. Qed.

Lemma after_breaks_zero s : leading_breaks s = 0%nat -> after_breaks s = s.
Proof.
  destruct s as [|c s]; [reflexivity|]. intros H.
  rewrite after_breaks_cons, H. reflexivity.
Qed.

(** The last two thirds of the pattern, [\s*\n]. *)
Definition break_end (s : str) : option str :=
  greedy_cls is_space s (fun s2 =>
    match s2 with
    | c2 :: t2 => if (c2 =? nl)%N then Some t2 else None
    | [] => None
    end).

Lemma break_end_spec s :
  break_end s =
  if (1 <=? leading_breaks s)%nat then Some (after_breaks s) else None.
Proof.
  unfold break_end. induction s as [|c s IH]; [reflexivity|].
  cbn [greedy_cls]. rewrite IH, after_breaks_cons, leading_breaks_cons.
  destruct (is_space c) eqn:Hsp.
  - destruct (N.eqb_spec c nl) as [->|Hne].
    + destruct (leading_breaks s) as [|n] eqn:Hn; simpl.
      * rewrite after_breaks_zero by done. reflexivity.
      * reflexivity.
    + destruct (leading_breaks s) as [|n] eqn:Hn; simpl; reflexivity.
  - rewrite (not_space_not_nl _ Hsp). reflexivity.
Qed.

Definition break_mid (s : str) : option str :=
  greedy_cls is_space s (fun s1 =>
    match s1 with
    | c1 :: t1 => if (c1 =? nl)%N then break_end t1 else None
    | [] => None
    end).

Lemma break_mid_spec s :
  break_mid s =
  if (2 <=? leading_breaks s)%nat then Some (after_breaks s) else None.
Proof.
  unfold break_mid. induction s as [|c s IH]; [reflexivity|].
  cbn [greedy_cls]. rewrite IH, after_breaks_cons, leading_breaks_cons.
  destruct (is_space c) eqn:Hsp.
  - destruct (N.eqb_spec c nl) as [->|Hne].
    + rewrite break_end_spec.
      destruct (leading_breaks s) as [|[|n]] eqn:Hn; simpl; try reflexivity.
    + destruct (leading_breaks s) as [|[|n]] eqn:Hn; simpl; reflexivity.
  - rewrite (not_space_not_nl _ Hsp). reflexivity.
Qed.

(** The matcher on [blank_lines_re], in closed form. *)
Lemma run_blank_lines_re s g :
  run blank_lines_re s g (fun s' _ => Some s') =
  if blank_run_at s then Some (after_breaks (tail s)) else None.
Proof.
  destruct s as [|c s]; [reflexivity|].
  change (run blank_lines_re (c :: s) g (fun s' _ => Some s'))
    with (if (c =? nl)%N
          then run (Star true ws) s g (fun s1 g1 =>
                 run (Chr nl) s1 g1 (fun s2 g2 =>
                   run (Star true ws) s2 g2 (fun s3 g3 =>
                     run (Chr nl) s3 g3 (fun s' _ => Some s'))))
          else None).
  cbn [blank_run_at tail].
  destruct (c =? nl)%N; [|reflexivity]. cbn [andb].
  unfold ws. rewrite run_star_cls.
  rewrite <- break_mid_spec. unfold break_mid.
  apply greedy_cls_ext. intros s1 _.
  destruct s1 as [|c1 t1]; [reflexivity|]. cbn [run].
  destruct (c1 =? nl)%N; [|reflexivity].
  exact (run_star_cls _ _ _ _).
Qed.

End CollapseFacts.

Module CollapseFacts2.
Import Py Re Dedup ReFacts CollapseFacts.

Lemma search_unfold r s :
  search r false s =
  match run r s [] (fun s' _ => Some s') with
  | Some rest => Some ([], rest)
  | None =>
      match s with
      | [] => None
      | c :: s' =>
          match search r false s' with
          | Some (skipped, rest) => Some (c :: skipped, rest)
          | None => None
          end
      end
  end.
Proof. destruct s; reflexivity. Qed.

Lemma collapse_cons b c s :
  collapse b (c :: s) =
  if b && (0 <? leading_breaks (c :: s))%nat then collapse true s
  else if blank_run_at (c :: s) then nl :: nl :: collapse true s
  else c :: collapse false s.
Proof. reflexivity. Qed.

Lemma length_after_breaks s : length (after_breaks s) <= length s.
Proof.
  induction s as [|c s IH]; [reflexivity|].
  rewrite after_breaks_cons. destruct (0 <? _)%nat; simpl; lia.
Qed.

Lemma collapse_skipping s : collapse true s = collapse false (after_breaks s).
Proof.
  induction s as [|c s IH]; [reflexivity|].
  rewrite after_breaks_cons, collapse_cons. cbn [andb].
  destruct (0 <? leading_breaks (c :: s))%nat; [exact IH|].
  rewrite collapse_cons. reflexivity.
Qed.

Lemma blank_run_at_nl c s : blank_run_at (c :: s) = true -> c = nl.
Proof.
  cbn [blank_run_at]. intros [H _]%andb_true_iff. by apply N.eqb_eq.
Qed.

Lemma collapse_search s :
  match search blank_lines_re false s with
  | None => collapse false s = s
  | Some (skipped, rest) =>
      collapse false s = skipped ++ [nl; nl] ++ collapse false rest
      /\ length skipped + length rest < length s
  end.
Proof.
  induction s as [|c s IH]; [reflexivity|].
  rewrite search_unfold, run_blank_lines_re, collapse_cons. cbn [andb tail].
  destruct (blank_run_at (c :: s)) eqn:Hrun.
  - rewrite collapse_skipping. split; [reflexivity|].
    pose proof (length_after_breaks s). simpl. lia.
  - destruct (search blank_lines_re false s) as [[skipped rest]|].
    + destruct IH as [-> Hlen]. split; [reflexivity|]. simpl. lia.
    + by rewrite IH.
Qed.

Lemma sub_loop_collapse fuel s :
  length s < fuel ->
  sub_loop fuel blank_lines_re [nl; nl] false s = collapse false s.
Proof.
  revert s. induction fuel as [|fuel IH]; intros s Hlen; [lia|].
  cbn [sub_loop]. pose proof (collapse_search s) as Hs.
  destruct (search blank_lines_re false s) as [[skipped rest]|]; [|done].
  destruct Hs as [-> Hlt].
  assert ((length skipped + length rest =? length s)%nat = false) as ->
    by (apply Nat.eqb_neq; lia).
  rewrite IH by lia. reflexivity.
Qed.

(** [re.sub(r'\n\s*\n\s*\n', '\n\n', s)] is the one-pass [collapse]. *)
Lemma re_sub_collapse s :
  re_sub blank_lines_re [nl; nl] s = collapse false s.
Proof. apply sub_loop_collapse. lia. Qed.

(** *** No run of blank lines is left *)

Lemma leading_breaks_collapse s :
  leading_breaks s < 2 ->
  leading_breaks (collapse false s) = leading_breaks s.
Proof.
  induction s as [|c s IH]; [reflexivity|].
  rewrite collapse_cons, leading_breaks_cons. cbn [andb blank_run_at].
  destruct (N.eqb_spec c nl) as [->|Hne].
  - intros Hlt. cbn [andb].
    assert ((2 <=? leading_breaks s)%nat = false) as ->
      by (apply Nat.leb_gt; lia).
    rewrite leading_breaks_cons. cbn. rewrite IH by lia. reflexivity.
  - cbn [andb]. intros Hlt. rewrite leading_breaks_cons.
    destruct (N.eqb_spec c nl); [done|].
    destruct (is_space c); [by apply IH|reflexivity].
Qed.

Lemma leading_breaks_after_breaks s : leading_breaks (after_breaks s) = 0%nat.
Proof.
  induction s as [|c s IH]; [reflexivity|].
  rewrite after_breaks_cons.
  destruct (leading_breaks (c :: s)) eqn:H; [exact H|exact IH].
Qed.

Lemma leading_breaks_collapse_skipping s :
  leading_breaks (collapse true s) = 0%nat.
Proof.
  rewrite collapse_skipping, leading_breaks_collapse;
    rewrite leading_breaks_after_breaks; [reflexivity|lia].
Qed.

Lemma has_blank_run_cons c s :
  has_blank_run (c :: s) = blank_run_at (c :: s) || has_blank_run s.
Proof. reflexivity. Qed.

Lemma collapse_no_blank_run b s : has_blank_run (collapse b s) = false.
Proof.
  revert b. induction s as [|c s IH]; intros b; [reflexivity|].
  rewrite collapse_cons.
  destruct (b && (0 <? leading_breaks (c :: s))%nat); [apply IH|].
  destruct (blank_run_at (c :: s)) eqn:Hrun.
  - rewrite !has_blank_run_cons, IH. cbn [blank_run_at].
    rewrite leading_breaks_cons, leading_breaks_collapse_skipping.
    reflexivity.
  - rewrite has_blank_run_cons, IH, orb_false_r.
    cbn [blank_run_at] in *.
    destruct (c =? nl)%N; [|reflexivity]. cbn [andb] in *.
    apply Nat.leb_gt in Hrun. rewrite leading_breaks_collapse by lia.
    by apply Nat.leb_gt.
Qed.

Lemma collapse_fixed s : has_blank_run s = false -> collapse false s = s.
Proof.
  induction s as [|c s IH]; [reflexivity|].
  rewrite has_blank_run_cons, collapse_cons. cbn [andb].
  intros [-> Hs]%orb_false_iff. by rewrite IH.
Qed.

Lemma collapse_idempotent s :
  collapse false (collapse false s) = collapse false s.
Proof. apply collapse_fixed, collapse_no_blank_run. Qed.

End CollapseFacts2.

Module LineFacts.
Import Py Re Dedup ReFacts CollapseFacts CollapseFacts2.

Local Abbreviation lines s := (split_on nl s).
Local Abbreviation first_line s := (hd [] (split_on nl s)).
Local Abbreviation more_lines s := (tl (split_on nl s)).
Local Abbreviation nonblank ls := (filter (fun l => is_blank l = false) ls).

Lemma split_on_nonempty sep s : split_on sep s <> [].
Proof.
  destruct s as [|c s]; [done|]. simpl.
  destruct (c =? sep)%N; [done|]. by destruct (split_on sep s).
Qed.

Lemma lines_eta s : lines s = first_line s :: more_lines s.
Proof. pose proof (split_on_nonempty nl s). by destruct (lines s). Qed.

Lemma lines_nl s : lines (nl :: s) = [] :: lines s.
Proof. reflexivity. Qed.

Lemma lines_cons c s :
  c <> nl -> lines (c :: s) = (c :: first_line s) :: more_lines s.
Proof.
  intros Hne. cbn [split_on]. destruct (N.eqb_spec c nl); [done|].
  pose proof (split_on_nonempty nl s). by destruct (lines s).
Qed.

Lemma join_split s : join [nl] (lines s) = s.
Proof.
  induction s as [|c s IH]; [reflexivity|].
  destruct (N.eq_dec c nl) as [->|Hne].
  - rewrite lines_nl. pose proof (split_on_nonempty nl s).
    cbn [join]. destruct (lines s) eqn:E; [done|].
    rewrite IH. reflexivity.
  - rewrite lines_cons by done. rewrite (lines_eta s) in IH.
    cbn [join] in *. destruct (more_lines s); simpl in *; by rewrite IH.
Qed.

Lemma lines_no_nl s : Forall (fun l => nl ∉ l) (lines s).
Proof.
  induction s as [|c s IH].
  - repeat constructor. by intros ?%elem_of_nil.
  - destruct (N.eq_dec c nl) as [->|Hne].
    + rewrite lines_nl. constructor; [by intros ?%elem_of_nil|done].
    + rewrite lines_cons by done. rewrite (lines_eta s) in IH.
      apply Forall_cons in IH as [Hh Ht]. constructor; [|done].
      intros [?|?]%elem_of_cons; [congruence|done].
Qed.

Lemma lines_app_nl a s : nl ∉ a -> lines (a ++ nl :: s) = a :: lines s.
Proof.
  induction a as [|c a IH]; intros Hnl; [reflexivity|].
  rewrite <- app_comm_cons, lines_cons, IH; [done| |].
  - intros ?. apply Hnl. by right.
  - intros ->. apply Hnl. by left.
Qed.

Lemma lines_single a : nl ∉ a -> lines a = [a].
Proof.
  induction a as [|c a IH]; intros Hnl; [reflexivity|].
  rewrite lines_cons, IH; [done| |].
  - intros ?. apply Hnl. by right.
  - intros ->. apply Hnl. by left.
Qed.

Lemma split_join ls :
  ls <> [] -> Forall (fun l => nl ∉ l) ls -> lines (join [nl] ls) = ls.
Proof.
  induction ls as [|a ls IH]; [done|]. intros _ [Ha Hls]%Forall_cons.
  destruct ls as [|b ls].
  - by apply lines_single.
  - change (join [nl] (a :: b :: ls)) with (a ++ nl :: join [nl] (b :: ls)).
    rewrite lines_app_nl by done. by rewrite IH.
Qed.

(** *** Blank lines *)

Lemma is_blank_cons c l : is_blank (c :: l) = is_space c && is_blank l.
Proof. reflexivity. Qed.

Lemma nonblank_cons_blank l ls :
  is_blank l = true -> nonblank (l :: ls) = nonblank ls.
Proof. intros H. rewrite filter_cons_False; [done|]. by rewrite H. Qed.

Lemma nonblank_cons_other l ls :
  is_blank l = false -> nonblank (l :: ls) = l :: nonblank ls.
Proof. intros H. by rewrite filter_cons_True. Qed.

Lemma leading_breaks_first_line s :
  0 < leading_breaks s -> is_blank (first_line s) = true.
Proof.
  induction s as [|c s IH]; [simpl; lia|].
  rewrite leading_breaks_cons.
  destruct (N.eqb_spec c nl) as [->|Hne]; [reflexivity|].
  destruct (is_space c) eqn:Hsp; [|lia].
  intros Hlt. rewrite lines_cons by done. cbn [hd].
  by rewrite is_blank_cons, Hsp, IH.
Qed.

Lemma collapse_lines s :
  (first_line (collapse false s) = first_line s
   /\ nonblank (more_lines (collapse false s)) = nonblank (more_lines s))
  /\ nonblank (lines (collapse true s)) = nonblank (lines s).
Proof.
  induction s as [|c s [[IHh IHt] IHs]]; [done|].
  assert (first_line (collapse false (c :: s)) = first_line (c :: s)
          /\ nonblank (more_lines (collapse false (c :: s)))
             = nonblank (more_lines (c :: s))) as HA.
  { rewrite collapse_cons. cbn [andb].
    destruct (blank_run_at (c :: s)) eqn:Hrun.
    - apply blank_run_at_nl in Hrun as ->. rewrite !lines_nl. cbn [hd tl].
      split; [done|]. by rewrite nonblank_cons_blank.
    - destruct (N.eq_dec c nl) as [->|Hne].
      + rewrite !lines_nl. cbn [hd tl]. split; [done|].
        rewrite (lines_eta (collapse false s)), (lines_eta s), IHh.
        destruct (is_blank (first_line s)) eqn:Hb.
        * by rewrite !nonblank_cons_blank.
        * rewrite !nonblank_cons_other by done. by rewrite IHt.
      + rewrite !lines_cons by done. cbn [hd tl]. by rewrite IHh. }
  split; [exact HA|].
  rewrite collapse_cons. cbn [andb].
  destruct (0 <? leading_breaks (c :: s))%nat eqn:Hlb.
  - apply Nat.ltb_lt in Hlb. rewrite IHs.
    destruct (N.eq_dec c nl) as [->|Hne].
    + rewrite lines_nl. by rewrite nonblank_cons_blank.
    + pose proof (leading_breaks_first_line _ Hlb) as Hb.
      rewrite (lines_eta (c :: s)), nonblank_cons_blank by done.
      rewrite (lines_eta s), lines_cons by done. cbn [tl].
      rewrite lines_cons in Hb by done. cbn [hd] in Hb.
      rewrite is_blank_cons in Hb. apply andb_true_iff in Hb as [_ Hb].
      by rewrite nonblank_cons_blank.
  - destruct HA as [HAh HAt]. rewrite collapse_cons in HAh, HAt.
    cbn [andb] in HAh, HAt.
    match goal with |- nonblank (lines ?x) = _ =>
      rewrite (lines_eta x), (lines_eta (c :: s)), HAh end.
    destruct (is_blank (first_line (c :: s))) eqn:Hb.
    + by rewrite !nonblank_cons_blank.
    + rewrite !nonblank_cons_other by done. by rewrite HAt.
Qed.

(** Collapsing changes blank lines only. *)
Lemma nonblank_collapse s :
  nonblank (lines (collapse false s)) = nonblank (lines s).
Proof.
  destruct (collapse_lines s) as [[Hh Ht] _].
  rewrite (lines_eta (collapse false s)), (lines_eta s), Hh.
  destruct (is_blank (first_line s)) eqn:Hb.
  - by rewrite !nonblank_cons_blank.
  - rewrite !nonblank_cons_other by done. by rewrite Ht.
Qed.

Lemma nonblank_join ls :
  Forall (fun l => nl ∉ l) ls ->
  nonblank (lines (join [nl] ls)) = nonblank ls.
Proof.
  intros Hls. destruct ls as [|a ls]; [reflexivity|].
  by rewrite split_join.
Qed.

End LineFacts.

Module ScanFacts.
Import Py Re Dedup ReFacts CollapseFacts CollapseFacts2 LineFacts.

(** *** One step of the loop *)

Lemma process_line_spec st line :
  process_line st line =
  if kept_by st line then learn st line else drop_line st.
Proof.
  unfold process_line, kept_by, learn, classify.
  destruct (re_match 3 fileref_re line) as [g|].
  { destruct (seen_refs st !! strip (group g 2)) eqn:E.
    - rewrite bool_decide_eq_false_2 by done. reflexivity.
    - rewrite bool_decide_eq_true_2 by done. reflexivity. }
  destruct (re_match 4 buildfile_re line) as [g|].
  { destruct (seen_build_refs st !! strip (group g 2)) eqn:E.
    - rewrite bool_decide_eq_false_2 by done. reflexivity.
    - rewrite bool_decide_eq_true_2 by done. reflexivity. }
  destruct (re_match 3 build_phase_re line) as [g|]; [|reflexivity].
  destruct (seen_build_refs st !! strip (group g 2)) eqn:E; [|reflexivity].
  by destruct (str_eqb _ _).
Qed.

(** *** Blank lines match no pattern *)

Lemma space_not_hex c : is_space c = true -> is_hex c = false.
Proof.
  unfold is_space, is_hex. intros H.
  apply not_true_iff_false. intros Hx.
  repeat (apply orb_true_iff in H as [H|H]);
    repeat (apply andb_true_iff in H as [? ?]);
    apply orb_true_iff in Hx as [Hx|Hx];
    apply andb_true_iff in Hx as [? ?];
    repeat match goal with
           | H : (_ <=? _)%N = true |- _ => apply N.leb_le in H
           | H : (_ =? _)%N = true |- _ => apply N.eqb_eq in H
           end; lia.
Qed.

Section Prefix.
Context {A : Type}.
Implicit Types (k : str -> groups -> option A).

Lemma run_hex_group i rest s g k :
  match s with c :: _ => is_space c = true | [] => True end ->
  run (Seq (Grp i (Plus true hex)) rest) s g k = None.
Proof.
  destruct s as [|c s]; [reflexivity|]. intros Hc. cbn [run Plus hex].
  by rewrite (space_not_hex _ Hc).
Qed.

Lemma run_declaration_prefix rest s g k :
  is_blank s = true ->
  run (Seq (Grp 0 (Plus true ws)) (Seq (Grp 1 (Plus true hex)) rest)) s g k
  = None.
Proof.
  intros Hblank. destruct s as [|c s]; [reflexivity|].
  rewrite is_blank_cons in Hblank. apply andb_true_iff in Hblank as [Hc Hs].
  change (run (Seq (Grp 0 (Plus true ws)) (Seq (Grp 1 (Plus true hex)) rest))
            (c :: s) g k)
    with (if is_space c
          then run (Star true ws) s g (fun s' g' =>
                 run (Seq (Grp 1 (Plus true hex)) rest) s'
                   (<[0%nat := Some (take (length (c :: s) - length s') (c :: s))]> g') k)
          else None).
  rewrite Hc. unfold ws. rewrite run_star_cls.
  apply greedy_cls_none. intros s' [pre ->].
  apply run_hex_group. destruct s' as [|c' s']; [done|].
  unfold is_blank in Hs. rewrite forallb_app in Hs.
  apply andb_true_iff in Hs as [_ Hs]. simpl in Hs.
  by apply andb_true_iff in Hs as [? _].
Qed.
End Prefix.

Lemma blank_is_plain line : is_blank line = true -> classify line = Plain.
Proof.
  intros Hblank. unfold classify, re_match.
  change fileref_re with
    (Seq (Grp 0 (Plus true ws)) (Seq (Grp 1 (Plus true hex))
       (Cat (drop 2 [Eps; Eps; Plus true ws;
        Lit (lit "/*"); Plus true ws; Grp 2 (Plus false any); Plus true ws;
        Lit (lit "*/"); Plus true ws; Lit (lit "="); Plus true ws;
        Lit (lit "{isa"); Plus true ws; Lit (lit "="); Plus true ws;
        Lit (lit "PBXFileReference;") ])))).
  rewrite run_declaration_prefix by done.
  change buildfile_re with
    (Seq (Grp 0 (Plus true ws)) (Seq (Grp 1 (Plus true hex))
       (Cat (drop 2 [Eps; Eps; Plus true ws;
        Lit (lit "/*"); Plus true ws; Grp 2 (Plus false any); Plus true ws;
        Opt (Grp 3 (Cat [Lit (lit "in"); Plus true ws; Lit (lit "Sources")]));
        Star true ws;
        Lit (lit "*/"); Plus true ws; Lit (lit "="); Plus true ws;
        Lit (lit "{isa"); Plus true ws; Lit (lit "="); Plus true ws;
        Lit (lit "PBXBuildFile;") ])))).
  rewrite run_declaration_prefix by done.
  change build_phase_re with
    (Seq (Grp 0 (Plus true ws)) (Seq (Grp 1 (Plus true hex))
       (Cat (drop 2 [Eps; Eps; Plus true ws;
        Lit (lit "/*"); Plus true ws; Grp 2 (Plus false any); Plus true ws;
        Lit (lit "in"); Plus true ws; Lit (lit "Sources"); Plus true ws;
        Lit (lit "*/"); Opt (Chr 44) ])))).
  by rewrite run_declaration_prefix.
Qed.

End ScanFacts.

Module ScanFacts2.
Import Py Re Dedup ReFacts CollapseFacts CollapseFacts2 LineFacts ScanFacts.

Local Abbreviation nonblank ls := (filter (fun l => is_blank l = false) ls).

(** *** States that have seen the same *)

Lemma same_seen_refl st : same_seen st st.
Proof. by split. Qed.

Lemma same_seen_sym st st' : same_seen st st' -> same_seen st' st.
Proof. intros [H1 H2]. by split. Qed.

Lemma same_seen_trans st1 st2 st3 :
  same_seen st1 st2 -> same_seen st2 st3 -> same_seen st1 st3.
Proof. intros [H1 H2] [H3 H4]. split; congruence. Qed.

Lemma drop_line_same st : same_seen (drop_line st) st.
Proof. by split. Qed.

Lemma keep_line_same st l : same_seen (keep_line st l) st.
Proof. by split. Qed.

Lemma kept_by_same st st' l : same_seen st st' -> kept_by st l = kept_by st' l.
Proof. intros [H1 H2]. unfold kept_by. by rewrite H1, H2. Qed.

Lemma learn_same st st' l :
  same_seen st st' -> same_seen (learn st l) (learn st' l).
Proof.
  intros [H1 H2]. unfold learn.
  destruct (classify l); split; simpl; by rewrite ?H1, ?H2.
Qed.

Lemma learn_plain st l : classify l = Plain -> same_seen (learn st l) st.
Proof. intros H. unfold learn. rewrite H. apply keep_line_same. Qed.

Lemma kept_by_plain st l : classify l = Plain -> kept_by st l = true.
Proof. intros H. unfold kept_by. by rewrite H. Qed.

Lemma survivors_same ls : forall st st',
  same_seen st st' -> survivors st ls = survivors st' ls.
Proof.
  induction ls as [|l ls IH]; intros st st' Hs; [reflexivity|].
  cbn [survivors]. rewrite (kept_by_same _ _ _ Hs).
  destruct (kept_by st' l).
  - f_equal. by apply IH, learn_same.
  - by apply IH.
Qed.

Lemma process_line_same st l :
  same_seen (process_line st l) (if kept_by st l then learn st l else st).
Proof.
  rewrite process_line_spec.
  destruct (kept_by st l); [apply same_seen_refl|apply drop_line_same].
Qed.

(** *** The loop and the lines it keeps *)

Lemma new_lines_learn st l : new_lines (learn st l) = new_lines st ++ [l].
Proof. unfold learn. by destruct (classify l). Qed.

Lemma duplicate_count_learn st l :
  duplicate_count (learn st l) = duplicate_count st.
Proof. unfold learn. by destruct (classify l). Qed.

Lemma scan_from_survivors ls : forall st,
  new_lines (foldl process_line st ls) = new_lines st ++ survivors st ls
  /\ duplicate_count (foldl process_line st ls) + length (survivors st ls)
     = duplicate_count st + length ls.
Proof.
  induction ls as [|l ls IH]; intros st.
  - simpl. rewrite app_nil_r. split; [done|lia].
  - cbn [foldl survivors]. rewrite process_line_spec.
    destruct (kept_by st l).
    + destruct (IH (learn st l)) as [-> Hc].
      rewrite new_lines_learn, duplicate_count_learn in *.
      rewrite <- app_assoc. split; [done|]. simpl. lia.
    + destruct (IH (drop_line st)) as [-> Hc].
      rewrite (survivors_same ls _ _ (drop_line_same st)) in *.
      split; [done|]. simpl in *. lia.
Qed.

Lemma survivors_length ls : forall st, length (survivors st ls) <= length ls.
Proof.
  induction ls as [|l ls IH]; intros st; [done|]. cbn [survivors].
  destruct (kept_by st l); simpl.
  - specialize (IH (learn st l)). lia.
  - specialize (IH st). lia.
Qed.

Lemma survivors_all_count st ls :
  survivors st ls = ls ->
  new_lines (foldl process_line st ls) = new_lines st ++ ls
  /\ duplicate_count (foldl process_line st ls) = duplicate_count st.
Proof.
  intros H. destruct (scan_from_survivors ls st) as [Hn Hc].
  rewrite H in *. split; [done|lia].
Qed.

Lemma survivors_idempotent ls : forall st,
  survivors st (survivors st ls) = survivors st ls.
Proof.
  induction ls as [|l ls IH]; intros st; [reflexivity|].
  cbn [survivors]. destruct (kept_by st l) eqn:Hk.
  - cbn [survivors]. rewrite Hk. f_equal. apply IH.
  - apply IH.
Qed.

Lemma foldl_process_same ls : forall st st',
  same_seen st st' ->
  same_seen (foldl process_line st ls) (foldl process_line st' ls).
Proof.
  induction ls as [|l ls IH]; intros st st' Hs; [done|].
  cbn [foldl]. apply IH.
  eapply same_seen_trans; [apply process_line_same|].
  eapply same_seen_trans; [|apply same_seen_sym, process_line_same].
  rewrite (kept_by_same _ _ _ Hs).
  destruct (kept_by st' l); [by apply learn_same|done].
Qed.

Lemma survivors_app a : forall st b,
  survivors st (a ++ b)
  = survivors st a ++ survivors (foldl process_line st a) b.
Proof.
  induction a as [|l a IH]; intros st b; [reflexivity|].
  cbn [app survivors foldl].
  assert (same_seen (process_line st l)
            (if kept_by st l then learn st l else st)) as Hs
    by apply process_line_same.
  destruct (kept_by st l).
  - rewrite IH. cbn [app]. do 2 f_equal.
    apply survivors_same, foldl_process_same, same_seen_sym, Hs.
  - rewrite IH. f_equal.
    apply survivors_same, foldl_process_same, same_seen_sym, Hs.
Qed.

(** Blank lines play no part in what the loop keeps. *)
Lemma survivors_nonblank ls : forall st,
  survivors st ls = ls <-> survivors st (nonblank ls) = nonblank ls.
Proof.
  induction ls as [|l ls IH]; intros st; [done|].
  destruct (is_blank l) eqn:Hb.
  - rewrite nonblank_cons_blank by done. cbn [survivors].
    pose proof (blank_is_plain _ Hb) as Hp.
    rewrite (kept_by_plain _ _ Hp).
    rewrite (survivors_same ls _ _ (learn_plain st _ Hp)).
    rewrite <- IH. split; [by intros [= ->]|by intros ->].
  - rewrite nonblank_cons_other by done. cbn [survivors].
    destruct (kept_by st l).
    + split; intros [= Heq]; f_equal; by apply IH.
    + pose proof (survivors_length ls st).
      pose proof (survivors_length (nonblank ls) st).
      split; intros Heq; apply (f_equal length) in Heq; simpl in Heq; lia.
Qed.

End ScanFacts2.

Module FreshFacts.
Import Py Re Dedup ReFacts CollapseFacts CollapseFacts2 LineFacts ScanFacts ScanFacts2.

Lemma fileref_keys_cons l ls :
  fileref_keys (l :: ls) =
  match classify l with
  | FileRefDecl key _ => key :: fileref_keys ls
  | _ => fileref_keys ls
  end.
Proof. unfold fileref_keys. cbn [omap list_omap]. by destruct (classify l). Qed.

Lemma build_decls_cons l ls :
  build_decls (l :: ls) =
  match classify l with
  | BuildFileDecl key ref_id => (key, ref_id) :: build_decls ls
  | _ => build_decls ls
  end.
Proof. unfold build_decls. cbn [omap list_omap]. by destruct (classify l). Qed.











Lemma backup_path_ne file_path : backup_path file_path <> file_path.
Proof.
  unfold backup_path. intros H. apply (f_equal length) in H.
  rewrite length_app in H. simpl in H. lia.
Qed.

End FreshFacts.

Module DedupProofs.
Import Py Re Dedup ReFacts CollapseFacts CollapseFacts2 LineFacts ScanFacts ScanFacts2 FreshFacts.

Local Abbreviation lines s := (split_on nl s).
Local Abbreviation nonblank ls := (filter (fun l => is_blank l = false) ls).

(** *** The text part in terms of [survivors] and [collapse] *)

Lemma scan_survivors ls :
  new_lines (scan ls) = survivors scan_init ls
  /\ duplicate_count (scan ls) + length (survivors scan_init ls) = length ls.
Proof. apply (scan_from_survivors ls scan_init). Qed.

Lemma dedup_text_spec content :
  dedup_text content =
  (collapse false (join [nl] (survivors scan_init (lines content))),
   duplicate_count (scan (lines content))).
Proof.
  unfold dedup_text. rewrite re_sub_collapse.
  by destruct (scan_survivors (lines content)) as [-> _].
Qed.

Lemma dedup_text_all_kept content :
  survivors scan_init (lines content) = lines content ->
  dedup_text content = (collapse false content, 0%nat).
Proof.
  intros H. rewrite dedup_text_spec.
  destruct (scan_survivors (lines content)) as [_ Hc].
  rewrite H in *. rewrite join_split. f_equal. lia.
Qed.

Lemma survivors_Forall (P : str -> Prop) ls : forall st,
  Forall P ls -> Forall P (survivors st ls).
Proof.
  induction ls as [|l ls IH]; intros st Hls; [done|].
  apply Forall_cons in Hls as [Hl Hls]. cbn [survivors].
  destruct (kept_by st l); [constructor|]; auto.
Qed.

(** *** The repair adds no character *)

Lemma survivors_elem ls : forall st l, l ∈ survivors st ls -> l ∈ ls.
Proof.
  induction ls as [|x ls IH]; intros st l; [by intros ?%elem_of_nil|].
  cbn [survivors].
  destruct (kept_by st x).
  - intros [->|Hin]%elem_of_cons; [by left|]. right. by eapply IH.
  - intros Hin. right. by eapply IH.
Qed.

Lemma lines_elem s : forall l x, l ∈ lines s -> x ∈ l -> x ∈ s.
Proof.
  induction s as [|c s IH]; intros l x.
  - cbn. intros Hl Hx. apply list_elem_of_singleton in Hl. by subst.
  - destruct (N.eq_dec c nl) as [->|Hne].
    + rewrite lines_nl.
      intros [->|Hin]%elem_of_cons Hx; [by apply elem_of_nil in Hx|].
      right. by eapply IH.
    + rewrite lines_cons by done.
      intros [->|Hin]%elem_of_cons Hx.
      * apply elem_of_cons in Hx as [->|Hx]; [by left|]. right.
        eapply IH; [|exact Hx]. rewrite (lines_eta s). by left.
      * right. eapply IH; [|exact Hx]. rewrite (lines_eta s). by right.
Qed.

Lemma join_elem ls : forall x,
  x ∈ join [nl] ls -> x = nl \/ exists l, l ∈ ls /\ x ∈ l.
Proof.
  induction ls as [|a ls IH]; intros x; [by intros ?%elem_of_nil|].
  destruct ls as [|b ls].
  - cbn. intros Hx. right. exists a. split; [by left|done].
  - change (join [nl] (a :: b :: ls)) with (a ++ nl :: join [nl] (b :: ls)).
    intros [Hx|[->|Hx]%elem_of_cons]%elem_of_app.
    + right. exists a. split; [by left|done].
    + by left.
    + destruct (IH x Hx) as [->|(l & Hl & Hxl)]; [by left|].
      right. exists l. split; [by right|done].
Qed.

Lemma collapse_elem s : forall b x, x ∈ collapse b s -> x = nl \/ x ∈ s.
Proof.
  induction s as [|c s IH]; intros b x; [by intros ?%elem_of_nil|].
  rewrite collapse_cons.
  destruct (b && _).
  - intros [->|Hx]%IH; [by left|]. right. by right.
  - destruct (blank_run_at (c :: s)).
    + intros [->|[->|Hx]%elem_of_cons]%elem_of_cons; [by left..|].
      apply IH in Hx as [->|Hx]; [by left|]. right. by right.
    + intros [->|Hx]%elem_of_cons; [right; by left|].
      apply IH in Hx as [->|Hx]; [by left|]. right. by right.
Qed.

Lemma dedup_text_elem content x :
  x ∈ fst (dedup_text content) -> x = nl \/ x ∈ content.
Proof.
  rewrite dedup_text_spec. cbn [fst].
  intros [->|Hx]%collapse_elem; [by left|].
  apply join_elem in Hx as [->|(l & Hl & Hx)]; [by left|].
  right. eapply lines_elem; [|exact Hx]. by eapply survivors_elem.
Qed.

(** *** Reading *)

Lemma universal_newlines_cons c s :
  universal_newlines (c :: s) =
  if (c =? cr)%N then
    match s with
    | c' :: s'' =>
        if (c' =? nl)%N then nl :: universal_newlines s''
        else nl :: universal_newlines s
    | [] => [nl]
    end
  else c :: universal_newlines s.
Proof. reflexivity. Qed.

Lemma universal_newlines_no_cr n : forall s,
  length s <= n -> cr ∉ universal_newlines s.
Proof.
  induction n as [|n IH]; intros s Hlen.
  - destruct s; [|simpl in Hlen; lia]. by intros ?%elem_of_nil.
  - destruct s as [|c s]; [by intros ?%elem_of_nil|].
    rewrite universal_newlines_cons. simpl in Hlen.
    destruct (N.eqb_spec c cr) as [->|Hne].
    + destruct s as [|c' s].
      * intros [?|?%elem_of_nil]%elem_of_cons; done.
      * simpl in Hlen. destruct (c' =? nl)%N;
          (intros [?|Hin]%elem_of_cons; [done|]);
          revert Hin; apply IH; simpl; lia.
    + intros [?|Hin]%elem_of_cons; [done|]. revert Hin. apply IH. lia.
Qed.

Lemma universal_newlines_id s : cr ∉ s -> universal_newlines s = s.
Proof.
  induction s as [|c s IH]; [done|]. intros Hcr.
  rewrite universal_newlines_cons.
  destruct (N.eqb_spec c cr) as [->|Hne]; [exfalso; apply Hcr; by left|].
  rewrite IH; [done|]. intros ?. apply Hcr. by right.
Qed.

(** The text that the repair writes reads back as it is. *)
Lemma repaired_text_reads_back stored :
  universal_newlines (fst (dedup_text (universal_newlines stored)))
  = fst (dedup_text (universal_newlines stored)).
Proof.
  apply universal_newlines_id.
  intros [?|Hin]%dedup_text_elem; [done|].
  by apply (universal_newlines_no_cr (length stored) stored).
Qed.

(** *** Files *)

Lemma dedup_file_nothing_to_do fault w file_path stored :
  files w !! file_path = Some stored ->
  snd (dedup_text (universal_newlines stored)) = 0%nat ->
  deduplicate_project_file fault w file_path = (w, Returned true).
Proof.
  intros Hf Hc. unfold deduplicate_project_file. rewrite Hf. cbv zeta.
  destruct (dedup_text (universal_newlines stored)) as [new_content n].
  simpl in Hc. by subst n.
Qed.

Lemma dedup_file_rewrites w file_path stored :
  let content := universal_newlines stored in
  files w !! file_path = Some stored ->
  (0 < snd (dedup_text content))%nat ->
  deduplicate_project_file (fun _ => NoFault) w file_path =
  (World (<[file_path := fst (dedup_text content)]>
            (<[backup_path file_path := content]> (files w)))
         (trace w ++ [Wrote (backup_path file_path) content;
                      Wrote file_path (fst (dedup_text content))]),
   Returned true).
Proof.
  intros content Hf Hc. unfold deduplicate_project_file. rewrite Hf.
  cbv zeta. fold content.
  destruct (dedup_text content) as [new_content n]. simpl in Hc.
  apply Nat.ltb_lt in Hc. rewrite Hc. unfold write_file. cbn.
  by rewrite <- app_assoc.
Qed.

Lemma labels_ok_sound ls : labels_ok ls = true -> no_duplicate_labels ls.
Proof.
  unfold labels_ok. intros [[Hr Hb]%andb_true_iff Hp]%andb_true_iff.
  apply bool_decide_eq_true in Hr, Hb. repeat split; [done..|].
  intros key ref_id declared_id Hin Hd.
  rewrite forallb_forall in Hp. apply list_elem_of_In, Hp in Hin.
  rewrite forallb_forall in Hin. apply list_elem_of_In, Hin in Hd.
  cbn in Hd. apply orb_true_iff in Hd as [Hd|Hd].
  - apply negb_true_iff in Hd. unfold str_eqb in Hd.
    by rewrite bool_decide_eq_true_2 in Hd.
  - by apply bool_decide_eq_true in Hd.
Qed.

(** *** What a run of blank lines is *)

Lemma leading_breaks_blank_app a r :
  is_blank a = true -> leading_breaks r <= leading_breaks (a ++ r).
Proof.
  induction a as [|c a IH]; [done|]. rewrite is_blank_cons.
  intros [Hc Ha]%andb_true_iff. cbn [app]. rewrite leading_breaks_cons, Hc.
  specialize (IH Ha). destruct (c =? nl)%N; lia.
Qed.

Lemma leading_breaks_first s :
  0 < leading_breaks s ->
  exists a r, s = a ++ nl :: r /\ is_blank a = true
              /\ leading_breaks s = S (leading_breaks r).
Proof.
  induction s as [|c s IH]; [simpl; lia|]. rewrite leading_breaks_cons.
  destruct (N.eqb_spec c nl) as [->|Hne].
  - intros _. by exists [], s.
  - destruct (is_space c) eqn:Hc; [|lia]. intros Hlt.
    destruct (IH Hlt) as (a & r & -> & Ha & Hs).
    exists (c :: a), r. rewrite is_blank_cons, Hc, Ha. done.
Qed.

Lemma has_blank_run_app u s :
  has_blank_run s = true -> has_blank_run (u ++ s) = true.
Proof.
  intros Hs. induction u as [|c u IH]; [done|].
  cbn [app]. rewrite has_blank_run_cons, IH. apply orb_true_r.
Qed.

(** [has_blank_run] says that somewhere in the text three line breaks
    are separated by white space only. *)
Lemma has_blank_run_spec s :
  has_blank_run s = true <->
  exists u a b v, s = u ++ [nl] ++ a ++ [nl] ++ b ++ [nl] ++ v
                  /\ is_blank a = true /\ is_blank b = true.
Proof.
  split.
  - induction s as [|c s IH]; [done|]. rewrite has_blank_run_cons.
    intros [Hrun|Hs]%orb_true_iff.
    + pose proof (blank_run_at_nl _ _ Hrun) as ->.
      cbn [blank_run_at] in Hrun. apply andb_true_iff in Hrun as [_ Hrun].
      apply Nat.leb_le in Hrun.
      destruct (leading_breaks_first s) as (a & r & -> & Ha & Hs); [lia|].
      destruct (leading_breaks_first r) as (b & v & -> & Hb & Hr); [lia|].
      by exists [], a, b, v.
    + destruct (IH Hs) as (u & a & b & v & -> & Ha & Hb).
      by exists (c :: u), a, b, v.
  - intros (u & a & b & v & -> & Ha & Hb). apply has_blank_run_app.
    cbn [app]. rewrite has_blank_run_cons. apply orb_true_iff. left.
    cbn [blank_run_at]. apply andb_true_iff. split; [reflexivity|].
    apply Nat.leb_le.
    pose proof (leading_breaks_blank_app a (nl :: b ++ nl :: v) Ha) as H1.
    pose proof (leading_breaks_blank_app b (nl :: v) Hb) as H2.
    rewrite !leading_breaks_cons in *. cbn in *. lia.
Qed.

(** *** The claims *)



(** C3. Repairing a repaired text changes nothing and counts no
    duplicate; run on a file a second time, the repair leaves every file
    as the first run left it and ends as the first run did. *)
Theorem repair_is_idempotent (content : str) (w : world) (file_path : str) :
  dedup_text (fst (dedup_text content)) = (fst (dedup_text content), 0%nat)
  /\ (let '(w1, out1) :=
          deduplicate_project_file (fun _ => NoFault) w file_path in
      deduplicate_project_file (fun _ => NoFault) w1 file_path = (w1, out1)).
Proof.
  assert (forall c,
    dedup_text (fst (dedup_text c)) = (fst (dedup_text c), 0%nat)) as Htext.
  { intros c. rewrite (dedup_text_spec c). cbn [fst].
    set (kept := survivors scan_init (split_on nl c)).
    assert (Forall (fun l => nl ∉ l) kept) as Hnl
      by apply survivors_Forall, lines_no_nl.
    rewrite dedup_text_all_kept; [by rewrite collapse_idempotent|].
    apply (proj2 (survivors_nonblank _ _)).
    rewrite nonblank_collapse, nonblank_join by done.
    apply (proj1 (survivors_nonblank _ _)), survivors_idempotent. }
  split; [apply Htext|].
  destruct (files w !! file_path) as [c|] eqn:Hfile.
  - destruct (snd (dedup_text (universal_newlines c))) as [|n] eqn:Hcount.
    + rewrite (dedup_file_nothing_to_do _ _ _ _ Hfile Hcount).
      by apply (dedup_file_nothing_to_do _ _ _ c).
    + rewrite (dedup_file_rewrites _ _ _ Hfile) by lia.
      apply (dedup_file_nothing_to_do _ _ _
               (fst (dedup_text (universal_newlines c)))).
      * cbn [files]. by rewrite lookup_insert_eq.
      * by rewrite repaired_text_reads_back, Htext.
  - unfold deduplicate_project_file. rewrite Hfile. cbn [files].
    by rewrite Hfile.
Qed.

(** C6. When the repair has found a duplicate, the first write that it
    attempts is the backup of the text as it was.  If that write works,
    the backup is in place before the one write to the file itself; if
    it fails, the call ends in the exception, no write to the file is
    attempted, and the file holds what it held. *)
Theorem backup_comes_first
    (fault : str -> write_fault) (w : world) (file_path stored : str) :
  let content := universal_newlines stored in
  files w !! file_path = Some stored ->
  (0 < snd (dedup_text content))%nat ->
  let backup := backup_path file_path in
  let new_content := fst (dedup_text content) in
  let '(w', out) := deduplicate_project_file fault w file_path in
  match fault backup with
  | NoFault =>
      files w' !! backup = Some content
      /\ exists last_write,
           trace w' = trace w ++ [Wrote backup content; last_write]
           /\ (last_write = Wrote file_path new_content
               \/ last_write = WriteFailed file_path)
  | _ =>
      out = Raised
      /\ files w' !! file_path = Some stored
      /\ trace w' = trace w ++ [WriteFailed backup]
  end.
Proof.
  intros content Hfile Hcount. unfold deduplicate_project_file.
  rewrite Hfile. cbv zeta. fold content.
  destruct (dedup_text content) as [new_content n]. cbn [fst snd] in *.
  apply Nat.ltb_lt in Hcount. rewrite Hcount. unfold write_file.
  pose proof (backup_path_ne file_path) as Hne.
  destruct (fault (backup_path file_path)) as [| |k] eqn:Hbackup; cbn.
  - destruct (fault file_path) as [| |k]; cbn;
      rewrite ?lookup_insert_ne by done; rewrite lookup_insert_eq;
      (split; [done|]); eexists; rewrite <- app_assoc; eauto.
  - repeat split; done.
  - rewrite lookup_insert_ne by done. repeat split; done.
Qed.

Lemma backup_comes_first_witness :
  files sample_world !! sample_path = Some duplicated_manifest
  /\ (0 < snd (dedup_text duplicated_manifest))%nat
  /\ (let '(w', out) :=
         deduplicate_project_file backup_unwritable sample_world sample_path in
       match backup_unwritable (backup_path sample_path) with
       | NoFault =>
           files w' !! backup_path sample_path = Some duplicated_manifest
           /\ exists last_write,
                trace w' = trace sample_world
                           ++ [Wrote (backup_path sample_path)
                                     duplicated_manifest; last_write]
                /\ (last_write
                    = Wrote sample_path (fst (dedup_text duplicated_manifest))
                    \/ last_write = WriteFailed sample_path)
       | _ =>
           out = Raised
           /\ files w' !! sample_path = Some duplicated_manifest
           /\ trace w' = trace sample_world
                         ++ [WriteFailed (backup_path sample_path)]
       end).
Proof.
  assert (files sample_world !! sample_path = Some duplicated_manifest) as H1
    by (vm_compute; reflexivity).
  assert (0 < snd (dedup_text duplicated_manifest))%nat as H2
    by (vm_compute; lia).
  split; [exact H1|]. split; [exact H2|].
  exact (backup_comes_first backup_unwritable sample_world sample_path
           duplicated_manifest H1 H2).
Defined.

(** C7, as stated, fails at the end of a text: in
    [indented_tail_manifest] no two blank lines follow one another; the
    repair removes the second declaration, which brings two blank lines
    together, and they stay in the text produced. *)
Lemma blank_lines_survive_at_end :
  ~ (forall content : str,
       consecutive_blank_lines (split_on nl content) = false ->
       consecutive_blank_lines (split_on nl (fst (dedup_text content)))
       = false).
Proof.
  intros H. specialize (H indented_tail_manifest).
  assert (consecutive_blank_lines (split_on nl indented_tail_manifest)
          = false) as Hin by (vm_compute; reflexivity).
  specialize (H Hin). vm_compute in H. discriminate.
Qed.

End DedupProofs.

Module HexFacts.
Import Py Re Smart.
Local Open Scope N_scope.

Lemma hex_val_digit d : d < 16 -> hex_val (hex_digit d) = d.
Proof.
  intros Hd. unfold hex_val, hex_digit.
  destruct (N.ltb_spec d 10).
  - destruct (N.ltb_spec (48 + d) 58); lia.
  - destruct (N.ltb_spec (55 + d) 58); lia.
Qed.

Lemma is_hex_digit d : d < 16 -> is_hex (hex_digit d) = true.
Proof.
  intros Hd. unfold is_hex, hex_digit.
  destruct (N.ltb_spec d 10).
  - apply orb_true_iff. right. apply andb_true_iff.
    split; apply N.leb_le; lia.
  - apply orb_true_iff. left. apply andb_true_iff.
    split; apply N.leb_le; lia.
Qed.

Lemma hex_value_from b : forall x,
  foldl (fun acc c => acc * 16 + hex_val c) x b
  = x * 16 ^ N.of_nat (length b) + hex_value b.
Proof.
  unfold hex_value. induction b as [|c b IH]; intros x.
  - cbn. lia.
  - cbn [foldl length]. rewrite IH, (IH (0 * 16 + hex_val c)).
    replace (N.of_nat (S (length b))) with (N.succ (N.of_nat (length b)))
      by lia.
    rewrite N.pow_succ_r'. lia.
Qed.

Lemma hex_value_app a b :
  hex_value (a ++ b) = hex_value a * 16 ^ N.of_nat (length b) + hex_value b.
Proof. unfold hex_value at 1. rewrite foldl_app. apply hex_value_from. Qed.

Lemma hex_value_zeros k s : hex_value (replicate k 48 ++ s) = hex_value s.
Proof.
  induction k as [|k IH]; [done|].
  cbn [replicate app]. unfold hex_value in *. cbn [foldl]. exact IH.
Qed.

(** What [to_hex_go] puts in front of [acc]: the digits of [n]. *)
Lemma to_hex_go_spec fuel : forall n acc,
  n < 16 ^ N.of_nat fuel -> (0 < fuel)%nat ->
  exists ds, to_hex_go fuel n acc = ds ++ acc
             /\ hex_value ds = n
             /\ Forall (fun c => is_hex c = true) ds
             /\ (length ds = 1%nat \/ 16 ^ N.of_nat (length ds - 1) <= n).
Proof.
  induction fuel as [|fuel IH]; intros n acc Hn Hfuel; [lia|].
  cbn [to_hex_go].
  assert (n mod 16 < 16) as Hmod by (apply N.mod_lt; lia).
  destruct (N.eqb_spec (n / 16) 0) as [Hq|Hq].
  - exists [hex_digit (n mod 16)]. repeat split.
    + unfold hex_value. cbn. rewrite hex_val_digit by done.
      pose proof (N.div_mod n 16). lia.
    + repeat constructor. by apply is_hex_digit.
    + by left.
  - assert (16 <= n) as Hge.
    { destruct (N.lt_ge_cases n 16) as [Hlt|]; [|done].
      rewrite N.div_small in Hq by done. done. }
    destruct fuel as [|fuel].
    { simpl in Hn. lia. }
    destruct (IH (n / 16) (hex_digit (n mod 16) :: acc))
      as (ds & -> & Hv & Hhex & Hlen); [|lia|].
    { apply N.Div0.div_lt_upper_bound.
      replace (N.of_nat (S (S fuel))) with (N.succ (N.of_nat (S fuel))) in Hn
        by lia.
      by rewrite N.pow_succ_r' in Hn. }
    exists (ds ++ [hex_digit (n mod 16)]). repeat split.
    + by rewrite <- app_assoc.
    + rewrite hex_value_app, Hv. unfold hex_value. cbn.
      rewrite hex_val_digit by done. pose proof (N.div_mod n 16). lia.
    + apply Forall_app. split; [done|]. repeat constructor.
      by apply is_hex_digit.
    + right. rewrite length_app. cbn [length].
      replace (length ds + 1 - 1)%nat with (length ds) by lia.
      assert (16 ^ N.of_nat (length ds) <= 16 * (n / 16)) as Hpow.
      { destruct Hlen as [->|Hlen].
        - cbn. lia.
        - destruct (length ds) as [|k] eqn:Hk; [cbn; lia|].
          replace (N.of_nat (S k)) with (N.succ (N.of_nat k)) by lia.
          rewrite N.pow_succ_r'.
          replace (S k - 1)%nat with k in Hlen by lia.
          by apply N.mul_le_mono_l. }
      eapply N.le_trans; [exact Hpow|]. apply N.Div0.mul_div_le.
Qed.

Lemma size_nat_bound p : N.pos p < 2 ^ N.of_nat (Pos.size_nat p).
Proof.
  induction p as [p IH|p IH|]; cbn [Pos.size_nat].
  - replace (N.of_nat (S (Pos.size_nat p)))
      with (N.succ (N.of_nat (Pos.size_nat p))) by lia.
    rewrite N.pow_succ_r'. lia.
  - replace (N.of_nat (S (Pos.size_nat p)))
      with (N.succ (N.of_nat (Pos.size_nat p))) by lia.
    rewrite N.pow_succ_r'. lia.
  - cbn. lia.
Qed.

Lemma to_hex_fuel n : n < 16 ^ N.of_nat (S (N.size_nat n)).
Proof.
  assert (n < 2 ^ N.of_nat (S (N.size_nat n))) as H2.
  { destruct n as [|p]; [cbn; lia|]. cbn [N.size_nat].
    pose proof (size_nat_bound p).
    replace (N.of_nat (S (Pos.size_nat p)))
      with (N.succ (N.of_nat (Pos.size_nat p))) by lia.
    rewrite N.pow_succ_r'. lia. }
  eapply N.lt_le_trans; [exact H2|].
  apply N.pow_le_mono_l. lia.
Qed.

Lemma to_hex_spec n :
  hex_value (to_hex n) = n
  /\ Forall (fun c => is_hex c = true) (to_hex n)
  /\ (length (to_hex n) = 1%nat
      \/ 16 ^ N.of_nat (length (to_hex n) - 1) <= n).
Proof.
  unfold to_hex.
  destruct (to_hex_go_spec (S (N.size_nat n)) n [] (to_hex_fuel n))
    as (ds & -> & Hv & Hhex & Hlen); [lia|].
  by rewrite app_nil_r.
Qed.

Lemma format_022X_value n : hex_value (format_022X n) = n.
Proof.
  unfold format_022X. rewrite hex_value_zeros. apply to_hex_spec.
Qed.

Lemma format_022X_hex n : Forall (fun c => is_hex c = true) (format_022X n).
Proof.
  unfold format_022X. apply Forall_app. split.
  - apply Forall_replicate. reflexivity.
  - apply to_hex_spec.
Qed.

Lemma format_022X_length n : n < 16 ^ 22 -> length (format_022X n) = 22%nat.
Proof.
  intros Hn. unfold format_022X. rewrite length_app, length_replicate.
  destruct (to_hex_spec n) as (_ & _ & [Hlen|Hlen]); [lia|].
  assert (length (to_hex n) - 1 < 22)%nat; [|lia].
  destruct (le_lt_dec 22 (length (to_hex n) - 1)) as [Hge|]; [|done].
  assert (16 ^ 22 <= 16 ^ N.of_nat (length (to_hex n) - 1)).
  { apply N.pow_le_mono_r; lia. }
  lia.
Qed.

(** *** Identifiers *)

Lemma id_of_value n : hex_value (drop 2 (id_of n)) = n.
Proof. apply format_022X_value. Qed.

Lemma id_of_inj a b : id_of a = id_of b -> a = b.
Proof.
  intros H. apply (f_equal (fun s => hex_value (drop 2 s))) in H.
  by rewrite !id_of_value in H.
Qed.

Lemma id_of_hex n : Forall (fun c => is_hex c = true) (id_of n).
Proof.
  unfold id_of. apply Forall_app. split; [|apply format_022X_hex].
  repeat constructor.
Qed.

Lemma id_of_length n : n < 16 ^ 22 -> length (id_of n) = 24%nat.
Proof.
  intros Hn. unfold id_of. rewrite length_app, format_022X_length by done.
  reflexivity.
Qed.

End HexFacts.

Module BuilderFacts.
Import Py Re Smart HexFacts.

(** *** The allocator *)

Lemma generate_id_spec b :
  generate_id b =
  (id_of (id_counter b + 1),
   Builder (file_refs b) (build_files b) (id_counter b + 1)
           (issued b ++ [id_of (id_counter b + 1)])).
Proof. reflexivity. Qed.

Lemma counters_snoc start n :
  counters start (S n) = counters start n ++ [(start + N.of_nat (S n))%N].
Proof. unfold counters. by rewrite seq_S, map_app. Qed.

Lemma counters_bound start n c :
  c ∈ counters start n -> (start < c <= start + N.of_nat n)%N.
Proof.
  unfold counters. intros (i & -> & Hi)%list_elem_of_fmap.
  apply elem_of_seq in Hi. lia.
Qed.

Lemma counters_NoDup start n : NoDup (counters start n).
Proof.
  unfold counters. apply NoDup_fmap_2_strong; [|apply NoDup_seq].
  intros i j _ _ H. lia.
Qed.

Lemma well_issued_generate b :
  well_issued b -> well_issued (snd (generate_id b)).
Proof.
  intros (start & n & Hc & Hi). exists start, (S n).
  rewrite generate_id_spec. cbn [snd id_counter issued]. split; [lia|].
  rewrite counters_snoc, map_app, Hi, Hc. cbn [map]. do 3 f_equal. lia.
Qed.

Lemma well_issued_new start : well_issued (Builder ∅ ∅ start []).
Proof. exists start, 0%nat. cbn. split; [lia|done]. Qed.

Lemma well_issued_NoDup b : well_issued b -> NoDup (issued b).
Proof.
  intros (start & n & _ & ->).
  apply NoDup_fmap_2_strong; [|apply counters_NoDup].
  intros x y _ _. apply id_of_inj.
Qed.

Lemma well_issued_fresh b :
  well_issued b -> id_of (id_counter b + 1) ∉ issued b.
Proof.
  intros (start & n & Hc & ->) (c & Hid & Hin)%list_elem_of_fmap.
  apply id_of_inj in Hid. apply counters_bound in Hin. lia.
Qed.

Lemma well_issued_width b :
  well_issued b -> (id_counter b < 16 ^ 22)%N ->
  Forall (fun id => length id = 24%nat) (issued b).
Proof.
  intros (start & n & Hc & ->) Hlt. apply Forall_fmap, Forall_forall.
  intros c Hin%counters_bound. cbn. apply id_of_length. lia.
Qed.

Lemma well_issued_hex b :
  well_issued b -> Forall (Forall (fun c => is_hex c = true)) (issued b).
Proof.
  intros (start & n & Hc & ->). apply Forall_fmap, Forall_forall.
  intros c _. apply id_of_hex.
Qed.

End BuilderFacts.

Module LoopFacts.
Import Py Re Smart HexFacts BuilderFacts.

(** *** Declaration lines open with their identifier *)

Lemma hex_prefix_app id c rest :
  Forall (fun c => is_hex c = true) id -> is_hex c = false ->
  hex_prefix (id ++ c :: rest) = id.
Proof.
  intros Hid Hc. induction Hid as [|x id Hx _ IH]; cbn [app hex_prefix].
  - by rewrite Hc.
  - by rewrite Hx, IH.
Qed.

Lemma declared_id_file_reference n f :
  declared_id (file_reference_line (id_of n) f) = id_of n.
Proof.
  unfold declared_id, file_reference_line.
  change (drop 2 (tabs 2 ++ ?x)) with x.
  change (lit " /* " ++ ?x) with (32%N :: (lit "/* " ++ x)).
  apply hex_prefix_app; [apply id_of_hex|reflexivity].
Qed.

Lemma declared_id_build_file phase n rid f :
  declared_id (build_file_line phase (id_of n) rid f) = id_of n.
Proof.
  unfold declared_id, build_file_line.
  change (drop 2 (tabs 2 ++ ?x)) with x.
  change (lit " /* " ++ ?x) with (32%N :: (lit "/* " ++ x)).
  apply hex_prefix_app; [apply id_of_hex|reflexivity].
Qed.

(** *** One turn of the loop *)

Lemma sections_app_assoc a b c :
  sections_app (sections_app a b) c = sections_app a (sections_app b c).
Proof. unfold sections_app. cbn. by rewrite <- !app_assoc. Qed.

Lemma sections_app_nil a : sections_app a no_sections = a.
Proof. destruct a. unfold sections_app. cbn. by rewrite !app_nil_r. Qed.

Lemma process_file_spec acc f b :
  process_file acc f b =
  let rid := id_of (id_counter b + 1) in
  let bid := id_of (id_counter b + 1 + 1) in
  if in_build_phase f then
    (sections_app acc
       (Sections [file_reference_line rid f]
                 [build_file_line (phase_of f) bid rid f]
                 (if is_source f
                  then [phase_member_line (lit "Sources") bid f] else [])
                 (if is_source f
                  then [] else [phase_member_line (lit "Resources") bid f])),
     Builder (<[path f := rid]> (file_refs b)) (build_files b)
             (id_counter b + 1 + 1) (issued b ++ [rid; bid]))
  else
    (sections_app acc (Sections [file_reference_line rid f] [] [] []),
     Builder (<[path f := rid]> (file_refs b)) (build_files b)
             (id_counter b + 1) (issued b ++ [rid])).
Proof.
  unfold process_file, bind, ret, remember_file_ref, phase_of,
    in_build_phase, is_resource, is_source, sections_app.
  rewrite generate_id_spec. cbv beta iota zeta.
  cbn [file_refs build_files id_counter issued].
  destruct (str_eqb (category f) (lit "source")).
  - rewrite generate_id_spec. cbv beta iota zeta.
    cbn [file_refs build_files id_counter issued file_references
         build_file_entries source_build_files resource_build_files
         orb negb andb].
    by rewrite !app_nil_r, <- app_assoc.
  - destruct (str_eqb (category f) (lit "resource")).
    + rewrite generate_id_spec. cbv beta iota zeta.
      cbn [file_refs build_files id_counter issued file_references
           build_file_entries source_build_files resource_build_files
           orb negb andb].
      by rewrite !app_nil_r, <- app_assoc.
    + cbn [file_refs build_files id_counter issued file_references
           build_file_entries source_build_files resource_build_files
           orb negb andb].
      by rewrite !app_nil_r.
Qed.

Lemma process_files_cons acc f files b :
  process_files acc (f :: files) b =
  let '(acc1, b1) := process_file acc f b in process_files acc1 files b1.
Proof. reflexivity. Qed.

(** *** The whole loop *)

Lemma process_files_spec files : forall acc b,
  well_issued b ->
  exists d new,
    fst (process_files acc files b) = sections_app acc d
    /\ Forall2 (fun line f => exists rid, line = file_reference_line rid f)
         (file_references d) files
    /\ Forall2 (fun line f => exists bid rid,
                  line = build_file_line (phase_of f) bid rid f)
         (build_file_entries d)
         (filter (fun f => in_build_phase f = true) files)
    /\ Forall2 (fun line f => exists bid,
                  line = phase_member_line (lit "Sources") bid f)
         (source_build_files d) (filter (fun f => is_source f = true) files)
    /\ Forall2 (fun line f => exists bid,
                  line = phase_member_line (lit "Resources") bid f)
         (resource_build_files d)
         (filter (fun f => is_resource f = true) files)
    /\ well_issued (snd (process_files acc files b))
    /\ issued (snd (process_files acc files b)) = issued b ++ new
    /\ new ≡ₚ map declared_id (file_references d)
              ++ map declared_id (build_file_entries d)
    /\ (id_counter (snd (process_files acc files b))
        <= id_counter b + 2 * N.of_nat (length files))%N.
Proof.
  induction files as [|f files IH]; intros acc b Hb.
  - exists no_sections, []. cbn [process_files ret fst snd].
    rewrite sections_app_nil, app_nil_r. cbn.
    repeat split; try done; try constructor. lia.
  - rewrite process_files_cons, process_file_spec. cbv zeta.
    set (rid := id_of (id_counter b + 1)).
    set (bid := id_of (id_counter b + 1 + 1)).
    assert (well_issued
              (Builder (<[path f := rid]> (file_refs b)) (build_files b)
                 (id_counter b + 1) (issued b ++ [rid]))) as Hb1.
    { destruct (well_issued_generate b Hb) as (s & n & Hc & Hi).
      exists s, n. split; [exact Hc|exact Hi]. }
    assert (well_issued
              (Builder (<[path f := rid]> (file_refs b)) (build_files b)
                 (id_counter b + 1 + 1) (issued b ++ [rid; bid]))) as Hb2.
    { destruct (well_issued_generate _ Hb1) as (s & n & Hc & Hi).
      exists s, n. split; [exact Hc|]. cbn in Hi.
      by rewrite <- app_assoc in Hi. }
    rewrite !filter_cons. unfold in_build_phase.
    destruct (is_source f) eqn:Hsrc.
    + assert (is_resource f = false) as Hres'
        by (unfold is_resource; by rewrite Hsrc).
      rewrite Hres'. cbn [orb].
      destruct (IH (sections_app acc
                     (Sections [file_reference_line rid f]
                        [build_file_line (phase_of f) bid rid f]
                        [phase_member_line (lit "Sources") bid f] []))
                  _ Hb2)
        as (d & new & -> & Hr & Hbe & Hs & Hres & Hw & -> & Hperm & Hcnt).
      eexists (sections_app _ d), (rid :: bid :: new).
      rewrite sections_app_assoc. split; [reflexivity|].
      cbn [sections_app file_references build_file_entries
           source_build_files resource_build_files app] in *.
      rewrite !decide_True by done. rewrite decide_False by done.
      repeat split.
      * constructor; [by eexists|done].
      * constructor; [by eexists _, _|done].
      * constructor; [by eexists|done].
      * done.
      * done.
      * cbn [issued]. by rewrite <- app_assoc.
      * cbn [map]. unfold rid at 2, bid at 2.
        rewrite declared_id_file_reference, declared_id_build_file.
        rewrite Hperm. fold rid bid.
        rewrite (Permutation_middle _ _ bid). done.
      * cbn [id_counter length] in *. lia.
    + destruct (is_resource f) eqn:Hres'; cbn [orb].
      * destruct (IH (sections_app acc
                     (Sections [file_reference_line rid f]
                        [build_file_line (phase_of f) bid rid f]
                        [] [phase_member_line (lit "Resources") bid f]))
                  _ Hb2)
          as (d & new & -> & Hr & Hbe & Hs & Hres & Hw & -> & Hperm & Hcnt).
        eexists (sections_app _ d), (rid :: bid :: new).
        rewrite sections_app_assoc. split; [reflexivity|].
        cbn [sections_app file_references build_file_entries
             source_build_files resource_build_files app] in *.
        rewrite !decide_True by done. rewrite decide_False by done.
        repeat split.
        -- constructor; [by eexists|done].
        -- constructor; [by eexists _, _|done].
        -- done.
        -- constructor; [by eexists|done].
        -- done.
        -- cbn [issued]. by rewrite <- app_assoc.
        -- cbn [map]. unfold rid at 2, bid at 2.
           rewrite declared_id_file_reference, declared_id_build_file.
           rewrite Hperm. fold rid bid.
           rewrite (Permutation_middle _ _ bid). done.
        -- cbn [id_counter length] in *. lia.
      * destruct (IH (sections_app acc
                     (Sections [file_reference_line rid f] [] [] []))
                  _ Hb1)
          as (d & new & -> & Hr & Hbe & Hs & Hres & Hw & -> & Hperm & Hcnt).
        eexists (sections_app _ d), (rid :: new).
        rewrite sections_app_assoc. split; [reflexivity|].
        cbn [sections_app file_references build_file_entries
             source_build_files resource_build_files app] in *.
        rewrite !decide_False by done.
        repeat split.
        -- constructor; [by eexists|done].
        -- done.
        -- done.
        -- done.
        -- done.
        -- cbn [issued]. by rewrite <- app_assoc.
        -- cbn [map]. unfold rid at 2.
           rewrite declared_id_file_reference, Hperm. done.
        -- cbn [id_counter length] in *. lia.
Qed.

End LoopFacts.

Module SmartProofs.
Import Py Re Smart HexFacts BuilderFacts LoopFacts.

(** *** Several calls of the allocator *)

Lemma counters_cons start n :
  counters start (S n) = (start + 1)%N :: counters (start + 1) n.
Proof.
  unfold counters. cbn [seq map]. f_equal.
  rewrite <- seq_shift, map_map. apply map_ext. intros i. lia.
Qed.

Lemma generate_ids_spec n : forall b,
  fst (generate_ids n b) = map id_of (counters (id_counter b) n)
  /\ issued (snd (generate_ids n b)) = issued b ++ fst (generate_ids n b)
  /\ id_counter (snd (generate_ids n b)) = (id_counter b + N.of_nat n)%N
  /\ file_refs (snd (generate_ids n b)) = file_refs b.
Proof.
  induction n as [|n IH]; intros b.
  - cbn. rewrite app_nil_r. repeat split. lia.
  - cbn [generate_ids]. unfold bind, ret. rewrite generate_id_spec.
    cbv beta iota zeta.
    specialize (IH (Builder (file_refs b) (build_files b) (id_counter b + 1)
                      (issued b ++ [id_of (id_counter b + 1)]))).
    destruct (generate_ids n _) as [rest b'].
    cbn [fst snd id_counter issued file_refs] in *.
    destruct IH as (-> & -> & -> & ->).
    rewrite counters_cons, <- app_assoc. repeat split. lia.
Qed.

Lemma generate_ids_well_issued n : forall b,
  well_issued b -> well_issued (snd (generate_ids n b)).
Proof.
  induction n as [|n IH]; intros b Hb; [done|].
  cbn [generate_ids]. unfold bind, ret.
  pose proof (well_issued_generate b Hb) as Hb1.
  destruct (generate_id b) as [id b1]. cbn [snd] in Hb1.
  specialize (IH b1 Hb1). by destruct (generate_ids n b1).
Qed.

Lemma generate_fixed_ids_as_list b :
  fixed_list (fst (generate_fixed_ids b)) = fst (generate_ids 15 b)
  /\ snd (generate_fixed_ids b) = snd (generate_ids 15 b).
Proof.
  cbv [generate_fixed_ids generate_ids bind ret generate_id fixed_list
       fst snd id_counter issued file_refs build_files
       main_group_id products_group_id vitalsense_group_id main_target_id
       main_product_id sources_phase_id frameworks_phase_id
       resources_phase_id target_config_list_id project_config_list_id
       target_debug_config_id target_release_config_id
       project_debug_config_id project_release_config_id
       project_object_id].
  split; reflexivity.
Qed.

(** *** The lists of [build_smart_project] *)

Lemma build_sections_unfold files b :
  build_sections files b =
  let ids := fst (generate_fixed_ids b) in
  let b1 := snd (generate_fixed_ids b) in
  let start := Sections [product_reference (main_product_id ids)] [] [] [] in
  let secs := fst (process_files start files b1) in
  let b2 := snd (process_files start files b1) in
  (ids, secs, map (file_child_line b2) files, b2).
Proof.
  unfold build_sections, bind. destruct (generate_fixed_ids b) as [ids b1].
  cbn [fst snd]. by destruct (process_files _ files b1).
Qed.

Lemma build_sections_spec files :
  let '(ids, secs, _, b') := build_sections files new_builder in
  exists d,
    secs = sections_app
             (Sections [product_reference (main_product_id ids)] [] [] []) d
    /\ Forall2 (fun line f => exists rid, line = file_reference_line rid f)
         (file_references d) files
    /\ Forall2 (fun line f => exists bid rid,
                  line = build_file_line (phase_of f) bid rid f)
         (build_file_entries d)
         (filter (fun f => in_build_phase f = true) files)
    /\ Forall2 (fun line f => exists bid,
                  line = phase_member_line (lit "Sources") bid f)
         (source_build_files d) (filter (fun f => is_source f = true) files)
    /\ Forall2 (fun line f => exists bid,
                  line = phase_member_line (lit "Resources") bid f)
         (resource_build_files d)
         (filter (fun f => is_resource f = true) files)
    /\ well_issued b'
    /\ issued b' ≡ₚ fixed_list ids ++ map declared_id (file_references d)
                     ++ map declared_id (build_file_entries d)
    /\ (id_counter b' <= 0x2000 + 15 + 2 * N.of_nat (length files))%N.
Proof.
  rewrite build_sections_unfold. cbv zeta.
  destruct (generate_fixed_ids_as_list new_builder) as [Hids Hb1].
  destruct (generate_ids_spec 15 new_builder) as (_ & Hissued & Hcount & _).
  pose proof (generate_ids_well_issued 15 new_builder (well_issued_new _))
    as Hw1.
  rewrite <- Hb1 in Hissued, Hcount, Hw1. rewrite <- Hids in Hissued.
  set (ids := fst (generate_fixed_ids new_builder)) in *.
  set (b1 := snd (generate_fixed_ids new_builder)) in *.
  destruct (process_files_spec files
              (Sections [product_reference (main_product_id ids)] [] [] [])
              b1 Hw1)
    as (d & new & Hsecs & Hr & Hbe & Hs & Hres & Hw & Hiss & Hperm & Hcnt).
  exists d.
  split; [exact Hsecs|]. split; [exact Hr|]. split; [exact Hbe|].
  split; [exact Hs|]. split; [exact Hres|]. split; [exact Hw|]. split.
  - rewrite Hiss, Hissued, Hperm. cbn [issued new_builder app].
    reflexivity.
  - rewrite Hcount in Hcnt. cbn [id_counter new_builder] in Hcnt.
    change (N.of_nat 15) with 15%N in Hcnt.
    change (id_counter new_builder) with 0x2000%N in Hcnt. exact Hcnt.
Qed.

(** *** The claims *)


(** The same directory with the entry point and the entitlements under
    the names that the classifier knows ([VitalSenseApp.swift],
    [VitalSense.entitlements]): the scan classifies the two Swift files
    as source, the asset catalog as resource, the entitlements as
    entitlements and leaves the test out; the Sources phase of the
    manifest lists the two source files, in the order in which the walk
    found them. *)
Example scan_of_app_tree :
  map (fun f => (path f, category f)) (scan_smart_files app_tree) =
    [ (lit "VitalSenseApp.swift", lit "source");
      (lit "Assets.xcassets", lit "resource");
      (lit "VitalSense.entitlements", lit "entitlements");
      (lit "Core/Model.swift", lit "source") ]
  /\ should_include_file (lit "Tests/ModelTests.swift")
                         (lit "ModelTests.swift") = false
  /\ (let '(_, secs, _, _) :=
         build_sections (scan_smart_files app_tree) new_builder in
      source_build_files secs =
        [ tabs 4 ++ id_of 0x2011 ++ lit " /* VitalSenseApp.swift in Sources */,";
          tabs 4 ++ id_of 0x2016 ++ lit " /* Model.swift in Sources */," ])
  /\ contains
       (join [nl]
          [ tabs 3 ++ lit "isa = PBXSourcesBuildPhase;";
            tabs 3 ++ lit "buildActionMask = 2147483647;";
            tabs 3 ++ lit "files = (";
            tabs 4 ++ id_of 0x2011
              ++ lit " /* VitalSenseApp.swift in Sources */,";
            tabs 4 ++ id_of 0x2016 ++ lit " /* Model.swift in Sources */,";
            tabs 3 ++ lit ");" ])
       (fst (import_project app_tree new_builder)) = true.
Proof. vm_compute. repeat split; reflexivity. Qed.



(** C8. Identifiers returned by successive calls of [generate_id] are
    pairwise distinct, whatever the state of the builder.  In one run
    of the builder from a new state, the identifiers issued are pairwise
    distinct; they are the identifiers of the fifteen fixed objects, of
    the FileReference lines of the items and of the BuildFileEntry
    lines, so that no two objects share one; and all of them are 24
    characters wide as long as the counter stays below [16^22], which it
    does for fewer than [16^21] files. *)
Theorem identifiers_are_distinct
    (files : list file_info) (n : nat) (b : builder) :
  NoDup (fst (generate_ids n b))
  /\ (let '(ids, secs, _, b') := build_sections files new_builder in
      NoDup (issued b')
      /\ fixed_list ids
         ++ map declared_id (tail (file_references secs))
         ++ map declared_id (build_file_entries secs) ≡ₚ issued b'
      /\ ((N.of_nat (length files) < 16 ^ 21)%N ->
          Forall (fun id => length id = 24%nat) (issued b'))).
Proof.
  split.
  { destruct (generate_ids_spec n b) as (-> & _).
    apply NoDup_fmap_2_strong; [|apply counters_NoDup].
    intros x y _ _. apply id_of_inj. }
  pose proof (build_sections_spec files) as H.
  destruct (build_sections files new_builder) as [[[ids secs] children] b'].
  destruct H as (d & -> & _ & _ & _ & _ & Hw & Hperm & Hcnt).
  unfold sections_app. cbn [file_references build_file_entries app tail].
  split; [by apply well_issued_NoDup|]. split; [done|].
  intros Hlen. apply well_issued_width; [done|].
  eapply N.le_lt_trans; [exact Hcnt|].
  change (16 ^ 22)%N with (16 * 16 ^ 21)%N.
  assert (0x2000 + 15 < 16 ^ 21)%N by reflexivity.
  set (m := (16 ^ 21)%N) in *. lia.
Qed.

Lemma identifiers_are_distinct_witness :
  (N.of_nat (length (scan_smart_files app_tree)) < 16 ^ 21)%N
  /\ NoDup (fst (generate_ids 3 (Builder ∅ ∅ 0x5000 [])))
  /\ (let '(ids, secs, _, b') :=
         build_sections (scan_smart_files app_tree) new_builder in
      NoDup (issued b')
      /\ fixed_list ids
         ++ map declared_id (tail (file_references secs))
         ++ map declared_id (build_file_entries secs) ≡ₚ issued b'
      /\ Forall (fun id => length id = 24%nat) (issued b')).
Proof.
  assert (N.of_nat (length (scan_smart_files app_tree)) < 16 ^ 21)%N as Hlen
    by (vm_compute; reflexivity).
  split; [exact Hlen|].
  pose proof (identifiers_are_distinct (scan_smart_files app_tree) 3
                (Builder ∅ ∅ 0x5000 [])) as [Hids Hrun].
  split; [exact Hids|].
  destruct (build_sections (scan_smart_files app_tree) new_builder)
    as [[[ids secs] children] b'].
  destruct Hrun as (Hnd & Hperm & Hwidth).
  split; [exact Hnd|]. split; [exact Hperm|]. exact (Hwidth Hlen).
Defined.

(** C10. A file whose name contains one of the excluded markers
    anywhere in it is excluded, whatever its directory. *)
Theorem marker_in_name_excludes (file_path file_name pattern : str) :
  pattern ∈ excluded_patterns ->
  contains pattern file_name = true ->
  should_include_file file_path file_name = false.
Proof.
  intros Hin Hsub. unfold should_include_file.
  destruct (existsb _ excluded_dirs); [reflexivity|].
  assert (existsb (fun pattern => contains pattern file_name)
            excluded_patterns = true) as ->; [|reflexivity].
  apply existsb_exists. exists pattern. split; [|done].
  by apply list_elem_of_In.
Qed.

Lemma marker_in_name_excludes_witness :
  should_include_file (lit "Core/WatchlistView.swift")
                      (lit "WatchlistView.swift") = false
  /\ should_include_file (lit "Features/BridgeView.swift")
                         (lit "BridgeView.swift") = false.
Proof.
  split.
  - apply (marker_in_name_excludes _ _ (lit "Watch")).
    + do 2 apply list_elem_of_further. apply list_elem_of_here.
    + vm_compute. reflexivity.
  - apply (marker_in_name_excludes _ _ (lit "Bridge")).
    + do 4 apply list_elem_of_further. apply list_elem_of_here.
    + vm_compute. reflexivity.
Defined.

End SmartProofs.

Module ReaderFacts.
Import Py Re Smart Graph LineFacts HexFacts BuilderFacts LoopFacts SmartProofs.
Local Open Scope N_scope.

(** *** Cutting strings *)

Lemma strip_prefix_app p r : strip_prefix p (p ++ r) = Some r.
Proof.
  induction p as [|a p IH]; [by destruct r|].
  cbn [app strip_prefix]. by rewrite N.eqb_refl.
Qed.

Lemma strip_last_snoc c a : strip_last c (a ++ [c]) = Some a.
Proof.
  unfold strip_last. rewrite rev_app_distr. cbn [rev app].
  by rewrite N.eqb_refl, rev_involutive.
Qed.

Lemma split_first_app c a b :
  c ∉ a -> split_first c (a ++ c :: b) = Some (a, b).
Proof.
  induction a as [|x a IH]; intros Hc; cbn [app split_first].
  - by rewrite N.eqb_refl.
  - apply not_elem_of_cons in Hc as [Hx Ha].
    destruct (N.eqb_spec x c); [done|]. by rewrite IH.
Qed.

Lemma hex_prefix_id n c rest :
  is_hex c = false -> hex_prefix (id_of n ++ c :: rest) = id_of n.
Proof. intros Hc. apply hex_prefix_app; [apply id_of_hex|done]. Qed.

Lemma id_of_no c n : is_hex c = false -> c ∉ id_of n.
Proof.
  intros Hc Hin. pose proof (id_of_hex n) as Hhex.
  rewrite Forall_forall in Hhex. apply Hhex in Hin. congruence.
Qed.

(** *** Reading a declaration line *)

Lemma read_id_spec n rest :
  read_id (tabs 2 ++ id_of n ++ lit " /* " ++ rest) = Some (id_of n, rest).
Proof.
  unfold read_id.
  change (tabs 2 ++ ?x) with ([tab; tab] ++ x).
  rewrite strip_prefix_app. cbn [mbind option_bind].
  change (lit " /* " ++ rest) with (32%N :: (lit "/* " ++ rest)).
  rewrite hex_prefix_id by reflexivity.
  rewrite drop_app_length.
  change (32%N :: (lit "/* " ++ rest)) with (lit " /* " ++ rest).
  by rewrite strip_prefix_app.
Qed.

Lemma read_reference_line n name type path :
  star ∉ name -> semicolon ∉ type -> dq ∉ path ->
  read_file_reference (reference_line (FileReference (id_of n) name type path))
  = Some (FileReference (id_of n) name type path).
Proof.
  intros Hname Htype Hpath.
  unfold read_file_reference, reference_line, file_reference_line.
  cbn [fr_id fr_name fr_type fr_path Smart.name Smart.type Smart.path].
  rewrite read_id_spec. cbn [mbind option_bind].
  change (lit " */ = {isa = PBXFileReference; lastKnownFileType = " ++ ?x)
    with ([space] ++ star ::
            (lit "/ = {isa = PBXFileReference; lastKnownFileType = " ++ x)).
  rewrite (app_assoc name [space]), split_first_app.
  2:{ rewrite not_elem_of_app. split; [done|]. by intros ?%list_elem_of_singleton. }
  cbn [mbind option_bind]. rewrite strip_last_snoc. cbn [mbind option_bind].
  rewrite strip_prefix_app. cbn [mbind option_bind].
  change (lit "; path = " ++ ?x) with (semicolon :: (lit " path = " ++ x)).
  rewrite split_first_app by done. cbn [mbind option_bind].
  rewrite (app_assoc (lit " path = ")), strip_prefix_app.
  cbn [mbind option_bind].
  change ([dq] ++ ?x) with (dq :: x).
  rewrite split_first_app by done. cbn [mbind option_bind].
  unfold str_eqb. by rewrite bool_decide_eq_true_2.
Qed.

Lemma read_entry_line n m name phase :
  star ∉ name -> phase = lit "Sources" \/ phase = lit "Resources" ->
  read_build_file (entry_line (BuildFileEntry (id_of n) name phase (id_of m)))
  = Some (BuildFileEntry (id_of n) name phase (id_of m)).
Proof.
  intros Hname Hphase.
  assert (star ∉ phase) as Hstar.
  { destruct Hphase as [-> | ->]; intros Hin;
      apply list_elem_of_In in Hin; simpl in Hin;
      repeat destruct Hin as [Hin|Hin]; done. }
  unfold read_build_file, entry_line, build_file_line.
  cbn [bf_id bf_name bf_phase bf_file_ref Smart.name].
  rewrite read_id_spec. cbn [mbind option_bind].
  change (lit " */ = {isa = PBXBuildFile; fileRef = " ++ ?x)
    with ([space] ++ star ::
            (lit "/ = {isa = PBXBuildFile; fileRef = " ++ x)).
  rewrite !(app_assoc name), !(app_assoc (name ++ lit " in ")),
    (app_assoc ((name ++ lit " in ") ++ phase)).
  rewrite split_first_app.
  2:{ rewrite !not_elem_of_app. repeat split; try done.
      - intros Hin. apply list_elem_of_In in Hin. simpl in Hin.
        repeat destruct Hin as [Hin|Hin]; done.
      - by intros ?%list_elem_of_singleton. }
  cbn [mbind option_bind]. rewrite strip_prefix_app. cbn [mbind option_bind].
  change (lit " /* " ++ ?x) with (32%N :: (lit "/* " ++ x)).
  rewrite hex_prefix_id by reflexivity. rewrite drop_app_length.
  change (32%N :: (lit "/* " ++ ?x)) with (lit " /* " ++ x).
  rewrite strip_prefix_app. cbn [mbind option_bind].
  change (lit " */; };") with ([space] ++ star :: lit "/; };").
  rewrite (app_assoc name [space]), split_first_app.
  2:{ rewrite not_elem_of_app. split; [done|]. by intros ?%list_elem_of_singleton. }
  cbn [mbind option_bind]. rewrite strip_last_snoc. cbn [mbind option_bind].
  rewrite <- (app_assoc (name ++ lit " in ")), strip_prefix_app.
  cbn [mbind option_bind]. rewrite strip_last_snoc. cbn [mbind option_bind].
  unfold str_eqb. rewrite bool_decide_eq_true_2 by done. cbn [andb].
  destruct Hphase as [-> | ->]; reflexivity.
Qed.

Lemma read_product_line n :
  read_product (product_reference (id_of n)) = Some (id_of n).
Proof.
  unfold read_product, product_reference.
  change (tabs 2 ++ ?x) with ([tab; tab] ++ x).
  rewrite strip_prefix_app. cbn [mbind option_bind].
  match goal with |- context [id_of n ++ lit ?s] =>
    change (lit s) with (32%N :: tail (lit s)) end.
  rewrite hex_prefix_id by reflexivity. rewrite drop_app_length.
  unfold str_eqb. by rewrite bool_decide_eq_true_2.
Qed.

(** *** The lines of the manifest *)

Lemma split_on_app_sep x y :
  split_on nl (x ++ nl :: y) = split_on nl x ++ split_on nl y.
Proof.
  induction x as [|c x IH]; [reflexivity|].
  cbn [app split_on]. destruct (c =? nl); [by rewrite IH|].
  rewrite IH. pose proof (split_on_nonempty nl x).
  by destruct (split_on nl x).
Qed.

Lemma lines_join_app A B :
  B <> [] ->
  split_on nl (join [nl] (A ++ B))
  = flat_map (split_on nl) A ++ split_on nl (join [nl] B).
Proof.
  intros HB. induction A as [|x A IH]; [reflexivity|].
  cbn [app flat_map]. destruct (A ++ B) as [|y r] eqn:HAB.
  { by destruct A, B. }
  change (join [nl] (x :: y :: r)) with (x ++ nl :: join [nl] (y :: r)).
  by rewrite split_on_app_sep, IH, app_assoc.
Qed.

(** The lines of a spliced list: the list itself, or one empty line when
    the list is empty. *)
Lemma lines_of_spliced ls :
  Forall (fun l => nl ∉ l) ls ->
  split_on nl (join [nl] ls) = if ls is [] then [[]] else ls.
Proof. intros Hls. destruct ls; [reflexivity|]. by apply split_join. Qed.

Lemma after_line_app marker A Y :
  Forall (fun l => l <> marker) A ->
  after_line marker (A ++ marker :: Y) = Some Y.
Proof.
  unfold str_eqb. induction 1 as [|l A Hl _ IH]; cbn [app after_line].
  - unfold str_eqb. by rewrite bool_decide_eq_true_2.
  - unfold str_eqb. by rewrite bool_decide_eq_false_2.
Qed.

Lemma before_line_app marker A Y :
  Forall (fun l => l <> marker) A ->
  before_line marker (A ++ marker :: Y) = Some A.
Proof.
  induction 1 as [|l A Hl _ IH]; cbn [app before_line].
  - unfold str_eqb. by rewrite bool_decide_eq_true_2.
  - unfold str_eqb. rewrite bool_decide_eq_false_2 by done. by rewrite IH.
Qed.

Lemma project_content_head
    i1 i2 i3 i4 i5 i6 i7 i8 i9 i10 i11 i12 i13 i14 i15 BE FR CH RES SRC :
  exists rest, rest <> [] /\
    project_content i1 i2 i3 i4 i5 i6 i7 i8 i9 i10 i11 i12 i13 i14 i15
      BE FR CH RES SRC
    = join [nl]
        ((preamble
          ++ [ begin_marker "PBXBuildFile"; join [nl] BE;
               end_marker "PBXBuildFile"; [];
               begin_marker "PBXFileReference"; join [nl] FR;
               end_marker "PBXFileReference" ])
         ++ rest).
Proof.
  eexists. split; [|unfold project_content; reflexivity]. discriminate.
Qed.

Lemma manifest_lines i1 i2 i3 i4 i5 i6 i7 i8 i9 i10 i11 i12 i13 i14 i15
    BE FR CH RES SRC :
  exists rest,
    split_on nl
      (project_content i1 i2 i3 i4 i5 i6 i7 i8 i9 i10 i11 i12 i13 i14 i15
         BE FR CH RES SRC)
    = preamble
      ++ begin_marker "PBXBuildFile"
      :: split_on nl (join [nl] BE)
      ++ end_marker "PBXBuildFile"
      :: ([[]]
          ++ begin_marker "PBXFileReference"
          :: split_on nl (join [nl] FR)
          ++ end_marker "PBXFileReference" :: rest).
Proof.
  destruct (project_content_head i1 i2 i3 i4 i5 i6 i7 i8 i9 i10 i11 i12 i13
              i14 i15 BE FR CH RES SRC) as (rest & Hrest & ->).
  exists (split_on nl (join [nl] rest)).
  rewrite lines_join_app by done.
  generalize (split_on nl (join [nl] rest)) as T.
  generalize (join [nl] BE) as be. generalize (join [nl] FR) as fr.
  intros fr be T. rewrite flat_map_app. cbn [flat_map].
  rewrite <- !app_assoc. cbn [app]. reflexivity.
Qed.

Lemma unmarked_begin isa l : unmarked l -> l <> begin_marker isa.
Proof. intros Hl ->. by apply Hl. Qed.

Lemma unmarked_end isa l : unmarked l -> l <> end_marker isa.
Proof. intros Hl ->. by apply Hl. Qed.

Lemma sections_of_manifest be fr rest :
  Forall unmarked be -> Forall unmarked fr ->
  let ls := preamble
            ++ begin_marker "PBXBuildFile"
            :: be
            ++ end_marker "PBXBuildFile"
            :: ([[]]
                ++ begin_marker "PBXFileReference"
                :: fr ++ end_marker "PBXFileReference" :: rest) in
  section "PBXBuildFile" ls = Some be
  /\ section "PBXFileReference" ls = Some fr.
Proof.
  intros Hbe Hfr ls. subst ls. unfold section. split.
  - rewrite after_line_app.
    2:{ repeat constructor; discriminate. }
    cbn [mbind option_bind]. apply before_line_app.
    eapply Forall_impl; [exact Hbe|]. intros l. apply unmarked_end.
  - set (after := fr ++ end_marker "PBXFileReference" :: rest).
    change (preamble ++ ?b :: be ++ ?e :: ([[]] ++ ?m :: after))
      with (preamble ++ (b :: be) ++ [e; []] ++ m :: after).
    rewrite !app_assoc, after_line_app.
    2:{ rewrite !Forall_app. repeat split.
        - repeat constructor; discriminate.
        - constructor; [discriminate|].
          eapply Forall_impl; [exact Hbe|]. intros l. apply unmarked_begin.
        - repeat constructor; discriminate. }
    subst after.
    cbn [mbind option_bind]. apply before_line_app.
    eapply Forall_impl; [exact Hfr|]. intros l. apply unmarked_end.
Qed.

(** *** The lines that the loop writes *)

Lemma has_false c s : has c s = false -> c ∉ s.
Proof.
  intros Hhas Hin. apply list_elem_of_In in Hin.
  assert (existsb (N.eqb c) s = true) as Hex; [|unfold has in *; congruence].
  apply existsb_exists. exists c. split; [done|apply N.eqb_refl].
Qed.

Lemma plain_item_spec f :
  plain_item f = true ->
  ((nl ∉ name f) /\ (star ∉ name f))
  /\ ((nl ∉ type f) /\ (semicolon ∉ type f))
  /\ ((nl ∉ path f) /\ (dq ∉ path f)).
Proof.
  unfold plain_item. rewrite !andb_true_iff, !negb_true_iff.
  intros [[[[[H1 H2] H3] H4] H5] H6]. repeat split; by apply has_false.
Qed.

Ltac no_char :=
  first [ assumption
        | apply id_of_no; reflexivity
        | apply has_false; reflexivity ].

Lemma reference_reads n f :
  plain_item f = true ->
  let r := FileReference (id_of n) (name f) (type f) (path f) in
  reads_as read_file_reference (reference_line r) r.
Proof.
  intros ((Hn1 & Hn2) & (Ht1 & Ht2) & (Hp1 & Hp2))%plain_item_spec r.
  subst r. split; [by apply read_reference_line|].
  unfold reference_line, file_reference_line.
  cbn [fr_id fr_name fr_type fr_path Smart.name Smart.type Smart.path].
  split; [|split; [|discriminate]].
  - rewrite !not_elem_of_app. repeat split; no_char.
  - unfold unmarked. discriminate.
Qed.

Lemma phase_of_cases f :
  phase_of f = lit "Sources" \/ phase_of f = lit "Resources".
Proof. unfold phase_of. destruct (is_source f); [by left|by right]. Qed.

Lemma entry_reads n m f :
  plain_item f = true ->
  let e := BuildFileEntry (id_of n) (name f) (phase_of f) (id_of m) in
  reads_as read_build_file (entry_line e) e.
Proof.
  intros ((Hn1 & Hn2) & _)%plain_item_spec e. subst e.
  split; [apply read_entry_line; [done|apply phase_of_cases]|].
  assert (nl ∉ phase_of f) as Hphase.
  { destruct (phase_of_cases f) as [-> | ->]; no_char. }
  unfold entry_line, build_file_line.
  cbn [bf_id bf_name bf_phase bf_file_ref Smart.name].
  split; [|split; [|discriminate]].
  - rewrite !not_elem_of_app. repeat split; no_char.
  - unfold unmarked. discriminate.
Qed.

Lemma product_reads n :
  reads_as read_product (product_reference (id_of n)) (id_of n).
Proof.
  split; [apply read_product_line|]. unfold product_reference.
  split; [|split; [|discriminate]].
  - rewrite !not_elem_of_app. repeat split; no_char.
  - unfold unmarked. discriminate.
Qed.

(** The objects that [declare] lists read back from their lines. *)
Lemma declare_reads files : forall counter,
  forallb plain_item files = true ->
  Forall (fun r => reads_as read_file_reference (reference_line r) r)
         (declare counter files).1
  /\ Forall (fun e => reads_as read_build_file (entry_line e) e)
            (declare counter files).2.
Proof.
  induction files as [|f files IH]; intros counter Hplain; [by split|].
  cbn [forallb] in Hplain. apply andb_true_iff in Hplain as [Hf Hplain].
  cbn [declare]. destruct (in_build_phase f).
  - destruct (IH (counter + 1 + 1) Hplain) as [Hrs Hes].
    destruct (declare (counter + 1 + 1) files) as [rs es].
    split; constructor; try done.
    + by apply reference_reads.
    + by apply entry_reads.
  - destruct (IH (counter + 1) Hplain) as [Hrs Hes].
    destruct (declare (counter + 1) files) as [rs es].
    split; [constructor|]; try done. by apply reference_reads.
Qed.

(** The two declaration sections that the loop fills are the lines of
    the objects that [declare] lists. *)
Lemma process_files_declare files : forall acc b,
  file_references (fst (process_files acc files b))
  = file_references acc
    ++ map reference_line (declare (id_counter b) files).1
  /\ build_file_entries (fst (process_files acc files b))
     = build_file_entries acc
       ++ map entry_line (declare (id_counter b) files).2.
Proof.
  induction files as [|f files IH]; intros acc b.
  - cbn [process_files ret fst declare snd map]. by rewrite !app_nil_r.
  - rewrite process_files_cons, process_file_spec. cbv zeta.
    cbn [declare]. destruct (in_build_phase f).
    + match goal with |- context [process_files ?a files ?b1] =>
        destruct (IH a b1) as [-> ->] end.
      cbn [id_counter sections_app file_references build_file_entries].
      destruct (declare (id_counter b + 1 + 1) files) as [rs es].
      cbn [fst snd map]. by rewrite <- !app_assoc.
    + match goal with |- context [process_files ?a files ?b1] =>
        destruct (IH a b1) as [-> ->] end.
      cbn [id_counter sections_app file_references build_file_entries].
      destruct (declare (id_counter b + 1) files) as [rs es].
      cbn [fst snd map]. by rewrite <- !app_assoc.
Qed.

(** *** Reading the manifest *)

Lemma filter_nonempty (ls : list str) :
  Forall (fun l => l <> []) ls -> filter (fun l => l <> []) ls = ls.
Proof.
  induction 1 as [|l ls Hl _ IH]; [done|].
  by rewrite filter_cons_True, IH.
Qed.

Lemma mapM_lines {A} (read : str -> option A) (line : A -> str) xs :
  Forall (fun x => reads_as read (line x) x) xs ->
  mapM read (map line xs) = Some xs.
Proof.
  intros Hxs. apply mapM_Some, Forall2_fmap_l, Forall_Forall2_diag.
  eapply Forall_impl; [exact Hxs|]. by intros x [Hx _].
Qed.

Lemma lines_of_section {A} (read : str -> option A) (line : A -> str) xs :
  Forall (fun x => reads_as read (line x) x) xs ->
  Forall unmarked (split_on nl (join [nl] (map line xs)))
  /\ filter (fun l => l <> []) (split_on nl (join [nl] (map line xs)))
     = map line xs.
Proof.
  intros Hxs. rewrite lines_of_spliced.
  2:{ apply Forall_fmap. eapply Forall_impl; [exact Hxs|].
      by intros x (_ & Hx & _). }
  destruct xs as [|x xs]; [split; [by repeat constructor|reflexivity]|].
  split.
  - apply Forall_fmap. eapply Forall_impl; [exact Hxs|].
    by intros y (_ & _ & Hy & _).
  - apply filter_nonempty, Forall_fmap. eapply Forall_impl; [exact Hxs|].
    by intros y (_ & _ & _ & Hy).
Qed.

(** A manifest whose two declaration sections hold the lines of the
    product, of [rs] and of [es] reads back as these objects. *)
Lemma read_objects_manifest
    i1 i2 i3 i4 i5 i6 i7 i8 i9 i10 i11 i12 i13 i14 i15 CH RES SRC n rs es :
  Forall (fun r => reads_as read_file_reference (reference_line r) r) rs ->
  Forall (fun e => reads_as read_build_file (entry_line e) e) es ->
  read_objects
    (project_content i1 i2 i3 i4 i5 i6 i7 i8 i9 i10 i11 i12 i13 i14 i15
       (map entry_line es)
       (product_reference (id_of n) :: map reference_line rs)
       CH RES SRC)
  = Some (Objects (id_of n) rs es).
Proof.
  intros Hrs Hes. unfold read_objects. cbv zeta.
  destruct (manifest_lines i1 i2 i3 i4 i5 i6 i7 i8 i9 i10 i11 i12 i13 i14 i15
              (map entry_line es)
              (product_reference (id_of n) :: map reference_line rs)
              CH RES SRC) as [rest ->].
  destruct (lines_of_section _ _ es Hes) as [Hbe Hfilter].
  destruct (product_reads n) as (Hp & Hp1 & Hp2 & _).
  assert (split_on nl
            (join [nl] (product_reference (id_of n) :: map reference_line rs))
          = product_reference (id_of n) :: map reference_line rs) as Hfr.
  { apply split_join; [done|]. constructor; [done|].
    apply Forall_fmap. eapply Forall_impl; [exact Hrs|].
    by intros x (_ & Hx & _). }
  rewrite Hfr.
  assert (Forall unmarked
            (product_reference (id_of n) :: map reference_line rs)) as Hum.
  { constructor; [done|]. apply Forall_fmap.
    eapply Forall_impl; [exact Hrs|]. by intros y (_ & _ & Hy & _). }
  destruct (sections_of_manifest _ _ rest Hbe Hum) as [-> ->].
  cbn [mbind option_bind]. rewrite Hp. cbn [mbind option_bind].
  rewrite (mapM_lines _ _ _ Hrs). cbn [mbind option_bind].
  rewrite Hfilter, (mapM_lines _ _ _ Hes). reflexivity.
Qed.

(** The identifiers of the fixed objects of a run from a new builder. *)
Lemma fixed_ids_of_new_builder :
  main_product_id (fst (generate_fixed_ids new_builder)) = id_of (0x2000 + 5)
  /\ id_counter (snd (generate_fixed_ids new_builder)) = 0x2000 + 15.
Proof. split; vm_compute; reflexivity. Qed.

Lemma build_smart_project_text files b :
  fst (build_smart_project files b) =
  let ids := fst (generate_fixed_ids b) in
  let b1 := snd (generate_fixed_ids b) in
  let start := Sections [product_reference (main_product_id ids)] [] [] [] in
  let secs := fst (process_files start files b1) in
  let b2 := snd (process_files start files b1) in
  project_content
    (main_group_id ids) (products_group_id ids)
    (vitalsense_group_id ids) (main_target_id ids)
    (main_product_id ids) (sources_phase_id ids)
    (frameworks_phase_id ids) (resources_phase_id ids)
    (target_config_list_id ids) (project_config_list_id ids)
    (target_debug_config_id ids) (target_release_config_id ids)
    (project_debug_config_id ids) (project_release_config_id ids)
    (project_object_id ids)
    (build_file_entries secs) (file_references secs)
    (map (file_child_line b2) files)
    (resource_build_files secs) (source_build_files secs).
Proof.
  unfold build_smart_project, bind, ret.
  rewrite build_sections_unfold. reflexivity.
Qed.

(** Reading the manifest of plain items gives back the declared
    objects. *)
Lemma read_back (files : list file_info) :
  forallb plain_item files = true ->
  read_objects (fst (build_smart_project files new_builder))
  = Some (object_graph files).
Proof.
  intros Hplain. rewrite build_smart_project_text. cbv zeta.
  destruct fixed_ids_of_new_builder as [Hproduct Hcounter].
  set (start := Sections _ [] [] []).
  destruct (process_files_declare files start
              (snd (generate_fixed_ids new_builder))) as [-> ->].
  subst start. cbn [file_references build_file_entries app].
  rewrite Hproduct, Hcounter. unfold object_graph.
  destruct (declare_reads files (0x2000 + 15) Hplain) as [Hrs Hes].
  destruct (declare (0x2000 + 15) files) as [rs es]. cbn [fst snd] in *.
  by apply read_objects_manifest.
Qed.

(** *** The declared objects determine the items *)

Lemma declare_cons counter f files :
  declare counter (f :: files) =
  let rid := id_of (counter + 1) in
  let r := FileReference rid (name f) (type f) (path f) in
  if in_build_phase f then
    (r :: (declare (counter + 1 + 1) files).1,
     BuildFileEntry (id_of (counter + 1 + 1)) (name f) (phase_of f) rid
     :: (declare (counter + 1 + 1) files).2)
  else (r :: (declare (counter + 1) files).1,
        (declare (counter + 1) files).2).
Proof.
  cbn [declare]. cbv zeta. destruct (in_build_phase f).
  - by destruct (declare (counter + 1 + 1) files).
  - by destruct (declare (counter + 1) files).
Qed.

(** The first FileReference that [declare] lists carries the next
    identifier; without items there is no declaration at all. *)
Lemma declare_head counter files :
  match files with
  | [] => declare counter files = ([], [])
  | _ :: _ => exists r rs, (declare counter files).1 = r :: rs
                           /\ fr_id r = id_of (counter + 1)
  end.
Proof.
  destruct files as [|f files]; [reflexivity|]. rewrite declare_cons.
  cbv zeta. destruct (in_build_phase f); eexists _, _; by split.
Qed.

Lemma declare_out_of_step c1 c2 fs gs (e : build_file_entry) :
  c1 <> c2 ->
  (declare c1 fs).1 = (declare c2 gs).1 ->
  (declare c2 gs).2 = e :: (declare c1 fs).2 ->
  False.
Proof.
  intros Hc Hrefs Hentries.
  pose proof (declare_head c1 fs) as Hf. pose proof (declare_head c2 gs) as Hg.
  destruct gs as [|g gs].
  { rewrite Hg in Hentries. discriminate. }
  destruct Hg as (r2 & rs2 & Hr2 & Hid2). rewrite Hr2 in Hrefs.
  destruct fs as [|f fs].
  { rewrite Hf in Hrefs. discriminate. }
  destruct Hf as (r1 & rs1 & Hr1 & Hid1). rewrite Hr1 in Hrefs.
  injection Hrefs as -> _. rewrite Hid1 in Hid2.
  apply id_of_inj in Hid2. lia.
Qed.

Lemma declare_inj fs : forall gs counter,
  declare counter fs = declare counter gs ->
  map item_view fs = map item_view gs.
Proof.
  induction fs as [|f fs IH]; intros gs counter Heq.
  - destruct gs as [|g gs]; [reflexivity|].
    pose proof (declare_head counter (g :: gs)) as (r & rs & Hr & _).
    rewrite <- Heq in Hr. discriminate.
  - destruct gs as [|g gs].
    { pose proof (declare_head counter (f :: fs)) as (r & rs & Hr & _).
      rewrite Heq in Hr. discriminate. }
    rewrite !declare_cons in Heq. cbv zeta in Heq.
    cbn [map]. unfold item_view at 1 3.
    destruct (in_build_phase f) eqn:Hf, (in_build_phase g) eqn:Hg.
    + injection Heq as Hn Ht Hp Hrs _ Hph Hes.
      rewrite Hn, Ht, Hp, Hph. f_equal.
      apply (IH gs (counter + 1 + 1)).
      by rewrite (surjective_pairing (declare _ fs)),
        (surjective_pairing (declare _ gs)), Hrs, Hes.
    + injection Heq as _ _ _ Hrs Hes. exfalso.
      eapply (declare_out_of_step (counter + 1 + 1) (counter + 1) fs gs);
        [lia|exact Hrs|symmetry; exact Hes].
    + injection Heq as _ _ _ Hrs Hes. exfalso.
      eapply (declare_out_of_step (counter + 1 + 1) (counter + 1) gs fs);
        [lia|symmetry; exact Hrs|exact Hes].
    + injection Heq as Hn Ht Hp Hrs Hes.
      rewrite Hn, Ht, Hp. f_equal.
      apply (IH gs (counter + 1)).
      by rewrite (surjective_pairing (declare _ fs)),
        (surjective_pairing (declare _ gs)), Hrs, Hes.
Qed.

(** X10.  The manifest determines the items.  Two lists of plain items (no
    line break in a field, no star in a name, no semicolon in a type, no
    double quote in a path) for which [build_smart_project] lays out
    the same text hold, in the same order, items of the same name, type
    and path that are members of the same build phase. *)
Theorem manifest_determines_items (files files' : list file_info) :
  forallb plain_item files = true ->
  forallb plain_item files' = true ->
  fst (build_smart_project files new_builder)
  = fst (build_smart_project files' new_builder) ->
  map item_view files = map item_view files'.
Proof.
  intros Hplain Hplain' Htext.
  pose proof (read_back files Hplain) as Hread.
  rewrite Htext, (read_back files' Hplain') in Hread.
  injection Hread as Hgraph. unfold object_graph in Hgraph.
  apply (declare_inj files files' (0x2000 + 15)).
  destruct (declare (0x2000 + 15) files) as [rs es].
  destruct (declare (0x2000 + 15) files') as [rs' es'].
  by injection Hgraph as -> ->.
Qed.

Lemma manifest_determines_items_witness :
  forallb plain_item (scan_smart_files app_tree) = true
  /\ forallb plain_item (recategorized (scan_smart_files app_tree)) = true
  /\ fst (build_smart_project (scan_smart_files app_tree) new_builder)
     = fst (build_smart_project
              (recategorized (scan_smart_files app_tree)) new_builder)
  /\ map item_view (scan_smart_files app_tree)
     = map item_view (recategorized (scan_smart_files app_tree)).
Proof.
  assert (forallb plain_item (scan_smart_files app_tree) = true) as H1
    by (vm_compute; reflexivity).
  assert (forallb plain_item (recategorized (scan_smart_files app_tree))
          = true) as H2 by (vm_compute; reflexivity).
  assert (fst (build_smart_project (scan_smart_files app_tree) new_builder)
          = fst (build_smart_project
                   (recategorized (scan_smart_files app_tree)) new_builder))
    as H3 by (vm_compute; reflexivity).
  split; [exact H1|]. split; [exact H2|]. split; [exact H3|].
  exact (manifest_determines_items _ _ H1 H2 H3).
Defined.

(** X11.  Nothing in a declaration line is escaped.  The two directories
    [seam_in_first_path] and [seam_in_second_path] hold files under
    different paths and [import_project] lays out the same text for
    both, character for character: no function of the manifest gives
    back the paths of the files that were scanned. *)
Theorem paths_are_not_escaped :
  fst (import_project seam_in_first_path new_builder)
  = fst (import_project seam_in_second_path new_builder)
  /\ map path (scan_smart_files seam_in_first_path)
     <> map path (scan_smart_files seam_in_second_path)
  /\ ~ (exists read : str -> list str,
          forall source_tree,
            read (fst (import_project source_tree new_builder))
            = map path (scan_smart_files source_tree)).
Proof.
  assert (fst (import_project seam_in_first_path new_builder)
          = fst (import_project seam_in_second_path new_builder)) as Htext
    by (vm_compute; reflexivity).
  assert (map path (scan_smart_files seam_in_first_path)
          <> map path (scan_smart_files seam_in_second_path)) as Hpaths
    by (vm_compute; discriminate).
  split; [exact Htext|]. split; [exact Hpaths|].
  intros [read Hread]. apply Hpaths.
  by rewrite <- !Hread, Htext.
Qed.

End ReaderFacts.

Module BuildFacts.
Import Py Re Smart Graph Allocators Links HexFacts BuilderFacts LoopFacts SmartProofs
  ReaderFacts.
Local Open Scope N_scope.

(** *** The allocator *)

(** X1.  An identifier spells the counter: the text after [AB] is the
    counter in hexadecimal, so that reading it as a number gives back
    the value that [generate_id] moved the counter to.  The call changes
    nothing else of the builder. *)
Theorem identifier_spells_counter (b : builder) :
  let '(id, b') := generate_id b in
  id_counter b' = id_counter b + 1
  /\ take 2 id = lit "AB"
  /\ hex_value (drop 2 id) = id_counter b'
  /\ Forall (fun c => is_hex c = true) id
  /\ file_refs b' = file_refs b /\ build_files b' = build_files b.
Proof.
  rewrite generate_id_spec. cbn [id_counter file_refs build_files].
  split; [done|]. split; [done|]. split; [apply id_of_value|].
  split; [apply id_of_hex|]. by split.
Qed.

(** X2.  Two builders whose counters are far enough apart issue different
    identifiers: if the first issues [n] identifiers and its counter
    does not pass the start of the second, no identifier of the first
    is ever issued by the second. *)
Theorem allocators_do_not_collide (b1 b2 : builder) (n m : nat) :
  id_counter b1 + N.of_nat n <= id_counter b2 ->
  Forall (fun id => id ∉ fst (generate_ids m b2)) (fst (generate_ids n b1)).
Proof.
  intros Hfar.
  destruct (generate_ids_spec n b1) as (-> & _).
  destruct (generate_ids_spec m b2) as (-> & _).
  apply Forall_fmap, Forall_forall. intros c Hc%counters_bound. cbn.
  intros (c' & Heq & Hc')%list_elem_of_fmap.
  apply id_of_inj in Heq. apply counters_bound in Hc'. lia.
Qed.

Lemma allocators_do_not_collide_witness :
  id_counter automated_builder + N.of_nat 4096 <= id_counter new_builder
  /\ Forall (fun id => id ∉ fst (generate_ids 300 new_builder))
            (fst (generate_ids 4096 automated_builder)).
Proof.
  assert (id_counter automated_builder + N.of_nat 4096
          <= id_counter new_builder) as Hfar by (vm_compute; discriminate).
  split; [exact Hfar|].
  exact (allocators_do_not_collide automated_builder new_builder 4096 300
           Hfar).
Defined.

(** *** How many identifiers a run takes *)

Lemma process_files_count files : forall acc b,
  id_counter (snd (process_files acc files b))
  = id_counter b + N.of_nat (length files)
    + N.of_nat (length (filter (fun f => in_build_phase f = true) files))
  /\ length (issued (snd (process_files acc files b)))
     = (length (issued b) + length files
        + length (filter (fun f => in_build_phase f = true) files))%nat.
Proof.
  induction files as [|f files IH]; intros acc b.
  - cbn. split; lia.
  - rewrite process_files_cons, process_file_spec. cbv zeta.
    destruct (in_build_phase f) eqn:Hf.
    + match goal with |- context [process_files ?a files ?b1] =>
        destruct (IH a b1) as [-> ->] end.
      rewrite filter_cons_True by done.
      cbn [id_counter issued length]. rewrite length_app. cbn [length].
      split; lia.
    + match goal with |- context [process_files ?a files ?b1] =>
        destruct (IH a b1) as [-> ->] end.
      rewrite filter_cons_False by (by rewrite Hf).
      cbn [id_counter issued length]. rewrite length_app. cbn [length].
      split; lia.
Qed.

(** X3.  A run of the builder from a new state takes one identifier for each
    of the fifteen fixed objects, one for every item and one more for
    every item that is a member of a build phase: the counter ends at
    [0x2000] plus that number, and as many identifiers were issued. *)
Theorem one_identifier_per_object (files : list file_info) :
  let '(_, _, _, b') := build_sections files new_builder in
  id_counter b' = 0x2000 + N.of_nat (identifiers_needed files)
  /\ length (issued b') = identifiers_needed files.
Proof.
  rewrite build_sections_unfold. cbv zeta.
  destruct (generate_fixed_ids_as_list new_builder) as [_ Hb1].
  destruct (generate_ids_spec 15 new_builder) as (Hids & Hissued & Hcount & _).
  match goal with |- context [process_files ?a files ?b1] =>
    destruct (process_files_count files a b1) as [-> ->] end.
  rewrite Hb1, Hcount, Hissued, length_app, Hids, length_map.
  unfold counters. rewrite length_map, length_seq.
  unfold identifiers_needed. cbn [id_counter issued new_builder length].
  split; lia.
Qed.

(** *** Every reference resolves *)

Lemma entry_resolves_mono s d line :
  entry_resolves s line -> entry_resolves (sections_app s d) line.
Proof.
  intros (f & bid & rid & -> & Hin). exists f, bid, rid. split; [done|].
  unfold sections_app. cbn. apply elem_of_app. by left.
Qed.

Lemma member_resolves_mono phase s d line :
  member_resolves phase s line -> member_resolves phase (sections_app s d) line.
Proof.
  intros (f & bid & rid & -> & Hin). exists f, bid, rid. split; [done|].
  unfold sections_app. cbn. apply elem_of_app. by left.
Qed.

Lemma phase_of_source f : is_source f = true -> phase_of f = lit "Sources".
Proof. unfold phase_of. by intros ->. Qed.

Lemma phase_of_resource f :
  is_source f = false -> phase_of f = lit "Resources".
Proof. unfold phase_of. by intros ->. Qed.

Lemma linked_step acc f b :
  linked acc -> linked (fst (process_file acc f b)).
Proof.
  intros (He & Hs & Hr). rewrite process_file_spec. cbv zeta.
  set (rid := id_of (id_counter b + 1)).
  set (bid := id_of (id_counter b + 1 + 1)).
  destruct (in_build_phase f) eqn:Hf; cbn [fst].
  - assert (entry_resolves
              (sections_app acc
                 (Sections [file_reference_line rid f]
                    [build_file_line (phase_of f) bid rid f]
                    (if is_source f
                     then [phase_member_line (lit "Sources") bid f] else [])
                    (if is_source f
                     then [] else [phase_member_line (lit "Resources") bid f])))
              (build_file_line (phase_of f) bid rid f)) as Hnew.
    { exists f, bid, rid. split; [done|]. unfold sections_app. cbn.
      apply elem_of_app. right. by left. }
    split; [|split].
    + unfold sections_app at 2. cbn [build_file_entries].
      apply Forall_app. split.
      * eapply Forall_impl; [exact He|]. intros l. apply entry_resolves_mono.
      * by constructor.
    + unfold sections_app at 2. cbn [source_build_files].
      apply Forall_app. split.
      * eapply Forall_impl; [exact Hs|]. intros l. apply member_resolves_mono.
      * destruct (is_source f) eqn:Hsrc; [|constructor].
        constructor; [|constructor]. exists f, bid, rid. split; [done|].
        unfold sections_app. cbn. apply elem_of_app. right.
        rewrite (phase_of_source f Hsrc). by left.
    + unfold sections_app at 2. cbn [resource_build_files].
      apply Forall_app. split.
      * eapply Forall_impl; [exact Hr|]. intros l. apply member_resolves_mono.
      * destruct (is_source f) eqn:Hsrc; [constructor|].
        constructor; [|constructor]. exists f, bid, rid. split; [done|].
        unfold sections_app. cbn. apply elem_of_app. right.
        rewrite (phase_of_resource f Hsrc). by left.
  - split; [|split].
    + unfold sections_app at 2. cbn [build_file_entries]. rewrite app_nil_r.
      eapply Forall_impl; [exact He|]. intros l. apply entry_resolves_mono.
    + unfold sections_app at 2. cbn [source_build_files]. rewrite app_nil_r.
      eapply Forall_impl; [exact Hs|]. intros l. apply member_resolves_mono.
    + unfold sections_app at 2. cbn [resource_build_files]. rewrite app_nil_r.
      eapply Forall_impl; [exact Hr|]. intros l. apply member_resolves_mono.
Qed.

Lemma linked_loop files : forall acc b,
  linked acc -> linked (fst (process_files acc files b)).
Proof.
  induction files as [|f files IH]; intros acc b Hacc; [done|].
  rewrite process_files_cons.
  pose proof (linked_step acc f b Hacc) as Hstep.
  destruct (process_file acc f b) as [acc1 b1]. by apply IH.
Qed.

(** X4.  No reference of the manifest dangles.  In the sections that
    [build_smart_project] fills, every BuildFileEntry line names, as
    its [fileRef], the identifier of the FileReference line written for
    the same item, and every member line of the Sources and of the
    Resources phase carries the identifier of a BuildFileEntry line of
    that phase written for the same item. *)
Theorem build_files_are_declared (files : list file_info) :
  let '(_, secs, _, _) := build_sections files new_builder in
  Forall (fun line => exists f bid rid,
            line = build_file_line (phase_of f) bid rid f
            /\ file_reference_line rid f ∈ file_references secs)
         (build_file_entries secs)
  /\ Forall (fun line => exists f bid rid,
               line = phase_member_line (lit "Sources") bid f
               /\ build_file_line (lit "Sources") bid rid f
                  ∈ build_file_entries secs)
            (source_build_files secs)
  /\ Forall (fun line => exists f bid rid,
               line = phase_member_line (lit "Resources") bid f
               /\ build_file_line (lit "Resources") bid rid f
                  ∈ build_file_entries secs)
            (resource_build_files secs).
Proof.
  rewrite build_sections_unfold. cbv zeta.
  apply (linked_loop files). by repeat split.
Qed.

(** *** The children of the content group *)

(** The loop stores identifiers under the paths of its items only. *)
Lemma process_files_frame files : forall acc b p,
  p ∉ map path files ->
  file_refs (snd (process_files acc files b)) !! p = file_refs b !! p.
Proof.
  induction files as [|f files IH]; intros acc b p Hp; [done|].
  cbn [map] in Hp. apply not_elem_of_cons in Hp as [Hne Hp].
  rewrite process_files_cons, process_file_spec. cbv zeta.
  destruct (in_build_phase f).
  - rewrite IH by done. cbn [file_refs]. by rewrite lookup_insert_ne.
  - rewrite IH by done. cbn [file_refs]. by rewrite lookup_insert_ne.
Qed.

Lemma process_files_references files acc b :
  exists more,
    file_references (fst (process_files acc files b))
    = file_references acc ++ more.
Proof.
  destruct (process_files_declare files acc b) as [-> _]. by eexists.
Qed.

(** After the loop, the path of every item leads to the identifier of a
    FileReference line written for that path. *)
Lemma process_files_children files : forall acc b,
  Forall (fun f => exists rid g,
            file_refs (snd (process_files acc files b)) !! path f = Some rid
            /\ path g = path f
            /\ file_reference_line rid g
               ∈ file_references (fst (process_files acc files b)))
         files.
Proof.
  induction files as [|f files IH]; intros acc b; [constructor|].
  rewrite process_files_cons.
  destruct (process_file acc f b) as [acc1 b1] eqn:Hstep.
  pose proof (IH acc1 b1) as Htail. constructor; [|exact Htail].
  destruct (decide (path f ∈ map path files)) as [Hin|Hout].
  - apply list_elem_of_fmap in Hin as (g & Hpath & Hg).
    rewrite Forall_forall in Htail.
    destruct (Htail g Hg) as (rid & g' & Hlook & Hpath' & Hline).
    exists rid, g'. rewrite Hpath. split; [done|]. split; [|done].
    by rewrite Hpath'.
  - rewrite process_files_frame by done.
    destruct (process_files_references files acc1 b1) as [more ->].
    rewrite process_file_spec in Hstep. cbv zeta in Hstep.
    exists (id_of (id_counter b + 1)), f.
    destruct (in_build_phase f); injection Hstep as <- <-;
      cbn [file_refs sections_app file_references];
      (split; [by rewrite lookup_insert_eq|]); (split; [done|]);
      rewrite !elem_of_app; left; right; by left.
Qed.

(** With pairwise distinct paths, the path of an item leads to the
    identifier of its own FileReference. *)
Lemma process_files_own_reference files : forall acc b,
  NoDup (map path files) ->
  Forall2 (fun f r =>
             file_refs (snd (process_files acc files b)) !! path f
             = Some (fr_id r)
             /\ reference_line r = file_reference_line (fr_id r) f)
          files (declare (id_counter b) files).1.
Proof.
  induction files as [|f files IH]; intros acc b Hnd; [constructor|].
  cbn [map] in Hnd. apply NoDup_cons in Hnd as [Hout Hnd].
  rewrite process_files_cons, process_file_spec, declare_cons. cbv zeta.
  destruct (in_build_phase f); cbn [fst].
  - constructor.
    + rewrite process_files_frame by done. cbn [file_refs fr_id].
      by rewrite lookup_insert_eq.
    + match goal with |- context [process_files ?a files ?b1] =>
        exact (IH a b1 Hnd) end.
  - constructor.
    + rewrite process_files_frame by done. cbn [file_refs fr_id].
      by rewrite lookup_insert_eq.
    + match goal with |- context [process_files ?a files ?b1] =>
        exact (IH a b1 Hnd) end.
Qed.

(** X5.  The lookup [self.file_refs[f["path"]]] of the children loop never
    misses: for every item it finds an identifier, and a FileReference
    line with that identifier was written for the path of the item.
    When the paths of the items are pairwise distinct, the children of
    the content group are the FileReference declarations of the items,
    one for one and in the same order. *)
Theorem group_children_are_declared (files : list file_info) :
  let '(_, secs, children, b') := build_sections files new_builder in
  Forall2 (fun line f => exists rid g,
             file_refs b' !! path f = Some rid
             /\ line = child_line rid f
             /\ path g = path f
             /\ file_reference_line rid g ∈ file_references secs)
          children files
  /\ (NoDup (map path files) ->
      Forall2 (fun line declaration => exists rid f,
                 line = child_line rid f
                 /\ declaration = file_reference_line rid f)
              children (tail (file_references secs))).
Proof.
  rewrite build_sections_unfold. cbv zeta.
  set (start := Sections _ [] [] []).
  set (b1 := snd (generate_fixed_ids new_builder)).
  split.
  - apply Forall2_fmap_l, Forall_Forall2_diag.
    eapply Forall_impl; [apply (process_files_children files start b1)|].
    intros f (rid & g & Hlook & Hpath & Hline). exists rid, g.
    split; [done|]. split; [|by split].
    unfold file_child_line, file_ref_of, child_line. by rewrite Hlook.
  - intros Hnd.
    pose proof (process_files_own_reference files start b1 Hnd) as Hown.
    destruct (process_files_declare files start b1) as [-> _].
    subst start. cbn [file_references app tail].
    apply Forall2_fmap_l, Forall2_fmap_r.
    eapply Forall2_impl; [exact Hown|].
    intros f r [Hlook Hline]. exists (fr_id r), f. split; [|done].
    unfold file_child_line, file_ref_of, child_line. by rewrite Hlook.
Qed.

End BuildFacts.

Module ScanProofs.
Import Py Re Smart Walk LineFacts.

(** *** The filter *)

(** X6.  A file below a directory of the excluded list is left out, whatever
    its name: one component of the path that is on the list is
    enough. *)
Theorem excluded_directory_excludes (file_path file_name d : str) :
  d ∈ excluded_dirs ->
  d ∈ path_parts file_path ->
  should_include_file file_path file_name = false.
Proof.
  intros Hd Hpart. unfold should_include_file.
  assert (existsb (fun excluded_dir => in_list excluded_dir
                                         (path_parts file_path))
            excluded_dirs = true) as ->; [|reflexivity].
  apply existsb_exists. exists d. split; [by apply list_elem_of_In|].
  unfold in_list. by apply bool_decide_eq_true_2.
Qed.

Lemma excluded_directory_excludes_witness :
  lit "Generated" ∈ excluded_dirs
  /\ lit "Generated" ∈ path_parts (lit "Core/Generated/Model.swift")
  /\ should_include_file (lit "Core/Generated/Model.swift")
                         (lit "Model.swift") = false.
Proof.
  assert (lit "Generated" ∈ excluded_dirs) as Hd.
  { do 7 apply list_elem_of_further. apply list_elem_of_here. }
  assert (lit "Generated" ∈ path_parts (lit "Core/Generated/Model.swift"))
    as Hpart.
  { apply list_elem_of_In. vm_compute. right. by left. }
  split; [exact Hd|]. split; [exact Hpart|].
  exact (excluded_directory_excludes _ _ _ Hd Hpart).
Defined.

(** *** The walk *)

(** Induction over a directory and the directories below it. *)
Fixpoint entry_induction (P : entry -> Prop)
    (HFile : forall file, P (File file))
    (HDir : forall dir entries, Forall P entries -> P (Dir dir entries))
    (e : entry) : P e :=
  match e with
  | File file => HFile file
  | Dir dir entries =>
      HDir dir entries
        ((fix all (es : list entry) : Forall P es :=
            match es with
            | [] => @List.Forall_nil _ P
            | e' :: es' =>
                @List.Forall_cons _ P e' es' (entry_induction P HFile HDir e')
                  (all es')
            end) entries)
  end.

Lemma scan_file_found root file f :
  f ∈ scan_file root file ->
  path f = join [slash] (root ++ [file]) /\ name f = file.
Proof.
  unfold scan_file. intros Hf.
  repeat match type of Hf with
         | _ ∈ (if ?c then _ else _) => destruct c
         end;
    try (by apply elem_of_nil in Hf);
    apply list_elem_of_singleton in Hf as ->; by split.
Qed.

Lemma scan_files_of_found root es f :
  f ∈ scan_files_of root es ->
  exists file, File file ∈ es /\ f ∈ scan_file root file.
Proof.
  unfold scan_files_of. intros (e & He & Hf)%list_elem_of_In%in_flat_map.
  apply list_elem_of_In in He, Hf. destruct e as [file|d sub].
  - by exists file.
  - by apply elem_of_nil in Hf.
Qed.

Lemma scan_below_elem e : forall root f,
  f ∈ scan_below root e ->
  exists dirs file,
    Forall (fun d => walk_into d = true) dirs
    /\ f ∈ scan_file (root ++ dirs) file.
Proof.
  induction e as [file|d sub IH] using entry_induction; intros root f Hf.
  - by apply elem_of_nil in Hf.
  - cbn [scan_below] in Hf. destruct (walk_into d) eqn:Hd.
    2:{ by apply elem_of_nil in Hf. }
    apply elem_of_app in Hf as [Hf|Hf].
    + apply scan_files_of_found in Hf as (file & _ & Hf).
      exists [d], file. split; [by repeat constructor|done].
    + apply list_elem_of_In, in_flat_map in Hf as (e & He & Hf).
      apply list_elem_of_In in He, Hf. rewrite Forall_forall in IH.
      destruct (IH e He _ _ Hf) as (dirs & file & Hdirs & Hfile).
      exists (d :: dirs), file. split; [by constructor|].
      by rewrite <- app_assoc in Hfile.
Qed.

Lemma scan_smart_files_elem source_tree f :
  f ∈ scan_smart_files source_tree ->
  exists dirs file,
    Forall (fun d => walk_into d = true) dirs /\ f ∈ scan_file dirs file.
Proof.
  unfold scan_smart_files. intros [Hf|Hf]%elem_of_app.
  - apply scan_files_of_found in Hf as (file & _ & Hf).
    exists [], file. by split.
  - apply list_elem_of_In, in_flat_map in Hf as (e & _ & Hf).
    apply list_elem_of_In in Hf. by apply scan_below_elem in Hf.
Qed.

Lemma scan_file_kept root file f :
  f ∈ scan_file root file ->
  (file ∉ noise_files)
  /\ should_include_file (path f) (name f) = true
  /\ (type f, category f) ∈ item_kinds.
Proof.
  unfold scan_file, in_list. intros Hf.
  case_bool_decide as Hnoise; [by apply elem_of_nil in Hf|].
  destruct (should_include_file _ file) eqn:Hinc;
    [|by apply elem_of_nil in Hf].
  cbn [negb] in Hf.
  repeat match type of Hf with
         | _ ∈ (if ?c then _ else _) => destruct c
         end;
    try (by apply elem_of_nil in Hf);
    apply list_elem_of_singleton in Hf as ->; cbn [path name type category];
    (split; [done|]); (split; [done|]); unfold item_kinds.
  - apply list_elem_of_here.
  - apply list_elem_of_further, list_elem_of_here.
  - do 2 apply list_elem_of_further. apply list_elem_of_here.
  - do 3 apply list_elem_of_further. apply list_elem_of_here.
Qed.

(** X8.  Every item that the scan lists passed the filter: its name is none
    of the five noise files, [should_include_file] accepts its path and
    name, and its type and category are one of the four pairs that the
    scan builds (a Swift source, the property list as a resource, the
    entitlements, the asset catalogue as a resource). *)
Theorem scanned_items_pass_the_filter
    (source_tree : list entry) (f : file_info) :
  f ∈ scan_smart_files source_tree ->
  (name f ∉ noise_files)
  /\ should_include_file (path f) (name f) = true
  /\ (type f, category f) ∈ item_kinds.
Proof.
  intros (dirs & file & _ & Hf)%scan_smart_files_elem.
  pose proof (scan_file_found _ _ _ Hf) as [_ Hname]. rewrite Hname.
  apply scan_file_kept in Hf as (Hnoise & Hinc & Hkind).
  rewrite Hname in Hinc. by repeat split.
Qed.

Lemma scanned_items_pass_the_filter_witness :
  FileInfo (lit "VitalSense.entitlements") (lit "VitalSense.entitlements")
           (lit "text.plist.entitlements") (lit "entitlements")
    ∈ scan_smart_files app_tree
  /\ (lit "VitalSense.entitlements" ∉ noise_files)
  /\ should_include_file (lit "VitalSense.entitlements")
                         (lit "VitalSense.entitlements") = true
  /\ (lit "text.plist.entitlements", lit "entitlements") ∈ item_kinds.
Proof.
  assert (FileInfo (lit "VitalSense.entitlements")
                   (lit "VitalSense.entitlements")
                   (lit "text.plist.entitlements") (lit "entitlements")
            ∈ scan_smart_files app_tree) as Hin.
  { apply list_elem_of_In. vm_compute. repeat (first [by left|right]). }
  split; [exact Hin|].
  exact (scanned_items_pass_the_filter app_tree _ Hin).
Defined.

(** *** No accepted file is left out *)

Lemma split_on_at_sep sep x y :
  split_on sep (x ++ sep :: y) = split_on sep x ++ split_on sep y.
Proof.
  induction x as [|c x IH]; cbn [app split_on].
  - by rewrite N.eqb_refl.
  - destruct (c =? sep)%N; [by rewrite IH|].
    rewrite IH. pose proof (split_on_nonempty sep x).
    by destruct (split_on sep x).
Qed.

Lemma split_on_free sep a : sep ∉ a -> split_on sep a = [a].
Proof.
  induction a as [|c a IH]; intros Hsep; [reflexivity|].
  apply not_elem_of_cons in Hsep as [Hc Ha]. cbn [split_on].
  destruct (N.eqb_spec c sep); [done|]. by rewrite IH.
Qed.

Lemma join_snoc sep l x :
  join sep (l ++ [x]) = if l is [] then x else join sep l ++ sep ++ x.
Proof.
  induction l as [|a l IH]; [reflexivity|].
  destruct l as [|b l]; [reflexivity|].
  change (join sep ((a :: b :: l) ++ [x]))
    with (a ++ sep ++ join sep ((b :: l) ++ [x])).
  rewrite IH. change (join sep (a :: b :: l)) with (a ++ sep ++ join sep (b :: l)).
  by rewrite <- !app_assoc.
Qed.

Lemma path_name_of_file dirs file :
  file_name_ok file -> path_name (join [slash] (dirs ++ [file])) = file.
Proof.
  intros (Hne & Hdot & Hslash). unfold path_name.
  assert (last (filter (fun x => x <> [] /\ x <> [dot])
                  (split_on slash (join [slash] (dirs ++ [file]))))
          = Some file) as ->;
    [|by destruct (path_root (join [slash] (dirs ++ [file])))].
  rewrite join_snoc. destruct dirs as [|d dirs].
  - rewrite split_on_free by done. by rewrite filter_cons_True.
  - change ([slash] ++ file) with (slash :: file).
    rewrite split_on_at_sep, (split_on_free slash file) by done.
    rewrite filter_app, (filter_cons_True _ file) by done.
    by rewrite filter_nil, last_snoc.
Qed.

Lemma path_suffix_of_file dirs file :
  file_name_ok file ->
  path_suffix (join [slash] (dirs ++ [file])) = path_suffix file.
Proof.
  intros Hok. unfold path_suffix.
  pose proof (path_name_of_file [] file Hok) as Hname.
  cbn [app join] in Hname.
  by rewrite (path_name_of_file dirs file Hok), Hname.
Qed.

Lemma scan_file_complete root file :
  file_name_ok file ->
  file ∉ noise_files ->
  should_include_file (join [slash] (root ++ [file])) file = true ->
  exists kind,
    kind ∈ item_kinds
    /\ scan_file root file
       = [FileInfo (join [slash] (root ++ [file])) file kind.1 kind.2].
Proof.
  intros Hok Hnoise Hinc. unfold scan_file, in_list.
  rewrite bool_decide_eq_false_2 by done. rewrite Hinc. cbn [negb].
  rewrite (path_suffix_of_file root file Hok).
  unfold should_include_file in Hinc.
  destruct (existsb _ excluded_dirs); [done|].
  destruct (existsb _ excluded_patterns); [done|].
  destruct (str_eqb (lower (path_suffix file)) (lit ".swift")) eqn:Hswift.
  { exists (lit "sourcecode.swift", lit "source"). split; [|done].
    apply list_elem_of_here. }
  unfold in_list in Hinc. case_bool_decide as Hplist.
  { apply list_elem_of_singleton in Hplist.
    apply andb_true_iff in Hinc as [Hinfo _].
    unfold str_eqb at 1. rewrite bool_decide_eq_true_2 by done.
    rewrite Hinfo. cbn [andb].
    exists (lit "text.plist.xml", lit "resource"). split; [|done].
    apply list_elem_of_further, list_elem_of_here. }
  assert (str_eqb (lower (path_suffix file)) (lit ".plist") = false) as ->.
  { unfold str_eqb. apply bool_decide_eq_false_2. intros Heq.
    apply Hplist. rewrite Heq. apply list_elem_of_here. }
  cbn [andb].
  destruct (str_eqb (lower (path_suffix file)) (lit ".entitlements")).
  { exists (lit "text.plist.entitlements", lit "entitlements").
    split; [|done]. do 2 apply list_elem_of_further. apply list_elem_of_here. }
  destruct (str_eqb file (lit "Assets.xcassets")); [|done].
  exists (lit "folder.assetcatalog", lit "resource"). split; [|done].
  do 3 apply list_elem_of_further. apply list_elem_of_here.
Qed.

Lemma scan_files_of_holds root es file f :
  File file ∈ es -> f ∈ scan_file root file -> f ∈ scan_files_of root es.
Proof.
  intros Hfile Hf. unfold scan_files_of. apply list_elem_of_In, in_flat_map.
  exists (File file). split; by apply list_elem_of_In.
Qed.

Lemma scan_below_holds dirs : forall root d sub file f,
  walk_into d = true ->
  Forall (fun d => walk_into d = true) dirs ->
  holds sub dirs file ->
  f ∈ scan_file (root ++ d :: dirs) file ->
  f ∈ scan_below root (Dir d sub).
Proof.
  induction dirs as [|d' dirs IH]; intros root d sub file f Hd Hdirs Hholds Hf;
    cbn [scan_below]; rewrite Hd; apply elem_of_app.
  - left. by apply (scan_files_of_holds _ _ file).
  - right. destruct Hholds as (sub' & Hsub & Hholds).
    apply Forall_cons in Hdirs as [Hd' Hdirs].
    apply list_elem_of_In, in_flat_map. exists (Dir d' sub').
    split; [by apply list_elem_of_In|]. apply list_elem_of_In.
    apply (IH (root ++ [d]) d' sub' file f Hd' Hdirs Hholds).
    by rewrite <- app_assoc.
Qed.

(** X9.  The scan leaves out no file that the filter accepts.  A file that
    is listed in a directory which the walk reaches through directories
    that it enters, whose name is none of the noise files and which
    [should_include_file] accepts, becomes an item of the scan, under
    its path from the source root and with one of the four kinds. *)
Theorem accepted_files_are_listed
    (source_tree : list entry) (dirs : list str) (file : str) :
  holds source_tree dirs file ->
  Forall (fun d => walk_into d = true) dirs ->
  file_name_ok file ->
  file ∉ noise_files ->
  should_include_file (join [slash] (dirs ++ [file])) file = true ->
  exists kind,
    kind ∈ item_kinds
    /\ FileInfo (join [slash] (dirs ++ [file])) file kind.1 kind.2
       ∈ scan_smart_files source_tree.
Proof.
  intros Hholds Hdirs Hok Hnoise Hinc.
  destruct (scan_file_complete dirs file Hok Hnoise Hinc)
    as (kind & Hkind & Hscan).
  exists kind. split; [done|]. unfold scan_smart_files. apply elem_of_app.
  destruct dirs as [|d dirs].
  - left. apply (scan_files_of_holds _ _ file); [done|].
    rewrite Hscan. apply list_elem_of_here.
  - right. destruct Hholds as (sub & Hsub & Hholds).
    apply Forall_cons in Hdirs as [Hd Hdirs].
    apply list_elem_of_In, in_flat_map. exists (Dir d sub).
    split; [by apply list_elem_of_In|]. apply list_elem_of_In.
    apply (scan_below_holds dirs [] d sub file); try done.
    cbn [app]. rewrite Hscan. apply list_elem_of_here.
Qed.

Lemma accepted_files_are_listed_witness :
  holds app_tree [lit "Core"] (lit "Model.swift")
  /\ Forall (fun d => walk_into d = true) [lit "Core"]
  /\ file_name_ok (lit "Model.swift")
  /\ (lit "Model.swift" ∉ noise_files)
  /\ should_include_file (lit "Core/Model.swift") (lit "Model.swift") = true
  /\ exists kind,
       kind ∈ item_kinds
       /\ FileInfo (lit "Core/Model.swift") (lit "Model.swift") kind.1 kind.2
          ∈ scan_smart_files app_tree.
Proof.
  assert (holds app_tree [lit "Core"] (lit "Model.swift")) as Hholds.
  { exists [File (lit "Model.swift")]. split.
    - apply list_elem_of_further, list_elem_of_here.
    - apply list_elem_of_here. }
  assert (Forall (fun d => walk_into d = true) [lit "Core"]) as Hdirs
    by (by repeat constructor).
  assert (file_name_ok (lit "Model.swift")) as Hok.
  { repeat split; try discriminate.
    intros Hin. apply list_elem_of_In in Hin. vm_compute in Hin.
    repeat destruct Hin as [Hin|Hin]; done. }
  assert (lit "Model.swift" ∉ noise_files) as Hnoise.
  { intros Hin. apply list_elem_of_In in Hin. vm_compute in Hin.
    repeat destruct Hin as [Hin|Hin]; done. }
  assert (should_include_file (lit "Core/Model.swift") (lit "Model.swift")
          = true) as Hinc by (vm_compute; reflexivity).
  split; [exact Hholds|]. split; [exact Hdirs|]. split; [exact Hok|].
  split; [exact Hnoise|]. split; [exact Hinc|].
  exact (accepted_files_are_listed app_tree [lit "Core"] (lit "Model.swift")
           Hholds Hdirs Hok Hnoise Hinc).
Defined.

(** *** Skipped directories *)

Lemma scan_below_chain e : forall root f,
  f ∈ scan_below root e ->
  exists d sub dirs file,
    e = Dir d sub
    /\ Forall (fun d => walk_into d = true) (d :: dirs)
    /\ holds sub dirs file
    /\ f ∈ scan_file (root ++ d :: dirs) file.
Proof.
  induction e as [file|d sub IH] using entry_induction; intros root f Hf.
  - by apply elem_of_nil in Hf.
  - cbn [scan_below] in Hf. destruct (walk_into d) eqn:Hd.
    2:{ by apply elem_of_nil in Hf. }
    apply elem_of_app in Hf as [Hf|Hf].
    + apply scan_files_of_found in Hf as (file & Hfile & Hf).
      exists d, sub, [], file. split; [done|].
      split; [by repeat constructor|]. by split.
    + apply list_elem_of_In, in_flat_map in Hf as (e & He & Hf).
      apply list_elem_of_In in He, Hf. rewrite Forall_forall in IH.
      destruct (IH e He _ _ Hf)
        as (d' & sub' & dirs & file & -> & Hdirs & Hholds & Hfile).
      exists d, sub, (d' :: dirs), file. split; [done|].
      split; [by constructor|]. split; [by exists sub'|].
      by rewrite <- app_assoc in Hfile.
Qed.

Lemma scan_smart_files_chain source_tree f :
  f ∈ scan_smart_files source_tree ->
  exists dirs file,
    holds source_tree dirs file
    /\ Forall (fun d => walk_into d = true) dirs
    /\ f ∈ scan_file dirs file.
Proof.
  unfold scan_smart_files. intros [Hf|Hf]%elem_of_app.
  - apply scan_files_of_found in Hf as (file & Hfile & Hf).
    exists [], file. by repeat split.
  - apply list_elem_of_In, in_flat_map in Hf as (e & He & Hf).
    apply list_elem_of_In in He, Hf.
    apply scan_below_chain in Hf
      as (d & sub & dirs & file & -> & Hdirs & Hholds & Hfile).
    exists (d :: dirs), file. split; [by exists sub|]. by split.
Qed.

Lemma split_on_join sep l :
  l <> [] -> Forall (fun x => sep ∉ x) l -> split_on sep (join [sep] l) = l.
Proof.
  induction l as [|a l IH]; [done|]. intros _ [Ha Hl]%Forall_cons.
  destruct l as [|b l]; [by apply split_on_free|].
  change (join [sep] (a :: b :: l)) with (a ++ sep :: join [sep] (b :: l)).
  rewrite split_on_at_sep, (split_on_free sep a) by done.
  by rewrite IH.
Qed.

Lemma join_components sep l l' :
  l <> [] -> l' <> [] ->
  Forall (fun x => sep ∉ x) l -> Forall (fun x => sep ∉ x) l' ->
  join [sep] l = join [sep] l' -> l = l'.
Proof.
  intros Hl Hl' Hfree Hfree' Heq.
  by rewrite <- (split_on_join sep l), <- (split_on_join sep l'), Heq.
Qed.

(** X7.  The walk never enters a directory whose name starts with a dot, nor
    one named [build] or [DerivedData], at any depth.  Every item that
    the scan lists is a file of the tree: it is listed in the directory
    at the end of a chain of directories of the tree ([holds]) each of
    which the walk enters ([walk_into]), and its path is that chain
    followed by its name.  When no name in the tree has a slash
    ([plain_names]), every chain of directories of the tree that leads
    to a file under the path of the item is made of directories that the
    walk enters: no file below a skipped directory is listed. *)
Theorem scan_stays_out_of_skipped_directories
    (source_tree : list entry) (f : file_info) :
  f ∈ scan_smart_files source_tree ->
  (exists dirs,
     holds source_tree dirs (name f)
     /\ path f = join [slash] (dirs ++ [name f])
     /\ Forall (fun d => walk_into d = true) dirs)
  /\ (plain_names source_tree ->
      forall dirs file,
        holds source_tree dirs file ->
        path f = join [slash] (dirs ++ [file]) ->
        Forall (fun d => walk_into d = true) dirs).
Proof.
  intros (dirs & file & Hholds & Hdirs & Hf)%scan_smart_files_chain.
  apply scan_file_found in Hf as [Hpath Hname]. split.
  - exists dirs. rewrite Hname. by repeat split.
  - intros Hplain dirs' file' Hholds' Hpath'. rewrite Hpath in Hpath'.
    apply join_components in Hpath'.
    + apply app_inj_tail in Hpath' as [-> _]. done.
    + by destruct dirs.
    + by destruct dirs'.
    + by apply Hplain.
    + by apply Hplain.
Qed.

Lemma app_tree_plain_names : plain_names app_tree.
Proof.
  assert (forall x : str, existsb (N.eqb slash) x = false -> slash ∉ x)
    as Hfree.
  { intros x Hx Hin. apply list_elem_of_In in Hin.
    assert (existsb (N.eqb slash) x = true); [|congruence].
    apply existsb_exists. exists slash. split; [done|apply N.eqb_refl]. }
  intros dirs file Hholds. destruct dirs as [|d dirs]; cbn [holds] in Hholds.
  - apply list_elem_of_In in Hholds. cbn [app].
    repeat (destruct Hholds as [Hholds|Hholds]; try discriminate Hholds);
      [injection Hholds as <-..|done];
      by repeat constructor; apply Hfree; vm_compute.
  - destruct Hholds as (sub & Hsub & Hholds). apply list_elem_of_In in Hsub.
    repeat (destruct Hsub as [Hsub|Hsub]; try discriminate Hsub);
      [injection Hsub as <- <-..|done];
      (destruct dirs as [|d' dirs]; cbn [holds] in Hholds;
       [apply list_elem_of_singleton in Hholds; injection Hholds as ->;
        by repeat constructor; apply Hfree; vm_compute
       |destruct Hholds as (sub' & Hsub' & _);
        by apply list_elem_of_singleton in Hsub']).
Qed.

Lemma scan_stays_out_of_skipped_directories_witness :
  FileInfo (lit "Core/Model.swift") (lit "Model.swift")
           (lit "sourcecode.swift") (lit "source")
    ∈ scan_smart_files app_tree
  /\ (exists dirs,
        holds app_tree dirs (lit "Model.swift")
        /\ lit "Core/Model.swift" = join [slash] (dirs ++ [lit "Model.swift"])
        /\ Forall (fun d => walk_into d = true) dirs)
  /\ (forall dirs file,
        holds app_tree dirs file ->
        lit "Core/Model.swift" = join [slash] (dirs ++ [file]) ->
        Forall (fun d => walk_into d = true) dirs).
Proof.
  assert (FileInfo (lit "Core/Model.swift") (lit "Model.swift")
                   (lit "sourcecode.swift") (lit "source")
            ∈ scan_smart_files app_tree) as Hin.
  { apply list_elem_of_In. vm_compute. repeat (first [by left|right]). }
  split; [exact Hin|].
  destruct (scan_stays_out_of_skipped_directories app_tree _ Hin)
    as [Hchain Hevery].
  split; [exact Hchain|]. exact (Hevery app_tree_plain_names).
Defined.

(** A file below [.git], two levels down, is not listed: the scan of
    this tree is empty. *)
Example nothing_below_a_nested_skipped_directory :
  scan_smart_files
    [Dir (lit "Core") [Dir (lit ".git") [File (lit "Hook.swift")]]] = [].
Proof. vm_compute. reflexivity. Qed.

End ScanProofs.

Module RepairFacts.
Import Py Re Dedup Repaired ReFacts CollapseFacts CollapseFacts2 LineFacts ScanFacts
  ScanFacts2 FreshFacts DedupProofs.

Local Abbreviation lines s := (split_on nl s).

(** *** The repair removes lines, and nothing else *)

Lemma survivors_sublist ls : forall st, survivors st ls `sublist_of` ls.
Proof.
  induction ls as [|l ls IH]; intros st; [constructor|].
  cbn [survivors]. destruct (kept_by st l).
  - apply sublist_skip, IH.
  - apply sublist_cons, IH.
Qed.

(** X12.  The lines that the loop keeps are lines of the text read, in the
    order in which they were read, and [duplicate_count] is the number
    of lines that it left out. *)
Theorem repair_only_removes_lines (content : str) :
  new_lines (scan (split_on nl content)) `sublist_of` split_on nl content
  /\ (length (new_lines (scan (split_on nl content)))
      + duplicate_count (scan (split_on nl content))
      = length (split_on nl content))%nat.
Proof.
  destruct (scan_survivors (lines content)) as [-> Hcount].
  split; [apply survivors_sublist|lia].
Qed.

(** *** Lines that match no pattern *)

Lemma matches_no_pattern_plain l :
  matches_no_pattern l = true <-> classify l = Plain.
Proof. unfold matches_no_pattern. by destruct (classify l). Qed.

Lemma survivors_plain ls : forall st,
  filter (fun l => matches_no_pattern l = true) (survivors st ls)
  = filter (fun l => matches_no_pattern l = true) ls.
Proof.
  induction ls as [|l ls IH]; intros st; [reflexivity|].
  cbn [survivors]. destruct (matches_no_pattern l) eqn:Hl.
  - apply matches_no_pattern_plain in Hl as Hplain.
    rewrite (kept_by_plain st l Hplain), !filter_cons_True by done.
    f_equal. rewrite <- (IH st). f_equal.
    apply survivors_same, learn_plain, Hplain.
  - rewrite (filter_cons_False _ l ls) by (by rewrite Hl).
    destruct (kept_by st l); [|apply IH].
    rewrite filter_cons_False by (by rewrite Hl). apply IH.
Qed.

(** X13.  A line that matches none of the three patterns is never removed:
    the lines of this kind that the loop keeps are all the lines of this
    kind that were read, in the same order. *)
Theorem unmatched_lines_are_kept (content : str) :
  filter (fun l => matches_no_pattern l = true)
         (new_lines (scan (split_on nl content)))
  = filter (fun l => matches_no_pattern l = true) (split_on nl content).
Proof.
  destruct (scan_survivors (lines content)) as [-> _]. apply survivors_plain.
Qed.

(** *** One declaration per label *)

Lemma seen_refs_learn st l :
  seen_refs (learn st l) =
  match classify l with
  | FileRefDecl key ref_id => <[key := ref_id]> (seen_refs st)
  | _ => seen_refs st
  end.
Proof. unfold learn. by destruct (classify l). Qed.

Lemma seen_build_refs_learn st l :
  seen_build_refs (learn st l) =
  match classify l with
  | BuildFileDecl key ref_id => <[key := ref_id]> (seen_build_refs st)
  | _ => seen_build_refs st
  end.
Proof. unfold learn. by destruct (classify l). Qed.

Lemma kept_fileref st l key ref_id :
  classify l = FileRefDecl key ref_id ->
  kept_by st l = bool_decide (seen_refs st !! key = None).
Proof. unfold kept_by. by intros ->. Qed.

Lemma kept_buildfile st l key ref_id :
  classify l = BuildFileDecl key ref_id ->
  kept_by st l = bool_decide (seen_build_refs st !! key = None).
Proof. unfold kept_by. by intros ->. Qed.

Lemma survivors_fileref_keys ls : forall st,
  NoDup (fileref_keys (survivors st ls))
  /\ (forall k, k ∈ fileref_keys (survivors st ls) ->
        seen_refs st !! k = None /\ k ∈ fileref_keys ls)
  /\ (forall k, k ∈ fileref_keys ls ->
        is_Some (seen_refs st !! k) \/ k ∈ fileref_keys (survivors st ls)).
Proof.
  induction ls as [|l ls IH]; intros st.
  { split; [constructor|]. split; intros k Hk; by apply elem_of_nil in Hk. }
  cbn [survivors]. rewrite (fileref_keys_cons l ls).
  destruct (kept_by st l) eqn:Hkept.
  - destruct (IH (learn st l)) as (Hnd & Hnew & Hall).
    rewrite fileref_keys_cons, seen_refs_learn in *.
    destruct (classify l) as [key ref_id| | |] eqn:Hl;
      try (split; [exact Hnd|]; split; [exact Hnew|exact Hall]).
    rewrite (kept_fileref st l key ref_id Hl) in Hkept.
    apply bool_decide_eq_true_1 in Hkept.
    split; [|split].
    + apply NoDup_cons. split; [|exact Hnd]. intros Hin.
      destruct (Hnew key Hin) as [Hnone _].
      by rewrite lookup_insert_eq in Hnone.
    + intros k [->|Hk]%elem_of_cons; [split; [done|by left]|].
      destruct (Hnew k Hk) as [Hnone Hin]. split; [|by right].
      destruct (decide (key = k)) as [->|Hne].
      * by rewrite lookup_insert_eq in Hnone.
      * by rewrite lookup_insert_ne in Hnone.
    + intros k [->|Hk]%elem_of_cons; [right; by left|].
      destruct (Hall k Hk) as [Hsome|Hin]; [|right; by right].
      destruct (decide (key = k)) as [->|Hne]; [right; by left|].
      rewrite lookup_insert_ne in Hsome by done. by left.
  - destruct (IH st) as (Hnd & Hnew & Hall).
    destruct (classify l) as [key ref_id| | |] eqn:Hl;
      try (split; [exact Hnd|]; split; [exact Hnew|exact Hall]).
    rewrite (kept_fileref st l key ref_id Hl) in Hkept.
    apply bool_decide_eq_false_1 in Hkept.
    split; [exact Hnd|]. split.
    + intros k Hk. destruct (Hnew k Hk). split; [done|by right].
    + intros k [->|Hk]%elem_of_cons; [|by apply Hall].
      left. by apply not_eq_None_Some.
Qed.

Lemma survivors_build_keys ls : forall st,
  NoDup (build_decls (survivors st ls)).*1
  /\ (forall k, k ∈ (build_decls (survivors st ls)).*1 ->
        seen_build_refs st !! k = None /\ k ∈ (build_decls ls).*1)
  /\ (forall k, k ∈ (build_decls ls).*1 ->
        is_Some (seen_build_refs st !! k)
        \/ k ∈ (build_decls (survivors st ls)).*1).
Proof.
  induction ls as [|l ls IH]; intros st.
  { split; [constructor|]. split; intros k Hk; by apply elem_of_nil in Hk. }
  cbn [survivors]. rewrite (build_decls_cons l ls).
  destruct (kept_by st l) eqn:Hkept.
  - destruct (IH (learn st l)) as (Hnd & Hnew & Hall).
    rewrite build_decls_cons, seen_build_refs_learn in *.
    destruct (classify l) as [|key ref_id| |] eqn:Hl;
      try (split; [exact Hnd|]; split; [exact Hnew|exact Hall]).
    rewrite (kept_buildfile st l key ref_id Hl) in Hkept.
    apply bool_decide_eq_true_1 in Hkept. rewrite !fmap_cons. cbn [fst].
    split; [|split].
    + apply NoDup_cons. split; [|exact Hnd]. intros Hin.
      destruct (Hnew key Hin) as [Hnone _].
      by rewrite lookup_insert_eq in Hnone.
    + intros k [->|Hk]%elem_of_cons; [split; [done|by left]|].
      destruct (Hnew k Hk) as [Hnone Hin]. split; [|by right].
      destruct (decide (key = k)) as [->|Hne].
      * by rewrite lookup_insert_eq in Hnone.
      * by rewrite lookup_insert_ne in Hnone.
    + intros k [->|Hk]%elem_of_cons; [right; by left|].
      destruct (Hall k Hk) as [Hsome|Hin]; [|right; by right].
      destruct (decide (key = k)) as [->|Hne]; [right; by left|].
      rewrite lookup_insert_ne in Hsome by done. by left.
  - destruct (IH st) as (Hnd & Hnew & Hall).
    destruct (classify l) as [|key ref_id| |] eqn:Hl;
      try (split; [exact Hnd|]; split; [exact Hnew|exact Hall]).
    rewrite (kept_buildfile st l key ref_id Hl) in Hkept.
    apply bool_decide_eq_false_1 in Hkept. rewrite !fmap_cons. cbn [fst].
    split; [exact Hnd|]. split.
    + intros k Hk. destruct (Hnew k Hk). split; [done|by right].
    + intros k [->|Hk]%elem_of_cons; [|by apply Hall].
      left. by apply not_eq_None_Some.
Qed.

(** X14.  After the loop no label is declared twice, neither as a
    FileReference nor as a BuildFileEntry, and no label is lost: the
    labels declared by the lines kept are the labels declared by the
    lines read. *)
Theorem one_declaration_per_label (content : str) :
  let kept := new_lines (scan (split_on nl content)) in
  NoDup (fileref_keys kept)
  /\ NoDup (build_decls kept).*1
  /\ (forall k, k ∈ fileref_keys kept <-> k ∈ fileref_keys (split_on nl content))
  /\ (forall k, k ∈ (build_decls kept).*1
                <-> k ∈ (build_decls (split_on nl content)).*1).
Proof.
  cbv zeta. destruct (scan_survivors (lines content)) as [-> _].
  destruct (survivors_fileref_keys (lines content) scan_init)
    as (Hnd & Hnew & Hall).
  destruct (survivors_build_keys (lines content) scan_init)
    as (Hnd' & Hnew' & Hall').
  split; [exact Hnd|]. split; [exact Hnd'|]. split.
  - intros k. split; [by intros [_ ?]%Hnew|].
    intros [[x Hx]|Hk]%Hall; [|done].
    unfold scan_init in Hx. cbn [seen_refs] in Hx.
    by rewrite lookup_empty in Hx.
  - intros k. split; [by intros [_ ?]%Hnew'|].
    intros [[x Hx]|Hk]%Hall'; [|done].
    unfold scan_init in Hx. cbn [seen_build_refs] in Hx.
    by rewrite lookup_empty in Hx.
Qed.

(** *** The first declaration of a label is the one kept *)

Lemma seen_refs_stable st l k v :
  seen_refs st !! k = Some v -> seen_refs (process_line st l) !! k = Some v.
Proof.
  intros Hk. rewrite process_line_spec.
  destruct (kept_by st l) eqn:Hkept; [|exact Hk].
  rewrite seen_refs_learn.
  destruct (classify l) as [key ref_id| | |] eqn:Hl; try exact Hk.
  rewrite (kept_fileref st l key ref_id Hl) in Hkept.
  apply bool_decide_eq_true_1 in Hkept.
  rewrite lookup_insert_ne; [done|]. intros ->. congruence.
Qed.

Lemma seen_refs_stable_foldl ls : forall st k v,
  seen_refs st !! k = Some v ->
  seen_refs (foldl process_line st ls) !! k = Some v.
Proof.
  induction ls as [|l ls IH]; intros st k v Hk; [done|].
  cbn [foldl]. by apply IH, seen_refs_stable.
Qed.

Lemma seen_build_refs_stable st l k v :
  seen_build_refs st !! k = Some v ->
  seen_build_refs (process_line st l) !! k = Some v.
Proof.
  intros Hk. rewrite process_line_spec.
  destruct (kept_by st l) eqn:Hkept; [|exact Hk].
  rewrite seen_build_refs_learn.
  destruct (classify l) as [|key ref_id| |] eqn:Hl; try exact Hk.
  rewrite (kept_buildfile st l key ref_id Hl) in Hkept.
  apply bool_decide_eq_true_1 in Hkept.
  rewrite lookup_insert_ne; [done|]. intros ->. congruence.
Qed.

Lemma seen_build_refs_stable_foldl ls : forall st k v,
  seen_build_refs st !! k = Some v ->
  seen_build_refs (foldl process_line st ls) !! k = Some v.
Proof.
  induction ls as [|l ls IH]; intros st k v Hk; [done|].
  cbn [foldl]. by apply IH, seen_build_refs_stable.
Qed.

Lemma seen_refs_unseen ls : forall st k,
  seen_refs st !! k = None -> k ∉ fileref_keys ls ->
  seen_refs (foldl process_line st ls) !! k = None.
Proof.
  induction ls as [|l ls IH]; intros st k Hk Hout; [done|].
  cbn [foldl]. rewrite fileref_keys_cons in Hout. apply IH.
  - rewrite process_line_spec. destruct (kept_by st l); [|exact Hk].
    rewrite seen_refs_learn.
    destruct (classify l) as [key ref_id| | |]; try exact Hk.
    apply not_elem_of_cons in Hout as [Hne _]. by rewrite lookup_insert_ne.
  - destruct (classify l); try exact Hout.
    by apply not_elem_of_cons in Hout as [_ ?].
Qed.

(** X15.  Of the FileReference declarations of a label, the loop keeps the
    first and no other: when a declaration of label [k] stands on a line
    before which [k] was not declared, the lines kept are lines from
    before it, that line, and lines from after it none of which
    declares [k]; and [seen_refs] holds the identifier of that line
    for [k]. *)
Theorem first_declaration_is_kept
    (content : str) (pre post : list str) (l k id : str) :
  split_on nl content = pre ++ l :: post ->
  classify l = FileRefDecl k id ->
  k ∉ fileref_keys pre ->
  exists a b,
    new_lines (scan (split_on nl content)) = a ++ l :: b
    /\ a `sublist_of` pre /\ b `sublist_of` post
    /\ (k ∉ fileref_keys a) /\ (k ∉ fileref_keys b)
    /\ seen_refs (scan (split_on nl content)) !! k = Some id.
Proof.
  intros Hlines Hl Hpre. rewrite Hlines.
  destruct (scan_survivors (pre ++ l :: post)) as [-> _].
  rewrite survivors_app. cbn [survivors].
  set (st1 := foldl process_line scan_init pre).
  assert (seen_refs st1 !! k = None) as Hunseen.
  { apply seen_refs_unseen; [|done]. apply lookup_empty. }
  rewrite (kept_fileref st1 l k id Hl), bool_decide_eq_true_2 by done.
  exists (survivors scan_init pre), (survivors (learn st1 l) post).
  split; [done|]. split; [apply survivors_sublist|].
  split; [apply survivors_sublist|].
  destruct (survivors_fileref_keys pre scan_init) as (_ & Hnew & _).
  destruct (survivors_fileref_keys post (learn st1 l)) as (_ & Hnew' & _).
  split; [by intros [_ ?]%Hnew|]. split.
  - intros [Hnone _]%Hnew'. rewrite seen_refs_learn, Hl in Hnone.
    by rewrite lookup_insert_eq in Hnone.
  - unfold scan. rewrite foldl_app. cbn [foldl]. fold st1.
    apply seen_refs_stable_foldl. rewrite process_line_spec.
    rewrite (kept_fileref st1 l k id Hl), bool_decide_eq_true_2 by done.
    rewrite seen_refs_learn, Hl. apply lookup_insert_eq.
Qed.

Lemma first_declaration_is_kept_witness :
  split_on nl duplicated_manifest
  = [lit "/* Begin PBXFileReference section */"]
    ++ first_utils
    :: [second_utils; lit "/* End PBXFileReference section */"; []]
  /\ classify first_utils
     = FileRefDecl (lit "Utils.swift") (lit "AB0000000000000000002010")
  /\ (lit "Utils.swift"
      ∉ fileref_keys [lit "/* Begin PBXFileReference section */"])
  /\ exists a b,
       new_lines (scan (split_on nl duplicated_manifest))
       = a ++ first_utils :: b
       /\ a `sublist_of` [lit "/* Begin PBXFileReference section */"]
       /\ b `sublist_of`
            [second_utils; lit "/* End PBXFileReference section */"; []]
       /\ (lit "Utils.swift" ∉ fileref_keys a)
       /\ (lit "Utils.swift" ∉ fileref_keys b)
       /\ seen_refs (scan (split_on nl duplicated_manifest))
            !! lit "Utils.swift"
          = Some (lit "AB0000000000000000002010").
Proof.
  assert (split_on nl duplicated_manifest
          = [lit "/* Begin PBXFileReference section */"]
            ++ first_utils
            :: [second_utils; lit "/* End PBXFileReference section */"; []])
    as Hlines by (vm_compute; reflexivity).
  assert (classify first_utils
          = FileRefDecl (lit "Utils.swift") (lit "AB0000000000000000002010"))
    as Hl by (vm_compute; reflexivity).
  assert (lit "Utils.swift"
          ∉ fileref_keys [lit "/* Begin PBXFileReference section */"])
    as Hpre.
  { intros Hin. apply list_elem_of_In in Hin. vm_compute in Hin. done. }
  split; [exact Hlines|]. split; [exact Hl|]. split; [exact Hpre|].
  exact (first_declaration_is_kept duplicated_manifest _ _ _ _ _
           Hlines Hl Hpre).
Defined.

(** *** Membership lines after the declaration *)

Lemma survivors_all_app x : forall y st,
  survivors st (x ++ y) = x ++ y ->
  survivors st x = x /\ survivors (foldl process_line st x) y = y.
Proof.
  intros y st Hall. rewrite survivors_app in Hall.
  pose proof (survivors_length x st) as Hx.
  pose proof (survivors_length y (foldl process_line st x)) as Hy.
  pose proof (f_equal length Hall) as Hlen. rewrite !length_app in Hlen.
  apply app_inj_1 in Hall; [done|lia].
Qed.

Lemma survivors_all_cons l y st :
  survivors st (l :: y) = l :: y ->
  kept_by st l = true /\ survivors (learn st l) y = y.
Proof.
  cbn [survivors]. destruct (kept_by st l).
  - intros [= Hy]. by split.
  - intros Hall. pose proof (survivors_length y st) as Hy.
    apply (f_equal length) in Hall. cbn [length] in Hall. lia.
Qed.

(** X16.  Among the lines kept, a membership line of the Sources phase that
    comes after the BuildFileEntry declaration of its label carries the
    identifier of that declaration: a membership line under another
    identifier is removed. *)
Theorem membership_follows_declaration
    (content : str) (a b c : list str) (d e k id r : str) :
  new_lines (scan (split_on nl content)) = a ++ d :: b ++ e :: c ->
  classify d = BuildFileDecl k id ->
  classify e = PhaseEntry k r ->
  r = id.
Proof.
  intros Hkept Hd He.
  destruct (scan_survivors (lines content)) as [Hnew _].
  rewrite Hnew in Hkept.
  pose proof (survivors_idempotent (lines content) scan_init) as Hidem.
  rewrite Hkept in Hidem.
  apply survivors_all_app in Hidem as [_ Hidem].
  apply survivors_all_cons in Hidem as [Hkd Hidem].
  apply survivors_all_app in Hidem as [_ Hidem].
  apply survivors_all_cons in Hidem as [Hke _].
  set (st := foldl process_line scan_init a) in *.
  assert (seen_build_refs (foldl process_line (learn st d) b) !! k = Some id)
    as Hseen.
  { apply seen_build_refs_stable_foldl.
    rewrite seen_build_refs_learn, Hd. apply lookup_insert_eq. }
  unfold kept_by in Hke. rewrite He, Hseen in Hke.
  unfold str_eqb in Hke. by apply bool_decide_eq_true_1 in Hke.
Qed.

Lemma membership_follows_declaration_witness :
  new_lines (scan (split_on nl sources_manifest))
  = [] ++ model_declaration :: [lit "files = ("] ++ model_member :: [lit ");"]
  /\ classify model_declaration
     = BuildFileDecl (lit "Model.swift") (lit "AB0000000000000000002011")
  /\ classify model_member
     = PhaseEntry (lit "Model.swift") (lit "AB0000000000000000002011")
  /\ lit "AB0000000000000000002011" = lit "AB0000000000000000002011".
Proof.
  assert (new_lines (scan (split_on nl sources_manifest))
          = [] ++ model_declaration
            :: [lit "files = ("] ++ model_member :: [lit ");"]) as Hkept
    by (vm_compute; reflexivity).
  assert (classify model_declaration
          = BuildFileDecl (lit "Model.swift")
              (lit "AB0000000000000000002011")) as Hd
    by (vm_compute; reflexivity).
  assert (classify model_member
          = PhaseEntry (lit "Model.swift") (lit "AB0000000000000000002011"))
    as He by (vm_compute; reflexivity).
  split; [exact Hkept|]. split; [exact Hd|]. split; [exact He|].
  exact (membership_follows_declaration sources_manifest _ _ _ _ _ _ _ _
           Hkept Hd He).
Defined.

(** *** The text never grows *)

Lemma join_length_sublist (k l : list str) :
  k `sublist_of` l -> length (join [nl] k) <= length (join [nl] l).
Proof.
  induction 1 as [|x k l Hsub IH|x k l Hsub IH]; [done| |].
  - destruct k as [|y k]; destruct l as [|z l].
    + done.
    + change (join [nl] (x :: z :: l)) with (x ++ [nl] ++ join [nl] (z :: l)).
      cbn [join]. rewrite !length_app. lia.
    + by apply sublist_nil_r in Hsub.
    + change (join [nl] (x :: y :: k)) with (x ++ [nl] ++ join [nl] (y :: k)).
      change (join [nl] (x :: z :: l)) with (x ++ [nl] ++ join [nl] (z :: l)).
      rewrite !length_app. lia.
  - destruct l as [|z l].
    + apply sublist_nil_r in Hsub as ->. cbn. lia.
    + change (join [nl] (x :: z :: l)) with (x ++ [nl] ++ join [nl] (z :: l)).
      rewrite !length_app. lia.
Qed.

Lemma collapse_length s : forall b,
  length (collapse b s) <= length s
  /\ (b = true -> 0 < leading_breaks s -> length (collapse b s) < length s).
Proof.
  induction s as [|c s IH]; intros b.
  - cbn. split; [lia|]. intros _ H. lia.
  - rewrite collapse_cons.
    destruct (b && (0 <? leading_breaks (c :: s))%nat) eqn:Hskip.
    + destruct (IH true) as [Hle _]. cbn [length]. split; [lia|]. lia.
    + assert (b = true -> 0 < leading_breaks (c :: s) -> False) as Hno.
      { intros -> Hpos. cbn [andb] in Hskip.
        apply Nat.ltb_ge in Hskip. lia. }
      destruct (blank_run_at (c :: s)) eqn:Hrun.
      * cbn [blank_run_at] in Hrun. apply andb_true_iff in Hrun as [_ Hrun].
        apply Nat.leb_le in Hrun.
        destruct (IH true) as [_ Hlt]. cbn [length].
        split; [|intros Hb Hpos; destruct (Hno Hb Hpos)].
        assert (length (collapse true s) < length s) by (apply Hlt; [done|lia]).
        lia.
      * destruct (IH false) as [Hle _]. cbn [length].
        split; [lia|]. intros Hb Hpos. destruct (Hno Hb Hpos).
Qed.

(** X17.  The repaired text is never longer than the text read. *)
Theorem repair_never_grows_text (content : str) :
  length (fst (dedup_text content)) <= length content.
Proof.
  rewrite dedup_text_spec. cbn [fst].
  destruct (collapse_length
              (join [nl] (survivors scan_init (lines content))) false)
    as [Hle _].
  pose proof (join_length_sublist _ _
                (survivors_sublist (lines content) scan_init)) as Hjoin.
  rewrite join_split in Hjoin. lia.
Qed.

(** *** What a run touches, and how it ends *)

Lemma write_file_frame fault w path data p :
  p <> path -> files (fst (write_file fault w path data)) !! p = files w !! p.
Proof.
  intros Hp. assert (path <> p) as Hp' by congruence. unfold write_file.
  destruct (fault path); cbn [fst files].
  - by rewrite lookup_insert_ne.
  - reflexivity.
  - by rewrite lookup_insert_ne.
Qed.

(** X18.  A run changes no file other than the manifest and its backup,
    whatever fails on the way. *)
Theorem repair_touches_two_paths
    (fault : str -> write_fault) (w : world) (file_path p : str) :
  p <> file_path -> p <> backup_path file_path ->
  files (fst (deduplicate_project_file fault w file_path)) !! p = files w !! p.
Proof.
  intros Hfile Hbackup. unfold deduplicate_project_file.
  destruct (files w !! file_path) as [stored|]; [|done].
  destruct (dedup_text (universal_newlines stored)) as [new_content count].
  destruct (0 <? count)%nat; [|done].
  pose proof (write_file_frame fault w (backup_path file_path)
                (universal_newlines stored) p Hbackup) as H1.
  destruct (write_file fault w (backup_path file_path) _) as [w1 ok1].
  cbn [fst] in H1. destruct ok1; [|done].
  pose proof (write_file_frame fault w1 file_path new_content p Hfile) as H2.
  destruct (write_file fault w1 file_path new_content) as [w2 ok2].
  cbn [fst] in H2. destruct ok2; cbn [fst]; congruence.
Qed.

Lemma repair_touches_two_paths_witness :
  lit "README.md" <> sample_path
  /\ lit "README.md" <> backup_path sample_path
  /\ files (fst (deduplicate_project_file backup_unwritable
                   (World (<[lit "README.md" := lit "notes"]>
                             (files sample_world)) [])
                   sample_path)) !! lit "README.md"
     = files (World (<[lit "README.md" := lit "notes"]>
                       (files sample_world)) []) !! lit "README.md".
Proof.
  assert (lit "README.md" <> sample_path) as H1 by discriminate.
  assert (lit "README.md" <> backup_path sample_path) as H2 by discriminate.
  split; [exact H1|]. split; [exact H2|].
  exact (repair_touches_two_paths backup_unwritable _ sample_path
           (lit "README.md") H1 H2).
Defined.

(** X19.  The answer [False] means that the manifest could not be read, and
    nothing else: a run returns [False] exactly when the file is missing
    or unreadable, and then it has written nothing; a write that fails
    ends the run with an exception instead, and that happens only when
    there were duplicates to remove. *)
Theorem repair_answers_false_for_unreadable_file_only
    (fault : str -> write_fault) (w : world) (file_path : str) :
  let '(w', out) := deduplicate_project_file fault w file_path in
  (out = Returned false <-> files w !! file_path = None)
  /\ (out = Returned false -> w' = w)
  /\ (out = Raised ->
      exists stored,
        files w !! file_path = Some stored
        /\ (0 < snd (dedup_text (universal_newlines stored)))%nat
        /\ (fault (backup_path file_path) <> NoFault
            \/ fault file_path <> NoFault)).
Proof.
  unfold deduplicate_project_file.
  destruct (files w !! file_path) as [stored|] eqn:Hfile.
  2:{ split; [done|]. split; [done|]. intros [=]. }
  destruct (dedup_text (universal_newlines stored)) as [new_content count]
    eqn:Htext.
  cbn [snd].
  destruct (0 <? count)%nat eqn:Hcount.
  2:{ split; [split; intros [=]|]. split; intros [=]. }
  apply Nat.ltb_lt in Hcount. unfold write_file.
  assert (exists stored0,
            Some stored = Some stored0
            /\ (0 < snd (dedup_text (universal_newlines stored0)))%nat)
    as (stored0 & Hsome & Hpos).
  { exists stored. split; [done|]. by rewrite Htext. }
  destruct (fault (backup_path file_path)) eqn:Hb.
  - destruct (fault file_path) eqn:Hf.
    + split; [split; intros [=]|]. split; intros [=].
    + split; [split; intros [=]|]. split; [intros [=]|].
      intros _. exists stored0. split; [done|]. split; [done|].
      right. discriminate.
    + split; [split; intros [=]|]. split; [intros [=]|].
      intros _. exists stored0. split; [done|]. split; [done|].
      right. discriminate.
  - split; [split; intros [=]|]. split; [intros [=]|].
    intros _. exists stored0. split; [done|]. split; [done|].
    left. discriminate.
  - split; [split; intros [=]|]. split; [intros [=]|].
    intros _. exists stored0. split; [done|]. split; [done|].
    left. discriminate.
Qed.

End RepairFacts.

Module TargetedFacts.
Import Py Re Dedup Targeted LineFacts DedupProofs.

(** *** The model on sample texts *)

Example readlines_keeps_line_ends :
  readlines (lit "a" ++ [nl] ++ [nl] ++ lit "b")
  = [lit "a" ++ [nl]; [nl]; lit "b"].
Proof. reflexivity. Qed.

Example second_line_for_a_reference_goes :
  remove_specific_duplicates (fun _ => NoFault)
    (World {[ project_path := twice_referenced ]} []) project_path
  = (let text :=
       lit "1 = {isa = PBXBuildFile; fileRef = AB020020; };" ++ [nl]
       ++ lit "2 = {isa = PBXBuildFile; fileRef = AB020099; };" ++ [nl] in
     (World {[ project_path := text ]} [Wrote project_path text],
      Returned true)).
Proof. vm_compute. reflexivity. Qed.

Example missing_file_raises :
  remove_specific_duplicates (fun _ => NoFault) (World ∅ []) project_path
  = (World ∅ [], Raised).
Proof. reflexivity. Qed.

(** *** The pass over the lines *)

Lemma visit_spec st line :
  visit st line =
  match first_hit line with
  | Some ref =>
      if bool_decide (ref ∈ seen st)
      then Pass (seen st) (kept st) (removed_count st + 1)
      else Pass ({[ ref ]} ∪ seen st) (kept st ++ [line]) (removed_count st)
  | None => Pass (seen st) (kept st ++ [line]) (removed_count st)
  end.
Proof. reflexivity. Qed.

Lemma pass_retained ls : forall st,
  kept (foldl visit st ls) = kept st ++ retained (seen st) ls
  /\ (removed_count (foldl visit st ls) + length (retained (seen st) ls)
      = removed_count st + length ls)%nat.
Proof.
  induction ls as [|l ls IH]; intros st.
  - cbn. rewrite app_nil_r. split; [done|lia].
  - cbn [foldl retained]. rewrite visit_spec.
    destruct (first_hit l) as [ref|].
    + case_bool_decide.
      * destruct (IH (Pass (seen st) (kept st) (removed_count st + 1)))
          as [-> Hcount].
        cbn [seen kept removed_count length] in *. split; [done|lia].
      * destruct (IH (Pass ({[ ref ]} ∪ seen st) (kept st ++ [l])
                        (removed_count st))) as [-> Hcount].
        cbn [seen kept removed_count length] in *.
        rewrite <- app_assoc. split; [done|lia].
    + destruct (IH (Pass (seen st) (kept st ++ [l]) (removed_count st)))
        as [-> Hcount].
      cbn [seen kept removed_count length] in *.
      rewrite <- app_assoc. split; [done|lia].
Qed.

Lemma retained_sublist ls : forall s, retained s ls `sublist_of` ls.
Proof.
  induction ls as [|l ls IH]; intros s; [constructor|].
  cbn [retained]. destruct (first_hit l) as [ref|].
  - case_bool_decide; [apply sublist_cons|apply sublist_skip]; apply IH.
  - apply sublist_skip, IH.
Qed.

Lemma retained_untargeted ls : forall s,
  filter (fun l => untargeted l = true) (retained s ls)
  = filter (fun l => untargeted l = true) ls.
Proof.
  induction ls as [|l ls IH]; intros s; [reflexivity|].
  cbn [retained]. unfold untargeted at 2 4.
  destruct (first_hit l) as [ref|] eqn:Hl.
  - rewrite (filter_cons_False _ l ls) by (unfold untargeted; by rewrite Hl).
    case_bool_decide; [apply IH|].
    rewrite filter_cons_False by (unfold untargeted; by rewrite Hl).
    apply IH.
  - rewrite !filter_cons_True by (unfold untargeted; by rewrite Hl).
    by rewrite IH.
Qed.

(** X20.  The pass removes lines only, it counts the lines that it removes,
    and it removes no line without a targeted reference: the lines in
    which none of the three [fileRef = ...] texts occurs are all kept, in
    their order. *)
Theorem targeted_pass_only_removes_hits (ls : list str) :
  let st := foldl visit pass_init ls in
  kept st `sublist_of` ls
  /\ (length (kept st) + removed_count st = length ls)%nat
  /\ filter (fun l => untargeted l = true) (kept st)
     = filter (fun l => untargeted l = true) ls.
Proof.
  cbv zeta. destruct (pass_retained ls pass_init) as [-> Hcount].
  cbn [kept seen removed_count pass_init app] in *.
  split; [apply retained_sublist|]. split; [lia|apply retained_untargeted].
Qed.

(** *** One line for every targeted reference *)

Lemma hits_cons l ls :
  omap first_hit (l :: ls) =
  match first_hit l with
  | Some ref => ref :: omap first_hit ls
  | None => omap first_hit ls
  end.
Proof. cbn [omap list_omap]. by destruct (first_hit l). Qed.

Lemma retained_hits ls : forall s,
  NoDup (omap first_hit (retained s ls))
  /\ (forall r, r ∈ omap first_hit (retained s ls) ->
        (r ∉ s) /\ r ∈ omap first_hit ls)
  /\ (forall r, r ∈ omap first_hit ls ->
        r ∈ s \/ r ∈ omap first_hit (retained s ls)).
Proof.
  induction ls as [|l ls IH]; intros s.
  { split; [constructor|]. split; intros r Hr; by apply elem_of_nil in Hr. }
  cbn [retained]. rewrite (hits_cons l ls).
  destruct (first_hit l) as [ref|] eqn:Hl.
  - case_bool_decide as Hseen.
    + destruct (IH s) as (Hnd & Hnew & Hall). split; [exact Hnd|]. split.
      * intros r Hr. destruct (Hnew r Hr). split; [done|by right].
      * intros r [->|Hr]%elem_of_cons; [by left|by apply Hall].
    + destruct (IH ({[ ref ]} ∪ s)) as (Hnd & Hnew & Hall).
      rewrite hits_cons, Hl. split; [|split].
      * apply NoDup_cons. split; [|exact Hnd].
        intros [Hout _]%Hnew. apply Hout.
        apply elem_of_union. left. by apply elem_of_singleton.
      * intros r [->|Hr]%elem_of_cons; [split; [done|by left]|].
        destruct (Hnew r Hr) as [Hout Hin]. split; [|by right].
        intros Hs. apply Hout. apply elem_of_union. by right.
      * intros r [->|Hr]%elem_of_cons; [right; by left|].
        destruct (Hall r Hr) as [Hin|Hin]; [|right; by right].
        apply elem_of_union in Hin as [->%elem_of_singleton|Hin];
          [right; by left|by left].
  - rewrite hits_cons, Hl. apply IH.
Qed.

(** X21.  After the pass every targeted reference that the text uses is used
    by one line only: no two of the lines kept are lines for the same
    reference, and a reference for which a line was read still has its
    line. *)
Theorem one_line_per_targeted_reference (ls : list str) :
  let st := foldl visit pass_init ls in
  NoDup (omap first_hit (kept st))
  /\ (forall r, r ∈ omap first_hit (kept st) <-> r ∈ omap first_hit ls).
Proof.
  cbv zeta. destruct (pass_retained ls pass_init) as [-> _].
  cbn [kept seen pass_init app].
  destruct (retained_hits ls ∅) as (Hnd & Hnew & Hall).
  split; [exact Hnd|]. intros r. split; [by intros [_ ?]%Hnew|].
  intros [Hin|Hin]%Hall; [|done]. by apply elem_of_empty in Hin.
Qed.

(** *** Reading the lines back *)

Lemma readlines_cons c s :
  readlines (c :: s) =
  if (c =? nl)%N then [nl] :: readlines s
  else match readlines s with
       | [] => [[c]]
       | l :: ls => (c :: l) :: ls
       end.
Proof. reflexivity. Qed.

Lemma concat_readlines s : concat (readlines s) = s.
Proof.
  induction s as [|c s IH]; [reflexivity|]. rewrite readlines_cons.
  destruct (c =? nl)%N eqn:Hc.
  - apply N.eqb_eq in Hc as ->. cbn [concat app]. by rewrite IH.
  - destruct (readlines s) as [|l ls]; cbn [concat app] in *;
      by rewrite <- IH.
Qed.

Lemma readlines_terminated body rest :
  nl ∉ body -> readlines (body ++ nl :: rest) = (body ++ [nl]) :: readlines rest.
Proof.
  induction body as [|c body IH]; intros Hnl.
  - cbn [app]. by rewrite readlines_cons, N.eqb_refl.
  - apply not_elem_of_cons in Hnl as [Hc Hbody].
    cbn [app]. rewrite readlines_cons.
    destruct (N.eqb_spec c nl); [done|]. by rewrite IH.
Qed.

Lemma readlines_unterminated l :
  l <> [] -> nl ∉ l -> readlines l = [l].
Proof.
  induction l as [|c l IH]; intros Hne Hnl; [done|].
  apply not_elem_of_cons in Hnl as [Hc Hl]. rewrite readlines_cons.
  destruct (N.eqb_spec c nl); [done|].
  destruct l as [|c' l]; [reflexivity|]. by rewrite IH.
Qed.

Lemma readlines_concat ls : well_cut ls -> readlines (concat ls) = ls.
Proof.
  induction ls as [|l ls IH]; intros Hcut; [reflexivity|].
  cbn [well_cut] in Hcut. destruct ls as [|l' ls].
  - cbn [concat]. rewrite app_nil_r.
    destruct Hcut as [(body & -> & Hbody)|[Hne Hnl]].
    + by rewrite readlines_terminated.
    + by apply readlines_unterminated.
  - destruct Hcut as [(body & -> & Hbody) Hcut].
    change (concat ((body ++ [nl]) :: l' :: ls))
      with ((body ++ [nl]) ++ concat (l' :: ls)).
    rewrite <- app_assoc. cbn [app].
    rewrite readlines_terminated by done. by rewrite IH.
Qed.

Lemma well_cut_cons l ls :
  terminated l -> well_cut ls -> well_cut (l :: ls).
Proof. intros Hl Hls. cbn [well_cut]. destruct ls; [by left|by split]. Qed.

Lemma well_cut_tail l ls : well_cut (l :: ls) -> well_cut ls.
Proof. cbn [well_cut]. destruct ls; [done|by intros [_ ?]]. Qed.

Lemma readlines_well_cut s : well_cut (readlines s).
Proof.
  induction s as [|c s IH]; [done|]. rewrite readlines_cons.
  destruct (N.eqb_spec c nl) as [->|Hc].
  - apply well_cut_cons; [|done]. exists []. split; [done|].
    by intros ?%elem_of_nil.
  - destruct (readlines s) as [|l ls] eqn:Hs.
    + right. split; [done|]. by intros <-%list_elem_of_singleton.
    + cbn [well_cut] in *. destruct ls as [|l' ls].
      * destruct IH as [(body & -> & Hbody)|[Hne Hnl]].
        -- left. exists (c :: body). split; [done|].
           by intros [<-|?]%elem_of_cons.
        -- right. split; [done|]. by intros [<-|?]%elem_of_cons.
      * destruct IH as [(body & -> & Hbody) Hcut]. split; [|done].
        exists (c :: body). split; [done|]. by intros [<-|?]%elem_of_cons.
Qed.

Lemma well_cut_sublist k l : k `sublist_of` l -> well_cut l -> well_cut k.
Proof.
  induction 1 as [|x k l Hsub IH|x k l Hsub IH]; intros Hcut; [done| |].
  - pose proof (well_cut_tail _ _ Hcut) as Htail.
    cbn [well_cut] in Hcut |- *. destruct k as [|y k].
    + destruct l; [done|]. left. by destruct Hcut.
    + destruct l as [|z l]; [by apply sublist_nil_r in Hsub|].
      destruct Hcut as [Hx _]. split; [done|]. by apply IH.
  - apply IH. by apply well_cut_tail in Hcut.
Qed.

(** *** A second run *)

Lemma retained_idempotent ls : forall s,
  retained s (retained s ls) = retained s ls.
Proof.
  induction ls as [|l ls IH]; intros s; [reflexivity|].
  cbn [retained]. destruct (first_hit l) as [ref|] eqn:Hl.
  - case_bool_decide as Hseen; [apply IH|].
    cbn [retained]. rewrite Hl, bool_decide_eq_false_2 by done.
    by rewrite IH.
  - cbn [retained]. by rewrite Hl, IH.
Qed.

Lemma retained_length ls s : length (retained s ls) <= length ls.
Proof. apply sublist_length, retained_sublist. Qed.

Lemma retained_all ls : forall s,
  length (retained s ls) = length ls -> retained s ls = ls.
Proof.
  induction ls as [|l ls IH]; intros s; [reflexivity|].
  cbn [retained]. destruct (first_hit l) as [ref|].
  - case_bool_decide.
    + pose proof (retained_length ls s). cbn [length]. lia.
    + cbn [length]. intros [= Hlen]. by rewrite IH.
  - cbn [length]. intros [= Hlen]. by rewrite IH.
Qed.

Lemma concat_sublist_elem (k l : list str) x :
  k `sublist_of` l -> x ∈ concat k -> x ∈ concat l.
Proof.
  induction 1 as [|y k l Hsub IH|y k l Hsub IH]; [done| |]; cbn [concat];
    rewrite !elem_of_app.
  - intros [?|?]; [by left|right; by apply IH].
  - intros ?. right. by apply IH.
Qed.

Lemma targeted_run w file_path stored :
  files w !! file_path = Some stored ->
  let ls := readlines (universal_newlines stored) in
  let text := concat (retained ∅ ls) in
  remove_specific_duplicates (fun _ => NoFault) w file_path
  = (World (<[file_path := text]> (files w))
           (trace w ++ [Wrote file_path text]),
     Returned (0 <? length ls - length (retained ∅ ls))%nat).
Proof.
  intros Hfile. cbv zeta. unfold remove_specific_duplicates, write_file.
  rewrite Hfile. cbv zeta.
  destruct (pass_retained (readlines (universal_newlines stored)) pass_init)
    as [-> Hcount].
  cbn [kept seen removed_count pass_init app] in *.
  do 3 f_equal. lia.
Qed.

Lemma retained_reads_back stored :
  let text := concat (retained ∅ (readlines (universal_newlines stored))) in
  readlines (universal_newlines text)
  = retained ∅ (readlines (universal_newlines stored)).
Proof.
  cbv zeta.
  set (ls := readlines (universal_newlines stored)).
  rewrite universal_newlines_id.
  - apply readlines_concat.
    apply (well_cut_sublist _ ls); [apply retained_sublist|].
    apply readlines_well_cut.
  - intros Hcr.
    apply (concat_sublist_elem _ ls) in Hcr; [|apply retained_sublist].
    subst ls. rewrite concat_readlines in Hcr.
    by apply (universal_newlines_no_cr (length stored) stored) in Hcr.
Qed.

(** X22.  A second run finds nothing to remove.  After a run in which no
    write fails, another run returns [False] and leaves every file with
    the text that it had. *)
Theorem targeted_repair_is_idempotent (w : world) (file_path stored : str) :
  files w !! file_path = Some stored ->
  let '(w1, _) := remove_specific_duplicates (fun _ => NoFault) w file_path in
  let '(w2, out2) :=
    remove_specific_duplicates (fun _ => NoFault) w1 file_path in
  files w2 = files w1 /\ out2 = Returned false.
Proof.
  intros Hfile. rewrite (targeted_run w file_path stored Hfile). cbv zeta.
  set (ls := readlines (universal_newlines stored)).
  set (text := concat (retained ∅ ls)).
  rewrite (targeted_run _ file_path text) by apply lookup_insert_eq.
  cbv zeta. cbn [files]. subst text ls.
  rewrite retained_reads_back, retained_idempotent.
  split; [by rewrite insert_insert_eq|].
  by rewrite Nat.sub_diag.
Qed.

Lemma targeted_repair_is_idempotent_witness :
  files (World {[ project_path := twice_referenced ]} []) !! project_path
  = Some twice_referenced
  /\ (let '(w1, _) :=
         remove_specific_duplicates (fun _ => NoFault)
           (World {[ project_path := twice_referenced ]} []) project_path in
       let '(w2, out2) :=
         remove_specific_duplicates (fun _ => NoFault) w1 project_path in
       files w2 = files w1 /\ out2 = Returned false).
Proof.
  assert (files (World {[ project_path := twice_referenced ]} [])
            !! project_path = Some twice_referenced) as Hfile
    by apply lookup_singleton_eq.
  split; [exact Hfile|].
  exact (targeted_repair_is_idempotent _ project_path twice_referenced Hfile).
Defined.

(** *** A run that removes nothing *)

(** X23.  The file is written in every run.  When no write fails, the run
    writes the file once and nothing else; and a run that returns
    [False], because it removed no line, has written the text as it was
    read: the file now holds that text with every CR LF and every CR
    replaced by a line feed. *)
Theorem unchanged_text_is_rewritten (w : world) (file_path stored : str) :
  files w !! file_path = Some stored ->
  let '(w', out) :=
    remove_specific_duplicates (fun _ => NoFault) w file_path in
  (exists text, trace w' = trace w ++ [Wrote file_path text]
                /\ files w' = <[file_path := text]> (files w))
  /\ (out = Returned false ->
      files w' !! file_path = Some (universal_newlines stored)).
Proof.
  intros Hfile. rewrite (targeted_run w file_path stored Hfile). cbv zeta.
  cbn [trace files]. split; [by eexists|].
  intros [= Hnone]. apply Nat.ltb_ge in Hnone.
  rewrite lookup_insert_eq. f_equal.
  rewrite retained_all, concat_readlines; [done|].
  pose proof (retained_length (readlines (universal_newlines stored)) ∅).
  lia.
Qed.

Lemma unchanged_text_is_rewritten_witness :
  files (World {[ project_path := dos_text ]} []) !! project_path
  = Some dos_text
  /\ (let '(w', out) :=
         remove_specific_duplicates (fun _ => NoFault)
           (World {[ project_path := dos_text ]} []) project_path in
       (exists text, trace w' = [] ++ [Wrote project_path text]
                     /\ files w' = <[project_path := text]>
                                     {[ project_path := dos_text ]})
       /\ (out = Returned false ->
           files w' !! project_path = Some (universal_newlines dos_text))).
Proof.
  assert (files (World {[ project_path := dos_text ]} []) !! project_path
          = Some dos_text) as Hfile by apply lookup_singleton_eq.
  split; [exact Hfile|].
  exact (unchanged_text_is_rewritten _ project_path dos_text Hfile).
Defined.

End TargetedFacts.

Module OtherScans.
Import Py Re Smart Walk LineFacts ScanProofs.

(** *** [scan_source_files] of the automated import *)

Example automated_scan_of_spec_tree :
  map (fun f => (path f, category f)) (Automated.scan_source_files spec_tree)
  = [ (lit "App.swift", lit "source");
      (lit "Assets.xcassets", lit "resource");
      (lit "App.entitlements", lit "resource");
      (lit "Core/Model.swift", lit "source");
      (lit "Tests/ModelTests.swift", lit "source") ].
Proof. vm_compute. reflexivity. Qed.

Lemma automated_scan_file_swift root file :
  file_name_ok file ->
  file ∉ Automated.excluded_files ->
  lower (path_suffix file) = lit ".swift" ->
  Automated.scan_file root file
  = [FileInfo (join [slash] (root ++ [file])) file
              (lit "sourcecode.swift") (lit "source")].
Proof.
  intros Hok Hnoise Hswift. unfold Automated.scan_file, in_list.
  rewrite bool_decide_eq_false_2 by done. cbv zeta.
  rewrite (path_suffix_of_file root file Hok), Hswift. reflexivity.
Qed.

Lemma automated_files_of_holds root es file f :
  File file ∈ es -> f ∈ Automated.scan_file root file ->
  f ∈ Automated.scan_files_of root es.
Proof.
  intros Hfile Hf. unfold Automated.scan_files_of.
  apply list_elem_of_In, in_flat_map.
  exists (File file). split; by apply list_elem_of_In.
Qed.

Lemma automated_below_holds dirs : forall root d sub file f,
  Automated.walk_into d = true ->
  Forall (fun d => Automated.walk_into d = true) dirs ->
  holds sub dirs file ->
  f ∈ Automated.scan_file (root ++ d :: dirs) file ->
  f ∈ Automated.scan_below root (Dir d sub).
Proof.
  induction dirs as [|d' dirs IH]; intros root d sub file f Hd Hdirs Hholds Hf;
    cbn [Automated.scan_below]; rewrite Hd; apply elem_of_app.
  - left. by apply (automated_files_of_holds _ _ file).
  - right. destruct Hholds as (sub' & Hsub & Hholds).
    apply Forall_cons in Hdirs as [Hd' Hdirs].
    apply list_elem_of_In, in_flat_map. exists (Dir d' sub').
    split; [by apply list_elem_of_In|]. apply list_elem_of_In.
    apply (IH (root ++ [d]) d' sub' file f Hd' Hdirs Hholds).
    by rewrite <- app_assoc.
Qed.

(** X24.  The automated import takes every Swift file.  A file whose suffix
    is [.swift] in any spelling of upper and lower case, which is none
    of the five noise files and which is listed in a directory that the
    walk reaches without passing one of its six excluded directories,
    becomes an item of category [source] under its path from the source
    root. *)
Theorem every_swift_file_is_imported
    (source_tree : list entry) (dirs : list str) (file : str) :
  holds source_tree dirs file ->
  Forall (fun d => Automated.walk_into d = true) dirs ->
  file_name_ok file ->
  file ∉ Automated.excluded_files ->
  lower (path_suffix file) = lit ".swift" ->
  FileInfo (join [slash] (dirs ++ [file])) file
           (lit "sourcecode.swift") (lit "source")
    ∈ Automated.scan_source_files source_tree.
Proof.
  intros Hholds Hdirs Hok Hnoise Hswift.
  pose proof (automated_scan_file_swift dirs file Hok Hnoise Hswift) as Hscan.
  unfold Automated.scan_source_files. apply elem_of_app.
  destruct dirs as [|d dirs].
  - left. apply (automated_files_of_holds _ _ file); [done|].
    rewrite Hscan. apply list_elem_of_here.
  - right. destruct Hholds as (sub & Hsub & Hholds).
    apply Forall_cons in Hdirs as [Hd Hdirs].
    apply list_elem_of_In, in_flat_map. exists (Dir d sub).
    split; [by apply list_elem_of_In|]. apply list_elem_of_In.
    apply (automated_below_holds dirs [] d sub file); try done.
    cbn [app]. rewrite Hscan. apply list_elem_of_here.
Qed.

Lemma every_swift_file_is_imported_witness :
  holds spec_tree [lit "Tests"] (lit "ModelTests.swift")
  /\ Forall (fun d => Automated.walk_into d = true) [lit "Tests"]
  /\ file_name_ok (lit "ModelTests.swift")
  /\ (lit "ModelTests.swift" ∉ Automated.excluded_files)
  /\ lower (path_suffix (lit "ModelTests.swift")) = lit ".swift"
  /\ FileInfo (lit "Tests/ModelTests.swift") (lit "ModelTests.swift")
              (lit "sourcecode.swift") (lit "source")
       ∈ Automated.scan_source_files spec_tree.
Proof.
  assert (holds spec_tree [lit "Tests"] (lit "ModelTests.swift")) as Hholds.
  { exists [File (lit "ModelTests.swift")]. split.
    - do 2 apply list_elem_of_further. apply list_elem_of_here.
    - apply list_elem_of_here. }
  assert (Forall (fun d => Automated.walk_into d = true) [lit "Tests"])
    as Hdirs by (by repeat constructor).
  assert (file_name_ok (lit "ModelTests.swift")) as Hok.
  { repeat split; try discriminate.
    intros Hin. apply list_elem_of_In in Hin. vm_compute in Hin.
    repeat destruct Hin as [Hin|Hin]; done. }
  assert (lit "ModelTests.swift" ∉ Automated.excluded_files) as Hnoise.
  { intros Hin. apply list_elem_of_In in Hin. vm_compute in Hin.
    repeat destruct Hin as [Hin|Hin]; done. }
  assert (lower (path_suffix (lit "ModelTests.swift")) = lit ".swift")
    as Hswift by (vm_compute; reflexivity).
  split; [exact Hholds|]. split; [exact Hdirs|]. split; [exact Hok|].
  split; [exact Hnoise|]. split; [exact Hswift|].
  exact (every_swift_file_is_imported spec_tree [lit "Tests"]
           (lit "ModelTests.swift") Hholds Hdirs Hok Hnoise Hswift).
Defined.

(** *** [scan_core_files] of the final fix *)

Lemma final_scan_file_elem root file f :
  f ∈ Final.scan_file root file ->
  f = FileInfo (join [slash] (root ++ [file])) file
               (lit "sourcecode.swift") (lit "source")
  /\ Final.endswith (lit ".swift") file = true
  /\ Final.is_core_file (join [slash] (root ++ [file])) file = true.
Proof.
  unfold Final.scan_file. cbv zeta.
  destruct (Final.endswith _ file); [|by intros ?%elem_of_nil].
  destruct (Final.is_core_file _ file); [|by intros ?%elem_of_nil].
  by intros ->%list_elem_of_singleton.
Qed.

Lemma final_files_of_elem root es f :
  f ∈ Final.scan_files_of root es ->
  exists file, File file ∈ es /\ f ∈ Final.scan_file root file.
Proof.
  unfold Final.scan_files_of. intros (e & He & Hf)%list_elem_of_In%in_flat_map.
  apply list_elem_of_In in He, Hf. destruct e as [file|d sub].
  - by exists file.
  - by apply elem_of_nil in Hf.
Qed.

Lemma final_below_elem e : forall root f,
  f ∈ Final.scan_below root e ->
  exists dirs file, f ∈ Final.scan_file (root ++ dirs) file.
Proof.
  induction e as [file|d sub IH] using entry_induction; intros root f Hf.
  - by apply elem_of_nil in Hf.
  - cbn [Final.scan_below] in Hf. destruct (Final.walk_into d).
    2:{ by apply elem_of_nil in Hf. }
    apply elem_of_app in Hf as [Hf|Hf].
    + apply final_files_of_elem in Hf as (file & _ & Hf). by exists [d], file.
    + apply list_elem_of_In, in_flat_map in Hf as (e & He & Hf).
      apply list_elem_of_In in He, Hf. rewrite Forall_forall in IH.
      destruct (IH e He _ _ Hf) as (dirs & file & Hfile).
      exists (d :: dirs), file. by rewrite <- app_assoc in Hfile.
Qed.

Lemma endswith_swift_name file :
  Final.endswith (lit ".swift") file = true -> file <> lit "Info.plist".
Proof. by intros Hend ->. Qed.

(** X25.  The final fix lists Swift sources and the asset catalogue, and
    nothing else: every item of [scan_core_files] is either a file whose
    name ends in [.swift], taken because [is_core_file] holds of it and
    listed as a source, or the one item for [Assets.xcassets].  Whatever
    the source directory holds, [Info.plist] is not among the items. *)
Theorem final_scan_lists_sources_and_assets
    (source_tree : list entry) (f : file_info) :
  f ∈ Final.scan_core_files source_tree ->
  name f <> lit "Info.plist"
  /\ ((type f = lit "sourcecode.swift" /\ category f = lit "source"
       /\ Final.endswith (lit ".swift") (name f) = true
       /\ Final.is_core_file (path f) (name f) = true)
      \/ f = Final.assets_item).
Proof.
  unfold Final.scan_core_files. rewrite !elem_of_app.
  assert (forall root file, f ∈ Final.scan_file root file ->
            name f <> lit "Info.plist"
            /\ ((type f = lit "sourcecode.swift" /\ category f = lit "source"
                 /\ Final.endswith (lit ".swift") (name f) = true
                 /\ Final.is_core_file (path f) (name f) = true)
                \/ f = Final.assets_item)) as Hfile.
  { intros root file (-> & Hend & Hcore)%final_scan_file_elem.
    cbn [name type category path].
    split; [by apply endswith_swift_name|]. left. by repeat split. }
  intros [Hf|[Hf|Hf]].
  - apply final_files_of_elem in Hf as (file & _ & Hf). by eapply Hfile.
  - apply list_elem_of_In, in_flat_map in Hf as (e & _ & Hf).
    apply list_elem_of_In in Hf.
    apply final_below_elem in Hf as (dirs & file & Hf). by eapply Hfile.
  - destruct (Final.has_entry _ source_tree); [|by apply elem_of_nil in Hf].
    apply list_elem_of_singleton in Hf as ->. split; [discriminate|by right].
Qed.

Lemma final_scan_lists_sources_and_assets_witness :
  Final.assets_item ∈ Final.scan_core_files Final.core_tree
  /\ name Final.assets_item <> lit "Info.plist"
  /\ ((type Final.assets_item = lit "sourcecode.swift"
       /\ category Final.assets_item = lit "source"
       /\ Final.endswith (lit ".swift") (name Final.assets_item) = true
       /\ Final.is_core_file (path Final.assets_item)
            (name Final.assets_item) = true)
      \/ Final.assets_item = Final.assets_item).
Proof.
  assert (Final.assets_item ∈ Final.scan_core_files Final.core_tree) as Hin.
  { apply list_elem_of_In. vm_compute. repeat (first [by left|right]). }
  split; [exact Hin|].
  exact (final_scan_lists_sources_and_assets Final.core_tree _ Hin).
Defined.

(** *** Files below [Core] *)

Lemma final_files_of_holds root es file f :
  File file ∈ es -> f ∈ Final.scan_file root file ->
  f ∈ Final.scan_files_of root es.
Proof.
  intros Hfile Hf. unfold Final.scan_files_of.
  apply list_elem_of_In, in_flat_map.
  exists (File file). split; by apply list_elem_of_In.
Qed.

Lemma final_below_holds dirs : forall root d sub file f,
  Final.walk_into d = true ->
  Forall (fun d => Final.walk_into d = true) dirs ->
  holds sub dirs file ->
  f ∈ Final.scan_file (root ++ d :: dirs) file ->
  f ∈ Final.scan_below root (Dir d sub).
Proof.
  induction dirs as [|d' dirs IH]; intros root d sub file f Hd Hdirs Hholds Hf;
    cbn [Final.scan_below]; rewrite Hd; apply elem_of_app.
  - left. by apply (final_files_of_holds _ _ file).
  - right. destruct Hholds as (sub' & Hsub & Hholds).
    apply Forall_cons in Hdirs as [Hd' Hdirs].
    apply list_elem_of_In, in_flat_map. exists (Dir d' sub').
    split; [by apply list_elem_of_In|]. apply list_elem_of_In.
    apply (IH (root ++ [d]) d' sub' file f Hd' Hdirs Hholds).
    by rewrite <- app_assoc.
Qed.

Lemma core_path_starts dirs file :
  startswith (lit "Core/") (join [slash] ((lit "Core" :: dirs) ++ [file]))
  = true.
Proof.
  change ((lit "Core" :: dirs) ++ [file]) with (lit "Core" :: (dirs ++ [file])).
  destruct (dirs ++ [file]) as [|x l] eqn:Hl.
  - by destruct dirs.
  - reflexivity.
Qed.

(** X26.  Below [Core], the final fix takes every Swift file whose path has
    none of the four markers [Test], [Watch], [Widget] and [Bridge]:
    such a file, listed in a directory that the walk reaches from
    [Core] without passing a skipped directory, is an item of the
    scan. *)
Theorem core_files_are_listed
    (source_tree : list entry) (dirs : list str) (file : str) :
  let path_str := join [slash] ((lit "Core" :: dirs) ++ [file]) in
  holds source_tree (lit "Core" :: dirs) file ->
  Forall (fun d => Final.walk_into d = true) dirs ->
  Final.endswith (lit ".swift") file = true ->
  existsb (fun x => contains x path_str) Final.side_markers = false ->
  FileInfo path_str file (lit "sourcecode.swift") (lit "source")
    ∈ Final.scan_core_files source_tree.
Proof.
  intros path_str Hholds Hdirs Hend Hside.
  assert (Final.scan_file (lit "Core" :: dirs) file
          = [FileInfo path_str file (lit "sourcecode.swift") (lit "source")])
    as Hscan.
  { unfold Final.scan_file. rewrite Hend. cbv zeta. fold path_str.
    unfold Final.is_core_file. subst path_str.
    rewrite core_path_starts, Hside. cbn [negb andb].
    by rewrite orb_true_r. }
  unfold Final.scan_core_files. rewrite !elem_of_app. right. left.
  destruct Hholds as (sub & Hsub & Hholds).
  apply list_elem_of_In, in_flat_map. exists (Dir (lit "Core") sub).
  split; [by apply list_elem_of_In|]. apply list_elem_of_In.
  apply (final_below_holds dirs [] (lit "Core") sub file); try done.
  cbn [app]. rewrite Hscan. apply list_elem_of_here.
Qed.

Lemma core_files_are_listed_witness :
  holds Final.core_tree [lit "Core"; lit "Models"] (lit "Gait.swift")
  /\ Forall (fun d => Final.walk_into d = true) [lit "Models"]
  /\ Final.endswith (lit ".swift") (lit "Gait.swift") = true
  /\ existsb (fun x => contains x (lit "Core/Models/Gait.swift"))
             Final.side_markers = false
  /\ FileInfo (lit "Core/Models/Gait.swift") (lit "Gait.swift")
              (lit "sourcecode.swift") (lit "source")
       ∈ Final.scan_core_files Final.core_tree.
Proof.
  assert (holds Final.core_tree [lit "Core"; lit "Models"] (lit "Gait.swift"))
    as Hholds.
  { eexists. split; [do 2 apply list_elem_of_further; apply list_elem_of_here|].
    eexists. split; [apply list_elem_of_here|]. apply list_elem_of_here. }
  assert (Forall (fun d => Final.walk_into d = true) [lit "Models"]) as Hdirs
    by (by repeat constructor).
  assert (Final.endswith (lit ".swift") (lit "Gait.swift") = true) as Hend
    by (vm_compute; reflexivity).
  assert (existsb (fun x => contains x (lit "Core/Models/Gait.swift"))
            Final.side_markers = false) as Hside by (vm_compute; reflexivity).
  split; [exact Hholds|]. split; [exact Hdirs|]. split; [exact Hend|].
  split; [exact Hside|].
  exact (core_files_are_listed Final.core_tree [lit "Models"]
           (lit "Gait.swift") Hholds Hdirs Hend Hside).
Defined.

Example final_scan_of_core_tree :
  map path (Final.scan_core_files Final.core_tree)
  = [ lit "VitalSenseApp.swift"; lit "Core/Models/Gait.swift";
      lit "Assets.xcassets" ].
Proof. vm_compute. reflexivity. Qed.

End OtherScans.

Module RepairClaims.
Import Py Re Dedup Repaired ReFacts CollapseFacts CollapseFacts2 LineFacts ScanFacts
  ScanFacts2 FreshFacts DedupProofs RepairFacts.

Local Abbreviation lines s := (split_on nl s).
Local Abbreviation nonblank ls := (filter (fun l => is_blank l = false) ls).

(** *** The collapse, line by line *)

Lemma leading_breaks_free l : nl ∉ l -> leading_breaks l = 0%nat.
Proof.
  induction l as [|c l IH]; [done|]. intros [Hc Hl]%not_elem_of_cons.
  rewrite leading_breaks_cons. destruct (N.eqb_spec c nl); [done|].
  destruct (is_space c); [by apply IH|done].
Qed.

Lemma leading_breaks_line l s :
  nl ∉ l ->
  leading_breaks (l ++ nl :: s)
  = if is_blank l then S (leading_breaks s) else 0%nat.
Proof.
  induction l as [|c l IH].
  - intros _. cbn [app]. by rewrite leading_breaks_cons, N.eqb_refl.
  - intros [Hc Hl]%not_elem_of_cons. cbn [app].
    rewrite leading_breaks_cons, is_blank_cons.
    destruct (N.eqb_spec c nl); [done|].
    destruct (is_space c); cbn [andb]; [by apply IH|done].
Qed.

Lemma leading_blank_lines_cons l x :
  x <> [] ->
  leading_blank_lines (l :: x)
  = if is_blank l then S (leading_blank_lines x) else 0%nat.
Proof. by destruct x. Qed.

Lemma leading_blank_lines_other l x :
  is_blank l = false -> leading_blank_lines (l :: x) = 0%nat.
Proof. intros Hl. destruct x; [done|]. cbn [leading_blank_lines]. by rewrite Hl. Qed.

Lemma leading_breaks_join ls :
  Forall (fun l => nl ∉ l) ls ->
  leading_breaks (join [nl] ls) = leading_blank_lines ls.
Proof.
  induction ls as [|l ls IH]; [done|]. intros [Hl Hls]%Forall_cons.
  destruct ls as [|r ls].
  - cbn [join leading_blank_lines]. by apply leading_breaks_free.
  - change (join [nl] (l :: r :: ls)) with (l ++ nl :: join [nl] (r :: ls)).
    rewrite leading_breaks_line, leading_blank_lines_cons by done.
    by rewrite IH.
Qed.

Lemma collapse_line l s :
  nl ∉ l -> collapse false (l ++ s) = l ++ collapse false s.
Proof.
  induction l as [|c l IH]; [done|]. intros [Hc Hl]%not_elem_of_cons.
  cbn [app]. rewrite collapse_cons. cbn [andb blank_run_at].
  destruct (N.eqb_spec c nl); [done|]. cbn [andb]. by rewrite IH.
Qed.

Lemma after_breaks_line l s :
  nl ∉ l -> is_blank l = true ->
  after_breaks (l ++ nl :: s) = after_breaks s.
Proof.
  induction l as [|c l IH]; intros Hfree Hblank.
  - cbn [app]. by rewrite after_breaks_cons, leading_breaks_cons, N.eqb_refl.
  - cbn [app]. rewrite after_breaks_cons.
    change (c :: l ++ nl :: s) with ((c :: l) ++ nl :: s).
    rewrite leading_breaks_line, Hblank by done.
    cbn [Nat.ltb Nat.leb]. apply not_elem_of_cons in Hfree as [_ Hfree].
    rewrite is_blank_cons in Hblank.
    apply andb_true_iff in Hblank as [_ Hblank]. by apply IH.
Qed.

Lemma collapse_blank_line l s :
  nl ∉ l -> is_blank l = true ->
  collapse true (l ++ nl :: s) = collapse true s.
Proof.
  intros Hfree Hblank. by rewrite !collapse_skipping, after_breaks_line.
Qed.

Lemma collapse_first_line b l s :
  nl ∉ l -> b && is_blank l = false ->
  collapse b (l ++ nl :: s) = l ++ collapse false (nl :: s).
Proof.
  intros Hfree Hb. destruct b.
  - cbn [andb] in Hb.
    rewrite collapse_skipping, after_breaks_zero.
    + by apply collapse_line.
    + by rewrite leading_breaks_line, Hb.
  - by apply collapse_line.
Qed.

Lemma collapse_last_line b l : nl ∉ l -> collapse b l = l.
Proof.
  intros Hfree.
  assert (collapse false l = l) as Hl.
  { rewrite <- (app_nil_r l) at 1. rewrite collapse_line by done.
    apply app_nil_r. }
  destruct b; [|done].
  by rewrite collapse_skipping, after_breaks_zero, Hl
    by by apply leading_breaks_free.
Qed.

Lemma squeeze_cons b l rest :
  squeeze b (l :: rest) =
  if b && (0 <? leading_blank_lines (l :: rest))%nat then squeeze true rest
  else if (2 <=? leading_blank_lines rest)%nat
       then l :: [] :: squeeze true rest
       else l :: squeeze false rest.
Proof. reflexivity. Qed.

(** The lines of the collapsed text are the lines that [squeeze] makes
    of the lines of the text. *)
Lemma collapse_squeeze ls : forall b,
  ls <> [] -> Forall (fun l => nl ∉ l) ls ->
  lines (collapse b (join [nl] ls)) = squeeze b ls.
Proof.
  induction ls as [|l ls IH]; [done|]. intros b _ [Hl Hls]%Forall_cons.
  destruct ls as [|r ls].
  - cbn [join]. rewrite collapse_last_line, lines_single by done.
    rewrite squeeze_cons. cbn [leading_blank_lines]. by rewrite andb_false_r.
  - change (join [nl] (l :: r :: ls)) with (l ++ nl :: join [nl] (r :: ls)).
    rewrite squeeze_cons, leading_blank_lines_cons by done.
    destruct (b && is_blank l) eqn:Hb.
    + apply andb_true_iff in Hb as [-> Hblank]. rewrite Hblank.
      cbn [andb Nat.ltb Nat.leb].
      rewrite collapse_blank_line by done. by apply IH.
    + assert (b && (0 <? (if is_blank l
                          then S (leading_blank_lines (r :: ls))
                          else 0))%nat = false) as ->.
      { destruct b; [|done]. cbn [andb] in Hb. by rewrite Hb. }
      rewrite collapse_first_line, collapse_cons by done.
      cbn [andb blank_run_at]. rewrite N.eqb_refl. cbn [andb].
      rewrite leading_breaks_join by done.
      destruct (2 <=? leading_blank_lines (r :: ls))%nat.
      * rewrite lines_app_nl, lines_nl by done. by rewrite IH.
      * rewrite lines_app_nl by done. by rewrite IH.
Qed.

(** *** What [squeeze] does to a run of blank lines *)

Lemma leading_blank_lines_before P a R :
  is_blank a = false ->
  leading_blank_lines (P ++ a :: R) = leading_blank_lines (P ++ [a]).
Proof.
  intros Ha. induction P as [|p P IH].
  - cbn [app]. by rewrite !leading_blank_lines_other.
  - cbn [app]. rewrite !leading_blank_lines_cons, IH; [done| |];
      by destruct P.
Qed.

Lemma squeeze_before P : forall b a R,
  is_blank a = false ->
  squeeze b (P ++ a :: R)
  = squeeze b (P ++ [a]) ++ tl (squeeze false (a :: R)).
Proof.
  induction P as [|p P IH]; intros b a R Ha.
  - cbn [app]. rewrite !squeeze_cons, !leading_blank_lines_other by done.
    cbn [Nat.ltb Nat.leb leading_blank_lines squeeze].
    rewrite andb_false_r. cbn [andb].
    by destruct (leading_blank_lines R) as [|[|n]].
  - cbn [app]. rewrite !squeeze_cons.
    change (p :: P ++ a :: R) with ((p :: P) ++ a :: R).
    change (p :: P ++ [a]) with ((p :: P) ++ [a]).
    rewrite (leading_blank_lines_before (p :: P) a R Ha),
      (leading_blank_lines_before P a R Ha).
    destruct (b && _); [by apply IH|].
    destruct (2 <=? _)%nat; cbn [app]; by rewrite IH.
Qed.

Lemma leading_blank_lines_run B : forall b Q,
  Forall (fun l => is_blank l = true) B ->
  is_blank b = false ->
  leading_blank_lines (B ++ b :: Q) = length B.
Proof.
  induction B as [|x B IH]; intros b Q HB Hb.
  - by apply leading_blank_lines_other.
  - apply Forall_cons in HB as [Hx HB]. cbn [app length].
    rewrite leading_blank_lines_cons, Hx, IH; [done..|by destruct B].
Qed.

Lemma squeeze_other b l rest :
  is_blank l = false -> squeeze b (l :: rest) = squeeze false (l :: rest).
Proof.
  intros Hl. rewrite !squeeze_cons, leading_blank_lines_other by done.
  by rewrite andb_false_r.
Qed.

Lemma squeeze_skips_run B : forall b Q,
  Forall (fun l => is_blank l = true) B ->
  is_blank b = false ->
  squeeze true (B ++ b :: Q) = squeeze false (b :: Q).
Proof.
  induction B as [|x B IH]; intros b Q HB Hb.
  - by apply squeeze_other.
  - pose proof (leading_blank_lines_run (x :: B) b Q HB Hb) as Hrun.
    apply Forall_cons in HB as [Hx HB]. cbn [app length] in *.
    rewrite squeeze_cons, Hrun. cbn [andb Nat.ltb Nat.leb]. by apply IH.
Qed.

Lemma squeeze_last P : forall b a,
  exists before, squeeze b (P ++ [a]) = before ++ [a].
Proof.
  induction P as [|p P IH]; intros b a.
  - exists []. cbn [app]. rewrite squeeze_cons. cbn [leading_blank_lines].
    by rewrite andb_false_r.
  - cbn [app]. rewrite squeeze_cons.
    destruct (b && _); [apply IH|].
    destruct (2 <=? _)%nat.
    + destruct (IH true a) as [before ->]. by exists (p :: [] :: before).
    + destruct (IH false a) as [before ->]. by exists (p :: before).
Qed.

Lemma squeeze_first l rest :
  exists after, squeeze false (l :: rest) = l :: after.
Proof.
  rewrite squeeze_cons. cbn [andb]. destruct (2 <=? _)%nat; by eexists.
Qed.

(** A run of two or more blank lines between two lines that are not
    blank becomes one empty line; a single blank line there stays. *)
Lemma squeeze_run P a B b Q :
  is_blank a = false -> is_blank b = false ->
  Forall (fun l => is_blank l = true) B ->
  squeeze false (P ++ a :: B ++ b :: Q)
  = squeeze false (P ++ [a])
    ++ (if (2 <=? length B)%nat then [[]] else B)
    ++ squeeze false (b :: Q).
Proof.
  intros Ha Hb HB. rewrite squeeze_before by done. f_equal.
  rewrite squeeze_cons. cbn [andb].
  rewrite leading_blank_lines_run by done.
  destruct (2 <=? length B)%nat eqn:Hlen; cbn [tl].
  - by rewrite squeeze_skips_run.
  - apply Nat.leb_gt in Hlen. destruct B as [|x B]; [done|].
    destruct B as [|y B]; [|cbn [length] in Hlen; lia].
    cbn [app]. rewrite squeeze_cons. cbn [andb].
    by rewrite leading_blank_lines_other.
Qed.

Lemma kept_by_init l : kept_by scan_init l = true.
Proof.
  unfold kept_by, scan_init. cbn [seen_refs seen_build_refs].
  destruct (classify l); by rewrite ?lookup_empty.
Qed.

Lemma kept_lines content :
  let kept := new_lines (scan (lines content)) in
  kept <> [] /\ Forall (fun l => nl ∉ l) kept.
Proof.
  cbv zeta. destruct (scan_survivors (lines content)) as [-> _]. split.
  - pose proof (split_on_nonempty nl content) as Hne.
    destruct (lines content) as [|l ls]; [done|].
    cbn [survivors]. by rewrite kept_by_init.
  - apply survivors_Forall, lines_no_nl.
Qed.

(** *** When the loop drops no line *)

Lemma nothing_to_remove_step st l ls :
  nothing_to_remove_from st (l :: ls)
  <-> kept_by st l = true /\ nothing_to_remove_from (learn st l) ls.
Proof.
  unfold nothing_to_remove_from, kept_by.
  rewrite seen_refs_learn, seen_build_refs_learn.
  rewrite fileref_keys_cons, build_decls_cons. split.
  - intros (Hr & Hrs & Hb & Hbs & Hp).
    destruct (classify l) as [key ref_id|key ref_id|key ref_id|] eqn:Hl.
    + apply NoDup_cons in Hr as [Hnew Hr]. split.
      { apply bool_decide_eq_true_2, Hrs. by left. }
      split; [done|]. split.
      { intros k Hk. rewrite lookup_insert_ne; [apply Hrs; by right|].
        by intros ->. }
      split; [done|]. split; [done|].
      intros before line after k r d -> Hline Hd.
      apply (Hp (l :: before) line after k r d); [done..|].
      by rewrite build_decls_cons, Hl.
    + rewrite fmap_cons in Hb, Hbs. cbn [fst] in Hb, Hbs.
      apply NoDup_cons in Hb as [Hnew Hb]. split.
      { apply bool_decide_eq_true_2, Hbs. by left. }
      split; [done|]. split; [done|]. split; [done|]. split.
      { intros k Hk. rewrite lookup_insert_ne; [apply Hbs; by right|].
        by intros ->. }
      intros before line after k r d -> Hline Hd.
      apply (Hp (l :: before) line after k r d); [done..|].
      rewrite build_decls_cons, Hl. destruct Hd as [Hd|Hd]; [|right; by right].
      destruct (decide (key = k)) as [->|Hne].
      * rewrite lookup_insert_eq in Hd. injection Hd as <-. right. by left.
      * rewrite lookup_insert_ne in Hd by done. by left.
    + split.
      { destruct (seen_build_refs st !! key) as [seen_id|] eqn:Hs; [|done].
        apply bool_decide_eq_true_2.
        apply (Hp [] l ls key ref_id seen_id); [done..|]. by left. }
      split; [done|]. split; [done|]. split; [done|]. split; [done|].
      intros before line after k r d -> Hline Hd.
      apply (Hp (l :: before) line after k r d); [done..|].
      by rewrite build_decls_cons, Hl.
    + split; [done|]. split; [done|]. split; [done|]. split; [done|].
      split; [done|].
      intros before line after k r d -> Hline Hd.
      apply (Hp (l :: before) line after k r d); [done..|].
      by rewrite build_decls_cons, Hl.
  - intros [Hkept (Hr & Hrs & Hb & Hbs & Hp)].
    assert (forall before line after k r d,
              l :: ls = before ++ line :: after ->
              classify line = PhaseEntry k r ->
              before <> [] ->
              (match classify l with
               | BuildFileDecl key ref_id =>
                   <[key := ref_id]> (seen_build_refs st)
               | _ => seen_build_refs st
               end) !! k = Some d
              \/ (k, d) ∈ build_decls (tl before) ->
              d = r) as Hlater.
    { intros before line after k r d Heq Hline Hne Hd.
      destruct before as [|l' before]; [done|].
      injection Heq as <- ->. by apply (Hp before line after k r d). }
    destruct (classify l) as [key ref_id|key ref_id|key ref_id|] eqn:Hl.
    + apply bool_decide_eq_true_1 in Hkept.
      assert (key ∉ fileref_keys ls) as Hnew.
      { intros Hin. specialize (Hrs key Hin).
        by rewrite lookup_insert_eq in Hrs. }
      split; [by apply NoDup_cons|]. split.
      { intros k [->|Hk]%elem_of_cons; [done|].
        specialize (Hrs k Hk). rewrite lookup_insert_ne in Hrs; [done|].
        by intros ->. }
      split; [done|]. split; [done|].
      intros before line after k r d Heq Hline Hd.
      destruct before as [|l' before].
      { injection Heq as <- _. congruence. }
      apply (Hlater (l' :: before) line after k r d); [done..|].
      injection Heq as <- _. rewrite build_decls_cons, Hl in Hd. done.
    + apply bool_decide_eq_true_1 in Hkept.
      assert (key ∉ (build_decls ls).*1) as Hnew.
      { intros Hin. specialize (Hbs key Hin).
        by rewrite lookup_insert_eq in Hbs. }
      split; [done|]. split; [done|]. rewrite fmap_cons. cbn [fst].
      split; [by apply NoDup_cons|]. split.
      { intros k [->|Hk]%elem_of_cons; [done|].
        specialize (Hbs k Hk). rewrite lookup_insert_ne in Hbs; [done|].
        by intros ->. }
      intros before line after k r d Heq Hline Hd.
      destruct before as [|l' before].
      { injection Heq as <- _. congruence. }
      apply (Hlater (l' :: before) line after k r d); [done..|].
      injection Heq as <- _. rewrite build_decls_cons, Hl in Hd.
      cbn [tl]. destruct Hd as [Hd|[Hd|Hd]%elem_of_cons].
      * left. rewrite lookup_insert_ne; [done|]. intros ->. congruence.
      * injection Hd as -> ->. left. apply lookup_insert_eq.
      * by right.
    + split; [done|]. split; [done|]. split; [done|]. split; [done|].
      intros before line after k r d Heq Hline Hd.
      destruct before as [|l' before].
      * injection Heq as <- _. rewrite Hl in Hline. injection Hline as <- <-.
        destruct Hd as [Hd|Hd]; [|by apply elem_of_nil in Hd].
        rewrite Hd in Hkept. unfold str_eqb in Hkept.
        by apply bool_decide_eq_true_1 in Hkept.
      * apply (Hlater (l' :: before) line after k r d); [done..|].
        injection Heq as <- _. rewrite build_decls_cons, Hl in Hd. done.
    + split; [done|]. split; [done|]. split; [done|]. split; [done|].
      intros before line after k r d Heq Hline Hd.
      destruct before as [|l' before].
      { injection Heq as <- _. congruence. }
      apply (Hlater (l' :: before) line after k r d); [done..|].
      injection Heq as <- _. rewrite build_decls_cons, Hl in Hd. done.
Qed.

Lemma nothing_to_remove_nil st : nothing_to_remove_from st [].
Proof.
  unfold nothing_to_remove_from. cbn.
  split; [constructor|]. split; [by intros k ?%elem_of_nil|].
  split; [constructor|]. split; [by intros k ?%elem_of_nil|].
  intros before line after k r d Heq. by destruct before.
Qed.

Lemma survivors_all ls : forall st,
  survivors st ls = ls <-> nothing_to_remove_from st ls.
Proof.
  induction ls as [|l ls IH]; intros st.
  - split; [intros _; apply nothing_to_remove_nil|done].
  - rewrite nothing_to_remove_step, <- IH. split.
    + apply survivors_all_cons.
    + intros [Hkept Hall]. cbn [survivors]. by rewrite Hkept, Hall.
Qed.

Lemma nothing_to_remove_init ls :
  nothing_to_remove ls <-> nothing_to_remove_from scan_init ls.
Proof.
  unfold nothing_to_remove, nothing_to_remove_from, members_agree, scan_init.
  cbn [seen_refs seen_build_refs]. split.
  - intros (Hr & Hb & Hp). split; [done|]. split; [done|].
    split; [done|]. split; [done|].
    intros before line after k r d Heq Hline [Hd|Hd]; [done|].
    by apply (Hp before line after k r d).
  - intros (Hr & _ & Hb & _ & Hp). split; [done|]. split; [done|].
    intros before line after k r d Heq Hline Hd.
    apply (Hp before line after k r d); [done..|]. by right.
Qed.

Lemma survivors_full ls : forall st,
  length (survivors st ls) = length ls -> survivors st ls = ls.
Proof.
  induction ls as [|l ls IH]; intros st; [done|]. cbn [survivors].
  destruct (kept_by st l); cbn [length].
  - intros [= Hlen]. by rewrite IH.
  - pose proof (survivors_length ls st). lia.
Qed.

(** The repair counts no duplicate exactly when the loop drops no
    line. *)
Lemma count_zero content :
  snd (dedup_text content) = 0%nat
  <-> nothing_to_remove (split_on nl content).
Proof.
  rewrite nothing_to_remove_init, <- survivors_all, dedup_text_spec.
  cbn [snd]. destruct (scan_survivors (lines content)) as [_ Hcount]. split.
  - intros Hzero. apply survivors_full. lia.
  - intros Hall. rewrite Hall in Hcount. lia.
Qed.

Lemma build_decls_app a b :
  build_decls (a ++ b) = build_decls a ++ build_decls b.
Proof. unfold build_decls. apply omap_app. Qed.

Lemma no_duplicate_labels_nothing_to_remove ls :
  no_duplicate_labels ls -> nothing_to_remove ls.
Proof.
  intros (Hr & Hb & Hp). split; [done|]. split; [done|].
  intros before line after k r d -> Hline Hd. apply (Hp k r d).
  - unfold phase_entries. apply list_elem_of_omap. exists line.
    split; [|by rewrite Hline]. apply elem_of_app. right. by left.
  - rewrite build_decls_app. apply elem_of_app. by left.
Qed.

(** *** The claims *)

(** C2, as the code has it.  The repair leaves a manifest as it is when
    no label is declared twice as a FileReference, none twice as a
    BuildFileEntry, and no membership line of the Sources phase stands
    after a BuildFileEntry declaration of its label under another
    identifier ([nothing_to_remove]): it counts no duplicate, and the
    call changes no file, writes no backup and attempts no write.  The
    condition is the exact one: the repair counts no duplicate for such
    a text only. *)
Theorem manifest_with_nothing_to_remove_is_left_alone
    (fault : str -> write_fault) (w : world) (file_path stored : str) :
  let content := universal_newlines stored in
  files w !! file_path = Some stored ->
  (nothing_to_remove (split_on nl content) ->
   snd (dedup_text content) = 0%nat
   /\ deduplicate_project_file fault w file_path = (w, Returned true))
  /\ (snd (dedup_text content) = 0%nat ->
      nothing_to_remove (split_on nl content)).
Proof.
  intros content Hfile. split.
  - intros Hclean%count_zero. split; [done|].
    by eapply dedup_file_nothing_to_do.
  - apply count_zero.
Qed.

Lemma manifest_with_nothing_to_remove_is_left_alone_witness :
  files (World {[ sample_path := sources_manifest ]} []) !! sample_path
  = Some sources_manifest
  /\ nothing_to_remove (split_on nl sources_manifest)
  /\ snd (dedup_text sources_manifest) = 0%nat
  /\ deduplicate_project_file backup_unwritable
       (World {[ sample_path := sources_manifest ]} []) sample_path
     = (World {[ sample_path := sources_manifest ]} [], Returned true).
Proof.
  assert (files (World {[ sample_path := sources_manifest ]} [])
            !! sample_path = Some sources_manifest) as Hfile
    by apply lookup_singleton_eq.
  assert (nothing_to_remove (split_on nl sources_manifest)) as Hclean.
  { apply no_duplicate_labels_nothing_to_remove, labels_ok_sound.
    vm_compute. reflexivity. }
  split; [exact Hfile|]. split; [exact Hclean|].
  exact (proj1 (manifest_with_nothing_to_remove_is_left_alone
                  backup_unwritable
                  (World {[ sample_path := sources_manifest ]} [])
                  sample_path sources_manifest Hfile) Hclean).
Defined.

(** C2, as stated, fails.  In [stray_member_manifest] no label comes
    twice under any of the three patterns: there is one BuildFileEntry
    declaration and one membership line.  The membership line carries
    another identifier than the declaration, the loop drops it, and the
    call writes the backup and the manifest without that line. *)
Lemma stray_member_is_removed :
  no_label_twice (split_on nl stray_member_manifest)
  /\ snd (dedup_text stray_member_manifest) = 1%nat
  /\ deduplicate_project_file (fun _ => NoFault)
       (World {[ sample_path := stray_member_manifest ]} []) sample_path
     = (World (<[ sample_path := stray_member_removed ]>
                 (<[ backup_path sample_path := stray_member_manifest ]>
                    {[ sample_path := stray_member_manifest ]}))
              [ Wrote (backup_path sample_path) stray_member_manifest;
                Wrote sample_path stray_member_removed ],
        Returned true).
Proof.
  assert (dedup_text (universal_newlines stray_member_manifest)
          = (stray_member_removed, 1%nat)) as Htext
    by (vm_compute; reflexivity).
  split; [|split].
  - unfold no_label_twice.
    assert (fileref_keys (split_on nl stray_member_manifest) = []) as ->
      by (vm_compute; reflexivity).
    assert ((build_decls (split_on nl stray_member_manifest)).*1
            = [lit "Model.swift"]) as -> by (vm_compute; reflexivity).
    assert ((phase_entries (split_on nl stray_member_manifest)).*1
            = [lit "Model.swift"]) as -> by (vm_compute; reflexivity).
    split; [constructor|]. split; apply NoDup_singleton.
  - vm_compute. reflexivity.
  - unfold deduplicate_project_file. cbn [files].
    rewrite lookup_singleton_eq. cbv zeta. rewrite Htext.
    reflexivity.
Qed.


(** C7, as the code has it.  In the text that the repair produces there
    is no line break followed by two blank lines that each end in a line
    break (see [has_blank_run_spec]), and the lines that are not blank
    are those that the scan kept, in their order.  Line by line, the
    text produced is [squeeze] of the lines kept: where a line is
    followed by two or more blank lines that are each followed by a
    further line, one empty line stands in their place.  So a run [B]
    of two or more blank lines between two lines [a] and [b] that are
    not blank leaves [a], one empty line and [b]; what stands before
    and after is what the collapse makes of the lines up to [a] and
    from [b] on. *)
Theorem blank_runs_become_one_empty_line (content : str) :
  let kept := new_lines (scan (split_on nl content)) in
  let produced := split_on nl (fst (dedup_text content)) in
  has_blank_run (fst (dedup_text content)) = false
  /\ nonblank produced = nonblank kept
  /\ produced = squeeze false kept
  /\ (forall P a B b Q,
        kept = P ++ a :: B ++ b :: Q ->
        is_blank a = false -> is_blank b = false ->
        Forall (fun l => is_blank l = true) B ->
        (2 <= length B)%nat ->
        exists before after,
          squeeze false (P ++ [a]) = before ++ [a]
          /\ squeeze false (b :: Q) = b :: after
          /\ produced = before ++ a :: [] :: b :: after).
Proof.
  cbv zeta. destruct (kept_lines content) as [Hne Hfree].
  assert (split_on nl (fst (dedup_text content))
          = squeeze false (new_lines (scan (split_on nl content)))) as Hout.
  { rewrite dedup_text_spec. cbn [fst].
    destruct (scan_survivors (split_on nl content)) as [Hnew _].
    rewrite <- Hnew. by apply collapse_squeeze. }
  split; [|split; [|split]].
  - rewrite dedup_text_spec. apply collapse_no_blank_run.
  - rewrite dedup_text_spec. cbn [fst].
    destruct (scan_survivors (split_on nl content)) as [-> _].
    rewrite nonblank_collapse, nonblank_join; [done|].
    apply survivors_Forall, lines_no_nl.
  - exact Hout.
  - intros P a B b Q Hkept Ha Hb HB Hlen.
    destruct (squeeze_last P false a) as [before Hbefore].
    destruct (squeeze_first b Q) as [after Hafter].
    exists before, after. split; [done|]. split; [done|].
    rewrite Hout, Hkept, squeeze_run by done.
    apply Nat.leb_le in Hlen. rewrite Hlen, Hbefore, Hafter.
    by rewrite <- !app_assoc.
Qed.

(** The same on [spaced_manifest]: the repair removes the second
    declaration, the empty line and the line of one tab come together,
    and one empty line is left between the first declaration and the
    end of the section. *)
Example blank_run_of_spaced_manifest :
  new_lines (scan (split_on nl spaced_manifest))
  = [ first_utils; []; [tab]; lit "/* End PBXFileReference section */" ]
  /\ split_on nl (fst (dedup_text spaced_manifest))
     = [ first_utils; []; lit "/* End PBXFileReference section */" ].
Proof. vm_compute. split; reflexivity. Qed.

End RepairClaims.
